(** * Cross-table search of the Dash scripts

    A shallow embedding of [search_all_tables], [combine_results],
    the name extraction of [introduce_person] and the term selection of
    [query_and_introduce] (dash_multitable.py), and of the loop of
    search_person.py, which builds the same predicate and runs the same scan
    for every table, without a budget.

    Python [str] is a list of characters; every character is a code point
    below 256.  A call into SQLAlchemy either returns or raises: the store is
    a record of such calls, and the scripts only ever see what these calls
    answer to the text they are given. *)

From Stdlib Require Import Ascii String DecimalString ZArith Lia Bool List.
From Stdlib Require DecimalPos.
Import ListNotations.

Definition lit (s : string) : list ascii := list_ascii_of_string s.
Coercion lit : string >-> list.

Definition str := list ascii.

Open Scope string_scope.
Open Scope list_scope.
Open Scope Z_scope.

(** ** Python string primitives *)

Module Py.

Definition code (c : ascii) : N := N_of_ascii c.

(** [str.isspace] on one character (code points below 256). *)
Definition isspace (c : ascii) : bool :=
  let n := code c in
  ((9 <=? n) && (n <=? 13) || (28 <=? n) && (n <=? 32)
   || (n =? 133) || (n =? 160))%N.

(** [s.split()]: maximal runs of non-whitespace characters. *)
Fixpoint split_from (cur : str) (s : str) : list str :=
  match s with
  | [] => match cur with [] => [] | _ => [cur] end
  | c :: s' =>
      if isspace c
      then match cur with [] => split_from [] s' | _ => cur :: split_from [] s' end
      else split_from (cur ++ [c]) s'
  end.

Definition split (s : str) : list str := split_from [] s.

(** [str.upper] as far as it is needed: the letters a-z are mapped.  The
    scripts apply it to the declared type of a column, to look for a marker
    written in letters of A-Z other than S; what else [upper] changes below
    256 gives no such letter. *)
Definition upper_char (c : ascii) : ascii :=
  let n := code c in
  if ((97 <=? n) && (n <=? 122))%N then ascii_of_N (n - 32) else c.

(** [str.lower] on one character: A-Z, and the capital letters of Latin-1,
    U+00C0 to U+00DE without the multiplication sign, go 32 up. *)
Definition lower_char (c : ascii) : ascii :=
  let n := code c in
  if ((65 <=? n) && (n <=? 90) || (192 <=? n) && (n <=? 214)
      || (216 <=? n) && (n <=? 222))%N
  then ascii_of_N (n + 32) else c.

Definition upper (s : str) : str := map upper_char s.
Definition lower (s : str) : str := map lower_char s.

(** [s.startswith(p)] and [sub in s]. *)
Fixpoint startswith (p s : str) : bool :=
  match p, s with
  | [], _ => true
  | _ :: _, [] => false
  | a :: p', b :: s' => Ascii.eqb a b && startswith p' s'
  end.

Fixpoint contains (sub s : str) : bool :=
  startswith sub s
  || match s with [] => false | _ :: s' => contains sub s' end.

(** [sep.join(parts)]. *)
Fixpoint join (sep : str) (parts : list str) : str :=
  match parts with
  | [] => []
  | [p] => p
  | p :: rest => p ++ sep ++ join sep rest
  end.

(** [s.strip()]. *)
Fixpoint lstrip (s : str) : str :=
  match s with
  | [] => []
  | c :: s' => if isspace c then lstrip s' else s
  end.

Definition strip (s : str) : str := rev (lstrip (rev (lstrip s))).

(** [l[-1]]: [None] stands for IndexError. *)
Definition last_item {A} (l : list A) : option A :=
  match rev l with [] => None | x :: _ => Some x end.

End Py.

(** A token of [split]: not empty, and without whitespace. *)
Definition is_token (tok : str) : Prop :=
  tok <> [] /\ existsb Py.isspace tok = false.

(** ** Values, records and results *)

(** A scalar as the driver hands it over: NULL ([None]), text or a number. *)
Inductive value :=
| VNone
| VStr (s : str)
| VInt (z : Z).

(** [str(v)], as an f-string formats a value. *)
Definition str_of_value (v : value) : str :=
  match v with
  | VNone => "None"
  | VStr s => s
  | VInt z => lit (NilEmpty.string_of_int (Z.to_int z))
  end.

(** [bool(v)]: [None], the empty string and zero are falsy. *)
Definition truthy (v : value) : bool :=
  match v with
  | VNone => false
  | VStr [] => false
  | VStr _ => true
  | VInt z => negb (z =? 0)
  end.

Definition str_eqb (a b : str) : bool :=
  if list_eq_dec ascii_dec a b then true else false.

(** A Python [dict] with string keys, in insertion order. *)
Definition dict := list (str * value).

Fixpoint dict_get (k : str) (d : dict) : option value :=
  match d with
  | [] => None
  | (k', v) :: d' => if str_eqb k k' then Some v else dict_get k d'
  end.

(** [k in d]. *)
Definition dict_has (k : str) (d : dict) : bool :=
  match dict_get k d with Some _ => true | None => false end.

(** [d.get(k, default)]. *)
Definition dict_get_default (k : str) (default : value) (d : dict) : value :=
  match dict_get k d with Some v => v | None => default end.

(** [d[k] = v]: an existing key keeps its place, a new one goes last. *)
Fixpoint dict_set (k : str) (v : value) (d : dict) : dict :=
  match d with
  | [] => [(k, v)]
  | (k', v') :: d' =>
      if str_eqb k k' then (k', v) :: d' else (k', v') :: dict_set k v d'
  end.

(** [dict(zip(keys, row))]. *)
Definition dict_zip (keys : list str) (row : list value) : dict :=
  fold_left (fun d kv => dict_set (fst kv) (snd kv) d) (combine keys row) [].

(** One entry of [insp.get_columns]: [col['name']] and [str(col['type'])]. *)
Record column := { col_name : str; col_type : str }.

(** What [conn.execute] returns: [result.keys()] and [result.fetchall()]. *)
Record result := { keys : list str; fetchall : list (list value) }.

(** [result.scalar()]: first column of the first row, [None] without one. *)
Definition scalar (r : result) : value :=
  match fetchall r with
  | (v :: _) :: _ => v
  | _ => VNone
  end.

(** The store behind the engine and its inspector.  [None] is a raised
    exception; [get_table_names] stands for building the inspector and
    listing the tables, [execute] for connecting and executing.  Catalog and
    rows do not change during a search: the same text gets the same answer. *)
Record Store := {
  get_table_names : option (list str);
  get_columns : str -> option (list column);
  execute : str -> option result
}.

(** An entry of [found_results]. *)
Record table_result := {
  table : str;
  count : value;
  columns : list str;
  records : list dict
}.

(** ** Calls that may raise, with the queries they issue *)

Inductive event :=
| GetTableNames
| GetColumns (table_name : str)
| Execute (sql : str).

(** A computation answers [None] when an exception ended it, and lists the
    calls made up to that point. *)
Definition M (A : Type) : Type := option A * list event.

Definition ret {A} (a : A) : M A := (Some a, []).

Definition bind {A B} (m : M A) (k : A -> M B) : M B :=
  match m with
  | (None, tr) => (None, tr)
  | (Some a, tr) => let '(b, tr') := k a in (b, tr ++ tr')
  end.

Definition call {A} (e : event) (answer : option A) : M A := (answer, [e]).

Notation "x <- m ;; k" := (bind m (fun x => k))
  (at level 61, m at next level, right associativity).

(** [try: ... except Exception: pass] around a body that may append one
    entry. *)
Definition try_pass {A} (m : M (option A)) : option A * list event :=
  match m with
  | (Some a, tr) => (a, tr)
  | (None, tr) => (None, tr)
  end.

(** ** search_all_tables *)

Definition type_markers : list str :=
  ["VARCHAR" : str; "NVARCHAR" : str; "TEXT" : str; "CHAR" : str].

(** [any(t in col_type_str for t in [...])] on the uppercased type. *)
Definition is_string_type (col : column) : bool :=
  let col_type_str := Py.upper (col_type col) in
  existsb (fun t => Py.contains t col_type_str) type_markers.

Definition string_columns (cols : list column) : list str :=
  map col_name (filter is_string_type cols).

(** [f"[{col}] LIKE '%{term}%'"]. *)
Definition col_condition (term col : str) : str :=
  "[" ++ col ++ "] LIKE '%" ++ term ++ "%'".

(** [f"({' OR '.join(col_conditions)})"]. *)
Definition term_condition (string_cols : list str) (term : str) : str :=
  "(" ++ Py.join " OR " (map (col_condition term) string_cols) ++ ")".

Definition where_clause (string_cols search_terms : list str) : str :=
  Py.join " AND " (map (term_condition string_cols) search_terms).

Definition select_sql (table_name predicate : str) : str :=
  "SELECT TOP 10 * FROM [" ++ table_name ++ "] WHERE " ++ predicate.

Definition count_sql (table_name predicate : str) : str :=
  "SELECT COUNT(*) FROM [" ++ table_name ++ "] WHERE " ++ predicate.

Section Search.

Variable st : Store.

(** The [with engine.connect() as conn:] block: the bounded sample, and the
    count when the sample has a row. *)
Definition scan (table_name predicate : str) : M (option table_result) :=
  let sql := select_sql table_name predicate in
  res <- call (Execute sql) (execute st sql) ;;
  let rows := fetchall res in
  match rows with
  | [] => ret None
  | _ :: _ =>
      let csql := count_sql table_name predicate in
      cres <- call (Execute csql) (execute st csql) ;;
      let total_count := scalar cres in
      let col_names := keys res in
      ret (Some {| table := table_name;
                   count := total_count;
                   columns := col_names;
                   records := map (dict_zip col_names) rows |})
  end.

(** The body of the [try] for one table. *)
Definition scan_table (search_terms : list str) (table_name : str)
  : M (option table_result) :=
  cols <- call (GetColumns table_name) (get_columns st table_name) ;;
  let string_cols := string_columns cols in
  match string_cols with
  | [] => ret None
  | _ :: _ => scan table_name (where_clause string_cols search_terms)
  end.

(** What one iteration leaves behind: the entry it appends, if any. *)
Definition outcome (search_terms : list str) (table_name : str)
  : option table_result :=
  fst (try_pass (scan_table search_terms table_name)).

Definition append_found (found : list table_result)
  (o : option table_result) : list table_result :=
  match o with Some m => found ++ [m] | None => found end.

(** The [for table_name in all_tables] loop with its [break]. *)
Fixpoint search_loop (search_terms : list str) (max_tables : Z)
  (all_tables : list str) (found : list table_result)
  : list table_result * list event :=
  match all_tables with
  | [] => (found, [])
  | table_name :: rest =>
      if Z.of_nat (length found) >=? max_tables then (found, [])
      else
        let '(o, tr) := try_pass (scan_table search_terms table_name) in
        let '(res, tr') :=
          search_loop search_terms max_tables rest (append_found found o) in
        (res, tr ++ tr')
  end.

Definition search_all_tables (search_term : str) (max_tables : Z)
  : M (list table_result) :=
  let search_terms := Py.split search_term in
  all_tables <- call GetTableNames (get_table_names st) ;;
  let '(found, tr) := search_loop search_terms max_tables all_tables [] in
  (Some found, tr).

(** search_person.py: the same body for every table, without a budget. *)
Fixpoint search_person_loop (search_terms : list str)
  (all_tables : list str) (found : list table_result)
  : list table_result * list event :=
  match all_tables with
  | [] => (found, [])
  | table_name :: rest =>
      let '(o, tr) := try_pass (scan_table search_terms table_name) in
      let '(res, tr') :=
        search_person_loop search_terms rest (append_found found o) in
      (res, tr ++ tr')
  end.

Definition search_person (search_name : str) : M (list table_result) :=
  let search_terms := Py.split search_name in
  all_tables <- call GetTableNames (get_table_names st) ;;
  let '(found, tr) := search_person_loop search_terms all_tables [] in
  (Some found, tr).

End Search.

(** The loop seen only through what each table leaves behind. *)
Fixpoint collect (max_tables : Z) (outs : list (option table_result))
  (found : list table_result) : list table_result :=
  match outs with
  | [] => found
  | o :: rest =>
      if Z.of_nat (length found) >=? max_tables then found
      else collect max_tables rest (append_found found o)
  end.

(** A computation that ended in an exception. *)
Definition raises {A} (m : M A) : Prop := fst m = None.

(** ** combine_results *)

Definition tag_record (table_name : str) (record : dict) : dict :=
  dict_set "_source_table" (VStr table_name) record.

Definition combine_results (table_results : list table_result)
  : list dict * list str :=
  (flat_map (fun r => map (tag_record (table r)) (records r)) table_results,
   map table table_results).

(** ** introduce_person: the name taken from the first record *)

Definition name_of_first_record (first_record : dict) : value :=
  let name :=
    if dict_has "FirstName" first_record && dict_has "LastName" first_record
    then VStr (Py.strip
                 (str_of_value (dict_get_default "FirstName" (VStr "") first_record)
                  ++ " "
                  ++ str_of_value (dict_get_default "LastName" (VStr "") first_record)))
    else if dict_has "Contact" first_record
    then dict_get_default "Contact" (VStr "") first_record
    else if dict_has "Attention" first_record
    then dict_get_default "Attention" (VStr "") first_record
    else if dict_has "Name" first_record
    then dict_get_default "Name" (VStr "") first_record
    else VStr ""
  in
  if truthy name then name else VStr "Unknown".

(** [table_results[0]['records'][0]]; [None] stands for IndexError. *)
Definition first_record_of (table_results : list table_result) : option dict :=
  match table_results with
  | [] => None
  | r :: _ => match records r with [] => None | d :: _ => Some d end
  end.

(** The [name] field of the introduction.  The early return on an empty list
    answers "Unknown"; the chat call in between is not modelled. *)
Definition introduce_person_name (table_results : list table_result)
  : option value :=
  match table_results with
  | [] => Some (VStr "Unknown")
  | _ :: _ =>
      match first_record_of table_results with
      | None => None
      | Some first_record => Some (name_of_first_record first_record)
      end
  end.

(** ** query_and_introduce: the term handed to the search *)

(** [question.split()[-1] if ' ' in question else question]; [None] stands
    for IndexError. *)
Definition search_term_of (question : str) : option str :=
  if existsb (Ascii.eqb " "%char) question
  then Py.last_item (Py.split question)
  else Some question.

(** The search as [query_and_introduce] starts it. *)
Definition query_search (st : Store) (question : str) : M (list table_result) :=
  match search_term_of question with
  | None => (None, [])
  | Some search_term => search_all_tables st search_term 10
  end.

(** ** An in-memory store answering the dialect the scripts emit

    The scripts talk to SQL Server through text, handed to SQLAlchemy as
    [conn.execute(text(sql))].  [mem_store] is a store that does to this text
    what [text()] does to it, and whose engine reads what is then sent: it
    splits it into tokens, accepts [SELECT TOP n * FROM [t] WHERE ...] and
    [SELECT COUNT( * ) FROM [t] WHERE ...] with a conjunction of parenthesised
    disjunctions of [[c] LIKE 'pattern'], as dash_multitable.py and
    search_person.py write it, or with one disjunction without parentheses,
    as search_linda.py writes it, and evaluates LIKE as T-SQL does under a
    collation that ignores letter case and nothing else ([%], [_] and
    bracketed sets are wildcards).  Any other text, an unknown table and an
    unknown column are faults.  The engine reads these statements as SQL
    Server does when the names hold no closing bracket and the terms no
    quote; it is no model of T-SQL beyond them. *)

Module Engine.

(** *** text()

    SQLAlchemy reads [:name] in the text as a bind parameter: a colon that
    no colon, word character or backslash precedes, then word characters,
    then no colon (its pattern BIND_PARAMS).  The scripts pass no value, and
    executing a statement with such a parameter raises.  From the text that
    is sent it takes the backslash off an escaped colon: a backslash, a
    colon, then word characters or dollar signs as many as there are, then
    no colon (its pattern BIND_PARAMS_ESC). *)

Definition is_char (a : string) (c : ascii) : bool :=
  match lit a with [x] => Ascii.eqb x c | _ => false end.

(** A word character of Python's [re] on text, below 256: a letter, a
    digit or other number sign, or the underscore. *)
Definition is_word (c : ascii) : bool :=
  let n := Py.code c in
  ((48 <=? n) && (n <=? 57) || (65 <=? n) && (n <=? 90) || (n =? 95)
   || (97 <=? n) && (n <=? 122) || (n =? 170) || (178 <=? n) && (n <=? 179)
   || (n =? 181) || (185 <=? n) && (n <=? 186) || (188 <=? n) && (n <=? 190)
   || (192 <=? n) && (n <=? 214) || (216 <=? n) && (n <=? 246)
   || (248 <=? n))%N.

Definition backslash : ascii := "092"%char.

Definition is_colon (c : ascii) : bool := is_char ":" c.

Definition is_backslash (c : ascii) : bool := Ascii.eqb backslash c.

(** The lookbehind: a colon, a word character or a backslash before a colon
    keeps it from opening a parameter. *)
Definition guards (c : ascii) : bool :=
  is_colon c || is_word c || is_backslash c.

Definition head_is_colon (s : str) : bool :=
  match s with c :: _ => is_colon c | [] => false end.

(** What follows the colon of a parameter: a word character that no colon
    follows.  (Of two word characters or more, the name can stop before the
    last, so that the lookahead meets a word character.) *)
Definition opens_param (s : str) : bool :=
  match s with
  | w :: rest => is_word w && negb (head_is_colon rest)
  | [] => false
  end.

(** Whether [s] holds a parameter, [guarded] telling whether the character
    before [s] is one of the lookbehind. *)
Fixpoint bind_from (guarded : bool) (s : str) : bool :=
  match s with
  | [] => false
  | c :: s' =>
      is_colon c && negb guarded && opens_param s' || bind_from (guards c) s'
  end.

Definition has_bind_parameter (s : str) : bool := bind_from false s.

Definition is_param_char (c : ascii) : bool := is_word c || is_char "$" c.

(** [s] after its longest prefix of word characters and dollar signs. *)
Fixpoint after_name (s : str) : str :=
  match s with
  | c :: s' => if is_param_char c then after_name s' else s
  | [] => []
  end.

(** What follows a backslash that is taken off: a colon, then word
    characters and dollar signs as many as there are, with no colon after
    them. *)
Definition escaped_colon (s : str) : bool :=
  match s with
  | c :: s' => is_colon c && negb (head_is_colon (after_name s'))
  | [] => false
  end.

Fixpoint unescape (s : str) : str :=
  match s with
  | [] => []
  | c :: s' =>
      if is_backslash c && escaped_colon s' then unescape s'
      else c :: unescape s'
  end.

(** The statement that is sent; [None] is the error raised for a parameter
    without a value. *)
Definition text_clause (sql : str) : option str :=
  if has_bind_parameter sql then None else Some (unescape sql).

(** A character that is no colon, no word character, no backslash and no
    dollar sign: it ends a name, and neither opens nor guards one. *)
Definition neutral (c : ascii) : bool :=
  negb (is_colon c || is_word c || is_backslash c || is_char "$" c).

(** *** Tokens and statements *)

Inductive token :=
| TSelect | TTop | TCount | TFrom | TWhere | TAnd | TOr | TLike
| TStar | TLParen | TRParen
| TNum (n : nat)
| TIdent (name : str)
| TStr (s : str).

Inductive lex_mode :=
| LNone
| LWord (w : str)
| LNum (n : nat)
| LIdent (acc : str)
| LIdentEnd (acc : str)
| LStr (acc : str)
| LStrEnd (acc : str).

Definition is_blank (c : ascii) : bool :=
  let n := Py.code c in ((n =? 32) || (9 <=? n) && (n <=? 13))%N.

Definition is_letter (c : ascii) : bool :=
  let n := Py.code (Py.upper_char c) in ((65 <=? n) && (n <=? 90))%N.

Definition digit_of (c : ascii) : option nat :=
  let n := Py.code c in
  if ((48 <=? n) && (n <=? 57))%N then Some (N.to_nat (n - 48)) else None.

Definition keyword (w : str) : option token :=
  let u := Py.upper w in
  if str_eqb u "SELECT" then Some TSelect
  else if str_eqb u "TOP" then Some TTop
  else if str_eqb u "COUNT" then Some TCount
  else if str_eqb u "FROM" then Some TFrom
  else if str_eqb u "WHERE" then Some TWhere
  else if str_eqb u "AND" then Some TAnd
  else if str_eqb u "OR" then Some TOr
  else if str_eqb u "LIKE" then Some TLike
  else None.

(** Reading [c] with no token open. *)
Definition lex_start (c : ascii) : option (list token * lex_mode) :=
  if is_blank c then Some ([], LNone)
  else if is_char "[" c then Some ([], LIdent [])
  else if is_char "'" c then Some ([], LStr [])
  else if is_char "(" c then Some ([TLParen], LNone)
  else if is_char ")" c then Some ([TRParen], LNone)
  else if is_char "*" c then Some ([TStar], LNone)
  else if is_letter c then Some ([], LWord [c])
  else match digit_of c with
       | Some d => Some ([], LNum d)
       | None => None
       end.

(** Closing the open token with [t], then reading [c]. *)
Definition emit_then (t : token) (c : ascii) : option (list token * lex_mode) :=
  match lex_start c with
  | Some (ts, m) => Some (t :: ts, m)
  | None => None
  end.

Definition lex_step (m : lex_mode) (c : ascii)
  : option (list token * lex_mode) :=
  match m with
  | LNone => lex_start c
  | LWord w =>
      if is_letter c then Some ([], LWord (w ++ [c]))
      else match keyword w with
           | Some t => emit_then t c
           | None => None
           end
  | LNum n =>
      match digit_of c with
      | Some d => Some ([], LNum (10 * n + d)%nat)
      | None => emit_then (TNum n) c
      end
  | LIdent acc =>
      if is_char "]" c then Some ([], LIdentEnd acc)
      else Some ([], LIdent (acc ++ [c]))
  | LIdentEnd acc =>
      if is_char "]" c then Some ([], LIdent (acc ++ [c]))
      else emit_then (TIdent acc) c
  | LStr acc =>
      if is_char "'" c then Some ([], LStrEnd acc)
      else Some ([], LStr (acc ++ [c]))
  | LStrEnd acc =>
      if is_char "'" c then Some ([], LStr (acc ++ [c]))
      else emit_then (TStr acc) c
  end.

Definition lex_end (m : lex_mode) : option (list token) :=
  match m with
  | LNone => Some []
  | LWord w => option_map (fun t => [t]) (keyword w)
  | LNum n => Some [TNum n]
  | LIdent _ => None
  | LIdentEnd acc => Some [TIdent acc]
  | LStr _ => None
  | LStrEnd acc => Some [TStr acc]
  end.

(** The tokens of [s], read from mode [m] with [out] already produced. *)
Fixpoint lex_from (m : lex_mode) (out : list token) (s : str)
  : option (list token) :=
  match s with
  | [] => option_map (app out) (lex_end m)
  | c :: s' =>
      match lex_step m c with
      | None => None
      | Some (ts, m') => lex_from m' (out ++ ts) s'
      end
  end.

Definition lex (s : str) : option (list token) := lex_from LNone [] s.

(** One [[c] LIKE 'pattern']. *)
Definition atom := (str * str)%type.

Inductive query_kind := Sample (n : nat) | Count.

Record query := {
  q_kind : query_kind;
  q_table : str;
  q_where : list (list atom)
}.

(** The tokens after an opening parenthesis: the atoms of this group,
    then the groups that follow. *)
Fixpoint parse_atoms (ts : list token) : option (list (list atom)) :=
  match ts with
  | TIdent c :: TLike :: TStr p :: TOr :: rest =>
      match parse_atoms rest with
      | Some (g :: gs) => Some (((c, p) :: g) :: gs)
      | _ => None
      end
  | TIdent c :: TLike :: TStr p :: TRParen :: [] => Some [[(c, p)]]
  | TIdent c :: TLike :: TStr p :: TRParen :: TAnd :: TLParen :: rest =>
      match parse_atoms rest with
      | Some gs => Some ([(c, p)] :: gs)
      | None => None
      end
  | _ => None
  end.

(** A disjunction without parentheses, up to the end of the statement. *)
Fixpoint parse_bare (ts : list token) : option (list atom) :=
  match ts with
  | TIdent c :: TLike :: TStr p :: [] => Some [(c, p)]
  | TIdent c :: TLike :: TStr p :: TOr :: rest =>
      option_map (cons (c, p)) (parse_bare rest)
  | _ => None
  end.

Definition parse_where (ts : list token) : option (list (list atom)) :=
  match ts with
  | TLParen :: rest => parse_atoms rest
  | _ => option_map (fun g => [g]) (parse_bare ts)
  end.

Definition parse (ts : list token) : option query :=
  match ts with
  | TSelect :: TTop :: TNum n :: TStar :: TFrom :: TIdent t :: TWhere :: w =>
      option_map (fun g => {| q_kind := Sample n; q_table := t; q_where := g |})
                 (parse_where w)
  | TSelect :: TCount :: TLParen :: TStar :: TRParen
      :: TFrom :: TIdent t :: TWhere :: w =>
      option_map (fun g => {| q_kind := Count; q_table := t; q_where := g |})
                 (parse_where w)
  | _ => None
  end.

(** *** LIKE *)

Inductive pelem :=
| PAny
| POne
| PChar (c : ascii)
| PSet (negated : bool) (ranges : list (ascii * ascii)).

Fixpoint ranges_of (s : str) : list (ascii * ascii) :=
  match s with
  | [] => []
  | a :: s' =>
      match s' with
      | dash :: b :: s'' =>
          if is_char "-" dash then (a, b) :: ranges_of s''
          else (a, a) :: ranges_of s'
      | _ => (a, a) :: ranges_of s'
      end
  end.

Definition set_of (body : str) : pelem :=
  match body with
  | c :: body' =>
      if is_char "^" c then PSet true (ranges_of body')
      else PSet false (ranges_of body)
  | [] => PSet false []
  end.

(** The elements of a pattern; [open] holds the body of a set whose
    closing bracket has not been read.  A set left open matches nothing. *)
Fixpoint pattern_from (open : option str) (s : str) : option (list pelem) :=
  match s with
  | [] => match open with None => Some [] | Some _ => None end
  | c :: s' =>
      match open with
      | Some body =>
          if is_char "]" c
          then option_map (cons (set_of body)) (pattern_from None s')
          else pattern_from (Some (body ++ [c])) s'
      | None =>
          if is_char "%" c then option_map (cons PAny) (pattern_from None s')
          else if is_char "_" c then option_map (cons POne) (pattern_from None s')
          else if is_char "[" c then pattern_from (Some []) s'
          else option_map (cons (PChar c)) (pattern_from None s')
      end
  end.

Definition ci_eqb (a b : ascii) : bool :=
  Ascii.eqb (Py.lower_char a) (Py.lower_char b).

Definition in_range (c : ascii) (r : ascii * ascii) : bool :=
  let n := Py.code (Py.lower_char c) in
  ((Py.code (Py.lower_char (fst r)) <=? n)
   && (n <=? Py.code (Py.lower_char (snd r))))%N.

Definition elem_ok (e : pelem) (c : ascii) : bool :=
  match e with
  | PAny => true
  | POne => true
  | PChar a => ci_eqb a c
  | PSet negated ranges => xorb negated (existsb (in_range c) ranges)
  end.

Fixpoint like_elems (p : list pelem) : str -> bool :=
  match p with
  | [] => fun s => match s with [] => true | _ :: _ => false end
  | PAny :: p' =>
      fix any (s : str) : bool :=
        like_elems p' s
        || match s with [] => false | _ :: s' => any s' end
  | e :: p' =>
      fun s =>
        match s with
        | [] => false
        | c :: s' => elem_ok e c && like_elems p' s'
        end
  end.

Definition like (pattern s : str) : bool :=
  match pattern_from None pattern with
  | Some p => like_elems p s
  | None => false
  end.

(** *** Tables and evaluation *)

Record mem_table := {
  mt_name : str;
  mt_columns : list column;
  mt_rows : list (list value)
}.

Definition database := list mem_table.

Fixpoint find_table (name : str) (db : database) : option mem_table :=
  match db with
  | [] => None
  | t :: db' => if str_eqb name (mt_name t) then Some t else find_table name db'
  end.

(** The value a row holds in column [c]. *)
Fixpoint field (names : list str) (row : list value) (c : str) : option value :=
  match names, row with
  | n :: names', v :: row' => if str_eqb c n then Some v else field names' row' c
  | _, _ => None
  end.

(** LIKE on NULL is not true. *)
Definition atom_holds (names : list str) (row : list value) (a : atom) : bool :=
  match field names row (fst a) with
  | Some (VStr s) => like (snd a) s
  | _ => false
  end.

Definition row_matches (names : list str) (groups : list (list atom))
  (row : list value) : bool :=
  forallb (existsb (atom_holds names row)) groups.

Definition columns_known (names : list str) (groups : list (list atom)) : bool :=
  forallb (forallb (fun a : atom => existsb (str_eqb (fst a)) names)) groups.

Definition run_query (db : database) (q : query) : option result :=
  match find_table (q_table q) db with
  | None => None
  | Some t =>
      let names := map col_name (mt_columns t) in
      if columns_known names (q_where q) then
        let hits := filter (row_matches names (q_where q)) (mt_rows t) in
        match q_kind q with
        | Sample n => Some {| keys := names; fetchall := firstn n hits |}
        | Count =>
            Some {| keys := [[] : str];
                    fetchall := [[VInt (Z.of_nat (length hits))]] |}
        end
      else None
  end.

(** The engine on the statement it is sent. *)
Definition run_sql (db : database) (statement : str) : option result :=
  match lex statement with
  | None => None
  | Some ts =>
      match parse ts with
      | None => None
      | Some q => run_query db q
      end
  end.

(** [conn.execute(text(sql))] with [fetchall] and [keys]. *)
Definition mem_execute (db : database) (sql : str) : option result :=
  match text_clause sql with
  | None => None
  | Some statement => run_sql db statement
  end.

Definition mem_store (db : database) : Store :=
  {| get_table_names := Some (map mt_name db);
     get_columns := fun t => option_map mt_columns (find_table t db);
     execute := mem_execute db |}.

End Engine.

(** ** Reading the statements back

    The tokens and the parsed predicate of the text that [where_clause]
    builds, and the names and terms for which the text is read back as it
    was meant. *)

Module Reading.
Import Engine.

Definition atom_of (term col : str) : atom := (col, "%" ++ term ++ "%").

Definition where_groups (string_cols search_terms : list str)
  : list (list atom) :=
  map (fun term => map (atom_of term) string_cols) search_terms.

Definition atom_tokens (a : atom) : list token :=
  [TIdent (fst a); TLike; TStr (snd a)].

Fixpoint atoms_tokens (g : list atom) : list token :=
  match g with
  | [] => []
  | [a] => atom_tokens a
  | a :: g' => atom_tokens a ++ TOr :: atoms_tokens g'
  end.

Fixpoint groups_tokens (gs : list (list atom)) : list token :=
  match gs with
  | [] => []
  | [g] => TLParen :: atoms_tokens g ++ [TRParen]
  | g :: gs' => TLParen :: atoms_tokens g ++ TRParen :: TAnd :: groups_tokens gs'
  end.

Arguments atoms_tokens : simpl never.
Arguments groups_tokens : simpl never.

(** A name that bracket quoting leaves intact. *)
Definition plain_name (name : str) : bool :=
  negb (existsb (is_char "]") name).

(** A term without a LIKE wildcard and without a quote. *)
Definition plain_term (term : str) : bool :=
  negb (existsb (fun c => is_char "%" c || is_char "_" c
                          || is_char "[" c || is_char "'" c) term).

Fixpoint distinct (names : list str) : bool :=
  match names with
  | [] => true
  | n :: names' => negb (existsb (str_eqb n) names') && distinct names'
  end.

Definition wf_table (t : mem_table) : bool :=
  plain_name (mt_name t)
  && forallb plain_name (map col_name (mt_columns t))
  && distinct (map col_name (mt_columns t)).

Definition wf_database (db : database) : bool := forallb wf_table db.

(** A name or a term in which no backslash stands before a colon: [text()]
    takes nothing off it. *)
Definition verbatim (s : str) : bool :=
  negb (Py.contains [backslash; ":"%char] s).

(** A name or a term without a colon: [text()] finds no parameter in it and
    takes nothing off it. *)
Definition colon_free (s : str) : bool := negb (existsb is_colon s).

(** The names a table brings into a statement. *)
Definition names_of (t : mem_table) : list str :=
  mt_name t :: map col_name (mt_columns t).

Definition verbatim_database (db : database) : bool :=
  forallb (fun t => forallb verbatim (names_of t)) db.

Definition colon_free_database (db : database) : bool :=
  forallb (fun t => forallb colon_free (names_of t)) db.

(** Whether a column name or a term brings a parameter into the predicate. *)
Definition where_binds (string_cols search_terms : list str) : bool :=
  existsb (fun term =>
             existsb (fun col => has_bind_parameter col
                                 || has_bind_parameter term)
                     string_cols)
          search_terms.

End Reading.

(** [term.lower() in str(val).lower()]: the test search_person.py applies to
    the values it prints. *)
Definition value_contains (term : str) (v : value) : bool :=
  Py.contains (Py.lower term) (Py.lower (str_of_value v)).

(** ** Sample stores *)

Module Samples.
Import Engine.

(** One table, [Contacts], with a text and a number column. *)
Definition contacts_db : database :=
  [ {| mt_name := "Contacts";
       mt_columns := [ {| col_name := "FirstName"; col_type := "VARCHAR(50)" |};
                       {| col_name := "Age"; col_type := "INTEGER" |} ];
       mt_rows := [ [VStr "Linda"; VInt 40] ] |} ].

Definition people_db : database :=
  [ {| mt_name := "People";
       mt_columns := [ {| col_name := "FirstName"; col_type := "NVARCHAR(50)" |};
                       {| col_name := "LastName"; col_type := "NVARCHAR(50)" |} ];
       mt_rows := [ [VStr "Mark"; VStr "Jones"];
                    [VStr "Mark"; VStr "Elinski"];
                    [VStr "Ann"; VStr "MARKHAM elinski"] ] |} ].

(** The table of P6: one row, Mark Jones. *)
Definition jones_db : database :=
  [ {| mt_name := "People";
       mt_columns := [ {| col_name := "FirstName"; col_type := "NVARCHAR(50)" |};
                       {| col_name := "LastName"; col_type := "NVARCHAR(50)" |} ];
       mt_rows := [ [VStr "Mark"; VStr "Jones"] ] |} ].

(** A table one of whose column names closes its own bracket. *)
Definition bracket_db : database :=
  [ {| mt_name := "Notes";
       mt_columns := [ {| col_name := "a"; col_type := "VARCHAR(10)" |};
                       {| col_name := "a] LIKE '%' OR [a";
                          col_type := "VARCHAR(10)" |} ];
       mt_rows := [ [VStr "Linda"; VStr "Smith"] ] |} ].

(** Two tables that both hold a Mark; the later one holds more of them. *)
Definition two_tables_db : database :=
  {| mt_name := "Staff";
     mt_columns := [ {| col_name := "Name"; col_type := "CHAR(20)" |} ];
     mt_rows := [ [VStr "Mark Jones"] ] |}
  :: people_db.

(** A table without any text column, between two that have one. *)
Definition numbers_db : database :=
  [ {| mt_name := "Readings";
       mt_columns := [ {| col_name := "Id"; col_type := "INTEGER" |};
                       {| col_name := "Mark"; col_type := "DECIMAL(10, 2)" |} ];
       mt_rows := [ [VInt 1; VInt 7] ] |} ]
  ++ people_db.

(** [st] with every statement for which [broken] holds raising. *)
Definition faulting (broken : str -> bool) (st : Store) : Store :=
  {| get_table_names := get_table_names st;
     get_columns := get_columns st;
     execute := fun sql => if broken sql then None else execute st sql |}.

(** [two_tables_db] with [Staff] out of reach. *)
Definition staff_locked : Store :=
  faulting (Py.contains "[Staff]") (mem_store two_tables_db).

(** [two_tables_db] with [Staff] emptied. *)
Definition staff_empty : Store :=
  mem_store
    ({| mt_name := "Staff";
        mt_columns := [ {| col_name := "Name"; col_type := "CHAR(20)" |} ];
        mt_rows := [] |}
     :: people_db).

(** [contacts_db] with every count raising. *)
Definition count_fails : Store :=
  faulting (Py.startswith "SELECT COUNT") (mem_store contacts_db).

(** A contact whose position is NULL. *)
Definition contact_db : database :=
  [ {| mt_name := "J_CustomerContact";
       mt_columns := [ {| col_name := "FirstName"; col_type := "NVARCHAR(50)" |};
                       {| col_name := "Position"; col_type := "NVARCHAR(50)" |} ];
       mt_rows := [ [VStr "Linda"; VNone] ] |} ].

(** Notes that hold a colon. *)
Definition notes_db : database :=
  [ {| mt_name := "Notes";
       mt_columns := [ {| col_name := "Body"; col_type := "VARCHAR(80)" |} ];
       mt_rows := [ [VStr "ratio a:b"]; [VStr "ask :Linda"] ] |} ].

(** The term [a], backslash, colon, [b]. *)
Definition escaped_term : str := "a" ++ backslash :: ":b".

(** A table with a Linda, one without a text column, one without a Linda. *)
Definition linda_db : database := contacts_db ++ numbers_db.

(** Eleven rows that all hold the same name. *)
Definition crowd_db : database :=
  [ {| mt_name := "Crowd";
       mt_columns := [ {| col_name := "Name"; col_type := "TEXT" |} ];
       mt_rows := repeat [VStr "Linda"] 11 |} ].

End Samples.

(** ** The answer as the matches of the catalog *)

(** The entries among what the tables leave behind, in order. *)
Fixpoint entries (outs : list (option table_result)) : list table_result :=
  match outs with
  | [] => []
  | Some m :: rest => m :: entries rest
  | None :: rest => entries rest
  end.

(** A table whose scan leaves an entry behind. *)
Definition matching (st : Store) (search_terms : list str) (t : str) : bool :=
  match outcome st search_terms t with Some _ => true | None => false end.

(** The calls one iteration of the loop makes. *)
Definition calls_for (st : Store) (search_terms : list str) (t : str)
  : list event :=
  snd (try_pass (scan_table st search_terms t)).

(** ** What a search is expected to find

    Containment, letter case aside, of every term in some text column of a
    row, stated on the rows themselves: the entry a table should give. *)

Definition field_contains (names : list str) (row : list value)
  (term c : str) : bool :=
  match Engine.field names row c with
  | Some (VStr s) => Py.contains (Py.lower term) (Py.lower s)
  | _ => false
  end.

Definition row_has_terms (names string_cols search_terms : list str)
  (row : list value) : bool :=
  forallb (fun term => existsb (field_contains names row term) string_cols)
          search_terms.

Definition expected_entry (search_terms : list str) (tb : Engine.mem_table)
  : option table_result :=
  let names := map col_name (Engine.mt_columns tb) in
  let string_cols := string_columns (Engine.mt_columns tb) in
  match string_cols with
  | [] => None
  | _ :: _ =>
      let hits :=
        filter (row_has_terms names string_cols search_terms)
               (Engine.mt_rows tb) in
      match hits with
      | [] => None
      | _ :: _ =>
          Some {| table := Engine.mt_name tb;
                  count := VInt (Z.of_nat (length hits));
                  columns := names;
                  records := map (dict_zip names) (firstn 10 hits) |}
      end
  end.

Definition expected_for (db : Engine.database) (search_terms : list str)
  (t : str) : option table_result :=
  match Engine.find_table t db with
  | Some tb => expected_entry search_terms tb
  | None => None
  end.

(** The number a count holds, zero when it is not a number. *)
Definition count_of (m : table_result) : Z :=
  match count m with VInt z => z | _ => 0 end.

(** ** introduce_person and query_and_introduce in full

    The two pydantic models declare their fields as [str] and as lists of
    [str]: a field that is handed [None] or a number is refused, and building
    the model raises.  The chat model is a function of the question and the
    entries its prompt is built from, [None] when the call raises.  The prints
    are left out. *)

Module Intro.

Record PersonIntroduction := {
  name : str;
  role_title : str;
  company : str;
  contact_info : str;
  relationship : str;
  summary : str;
  data_sources : list str
}.

Record SqlResponse := {
  thinking : str;
  tables_to_query : list str;
  sql_query : str;
  explanation : str
}.

(** [a or b]. *)
Definition py_or (a b : value) : value := if truthy a then a else b.

(** [record.get(k)]. *)
Definition get (k : str) (record : dict) : value :=
  dict_get_default k VNone record.

(** [v in l] for a list of strings: only a string equals a string. *)
Definition value_in (v : value) (l : list str) : bool :=
  match v with
  | VStr s => existsb (str_eqb s) l
  | _ => false
  end.

(** [str(n)] for a length. *)
Definition str_of_nat (n : nat) : str := str_of_value (VInt (Z.of_nat n)).

Definition record_email (record : dict) : value :=
  py_or (py_or (get "EmailAddress" record) (get "EMail_Address" record))
        (get "Email" record).

Definition record_phone (record : dict) : value :=
  py_or (py_or (get "PhoneNumber" record) (get "Phone" record))
        (get "MobilePhone" record).

(** [if v := ...: if v and v not in seen: seen.append(str(v))]. *)
Definition add_contact (v : value) (seen : list str) : list str :=
  if truthy v && negb (value_in v seen) then seen ++ [str_of_value v]
  else seen.

Definition contact_step (lists : list str * list str) (record : dict)
  : list str * list str :=
  (add_contact (record_email record) (fst lists),
   add_contact (record_phone record) (snd lists)).

(** The two nested loops over the entries and their records. *)
Definition collect_contacts (table_results : list table_result)
  : list str * list str :=
  fold_left (fun lists result => fold_left contact_step (records result) lists)
            table_results ([], []).

(** [', '.join(l[:2]) if l else 'N/A']. *)
Definition shown_contacts (l : list str) : str :=
  match l with
  | [] => "N/A"
  | _ :: _ => Py.join ", " (firstn 2 l)
  end.

Definition contact_info_of (emails phones : list str) : str :=
  "Email: " ++ shown_contacts emails ++ ", Phone: " ++ shown_contacts phones.

(** [sum(r['count'] for r in table_results)], from [acc]; [None] stands
    for the TypeError of adding a value that is not a number. *)
Fixpoint sum_counts (acc : Z) (table_results : list table_result) : option Z :=
  match table_results with
  | [] => Some acc
  | r :: rest =>
      match count r with
      | VInt z => sum_counts (acc + z) rest
      | _ => None
      end
  end.

(** A [str] field of a model: a string is taken as it is; [None] stands for
    the ValidationError that anything else raises. *)
Definition as_str (v : value) : option str :=
  match v with
  | VStr s => Some s
  | _ => None
  end.

(** [first_record.get('Position', first_record.get('Title', 'Not specified'))]. *)
Definition role_title_of (first_record : dict) : value :=
  dict_get_default "Position"
    (dict_get_default "Title" (VStr "Not specified") first_record)
    first_record.

(** [first_record.get('CustomerName', 'Associated organization')]. *)
Definition company_of (first_record : dict) : value :=
  dict_get_default "CustomerName" (VStr "Associated organization") first_record.

Definition not_found : PersonIntroduction :=
  {| name := "Unknown";
     role_title := "Not found";
     company := "N/A";
     contact_info := "No records found";
     relationship := "Unknown";
     summary := "No records found in the database for this person.";
     data_sources := [] |}.

Section Chat.

Variable chat : str -> list table_result -> option str.

(** [None] is a raised exception. *)
Definition introduce_person (question : str) (table_results : list table_result)
  : option PersonIntroduction :=
  match table_results with
  | [] => Some not_found
  | _ :: _ =>
      let '(all_records, table_names) := combine_results table_results in
      match sum_counts 0 table_results with
      | None => None
      | Some _ =>
          match chat question table_results with
          | None => None
          | Some intro_text =>
              match first_record_of table_results with
              | None => None
              | Some first_record =>
                  let '(emails, phones) := collect_contacts table_results in
                  match as_str (name_of_first_record first_record),
                        as_str (role_title_of first_record),
                        as_str (company_of first_record) with
                  | Some name, Some role_title, Some company =>
                      Some {| name := name;
                              role_title := role_title;
                              company := company;
                              contact_info := contact_info_of emails phones;
                              relationship :=
                                "Found in " ++ str_of_nat (length table_results)
                                ++ " system(s)";
                              summary := intro_text;
                              data_sources := table_names |}
                  | _, _, _ => None
                  end
              end
          end
      end
  end.

(** What [query_and_introduce] returns: [(None, None, None)] or the three
    results. *)
Inductive answer :=
| NoResults
| Introduced (sql_response : SqlResponse) (all_records : list dict)
    (introduction : PersonIntroduction).

Definition newline : str := ["010"%char].

Definition query_and_introduce (st : Store) (question : str) : M answer :=
  match search_term_of question with
  | None => (None, [])
  | Some search_term =>
      table_results <- search_all_tables st search_term 10 ;;
      match table_results with
      | [] => ret NoResults
      | _ :: _ =>
          let '(all_records, table_names) := combine_results table_results in
          match introduce_person question table_results with
          | None => (None, [])
          | Some introduction =>
              ret (Introduced
                     {| thinking :=
                          "Searching across all database tables for '"
                          ++ search_term ++ "'";
                        tables_to_query := table_names;
                        sql_query :=
                          "-- Multi-table search across "
                          ++ str_of_nat (length table_names) ++ " tables"
                          ++ newline ++ "-- Search term: " ++ search_term
                          ++ newline ++ "-- Found "
                          ++ str_of_nat (length all_records)
                          ++ " total records";
                        explanation :=
                          "Searched " ++ str_of_nat (length table_names)
                          ++ " tables and found "
                          ++ str_of_nat (length all_records)
                          ++ " matching records" |}
                     all_records introduction)
          end
      end
  end.

End Chat.

End Intro.

(** Entries for the contacts of an introduction. *)
Module Contacts.

(** The same e-mail twice; a phone once, as text. *)
Definition same_email : list table_result :=
  [ {| table := "J_CustomerContact";
       count := VInt 2;
       columns := ["EmailAddress" : str; "PhoneNumber" : str];
       records := [ [("EmailAddress" : str, VStr "linda@example.com");
                     ("PhoneNumber" : str, VNone)];
                    [("EmailAddress" : str, VStr "linda@example.com");
                     ("PhoneNumber" : str, VStr "555-0100")] ] |} ].

(** The same phone twice, as a number. *)
Definition same_number : list table_result :=
  [ {| table := "J_CustomerContact";
       count := VInt 2;
       columns := ["PhoneNumber" : str];
       records := [ [("PhoneNumber" : str, VInt 5550100)];
                    [("PhoneNumber" : str, VInt 5550100)] ] |} ].

End Contacts.

(** ** The name in the sibling scripts *)

Module Siblings.

(** dash_query.py, [generate_introduction]: the [if]/[elif] chain it shares
    with dash_multitable.py, before any default. *)
Definition name_chain (first_record : dict) : value :=
  if dict_has "FirstName" first_record && dict_has "LastName" first_record
  then VStr (Py.strip
               (str_of_value (dict_get_default "FirstName" (VStr "") first_record)
                ++ " "
                ++ str_of_value (dict_get_default "LastName" (VStr "") first_record)))
  else if dict_has "Contact" first_record
  then dict_get_default "Contact" (VStr "") first_record
  else if dict_has "Attention" first_record
  then dict_get_default "Attention" (VStr "") first_record
  else if dict_has "Name" first_record
  then dict_get_default "Name" (VStr "") first_record
  else VStr "".

(** ['name' in key.lower() and val]. *)
Definition names_something (kv : str * value) : bool :=
  Py.contains "name" (Py.lower (fst kv)) && truthy (snd kv).

(** dash_query.py: the chain, then the first truthy field whose key holds
    "name", then the default. *)
Definition generate_introduction_name (first_record : dict) : value :=
  let name := name_chain first_record in
  let name :=
    if truthy name then name
    else match find names_something first_record with
         | Some kv => VStr (str_of_value (snd kv))
         | None => name
         end in
  if truthy name then name else VStr "Unknown".

(** dash_structured.py, [introduce_person]: first and last name whatever
    keys there are, then Contact, then Attention; no default after that. *)
Definition structured_name (first_record : dict) : value :=
  let name :=
    VStr (Py.strip
            (str_of_value (dict_get_default "FirstName" (VStr "") first_record)
             ++ " "
             ++ str_of_value (dict_get_default "LastName" (VStr "") first_record))) in
  if truthy name then name
  else dict_get_default "Contact"
         (dict_get_default "Attention" (VStr "Unknown") first_record)
         first_record.

End Siblings.

(** ** main.py, execute: the statement taken from the answer of the agent *)

Module Api.

(** [s.split(sep)] for a separator that is not empty: [skip] characters of
    a separator just found are still to be passed over, [cur] is the part
    being read. *)
Fixpoint split_on (sep : str) (skip : nat) (cur : str) (s : str) : list str :=
  match s with
  | [] => [cur]
  | c :: s' =>
      match skip with
      | S k => split_on sep k cur s'
      | O =>
          if Py.startswith sep s
          then cur :: split_on sep (length sep - 1) [] s'
          else split_on sep 0 (cur ++ [c]) s'
      end
  end.

Definition split_sep (sep s : str) : list str := split_on sep 0 [] s.

Definition fence : str := "```".
Definition sql_fence : str := "```sql".

(** The value of [sql] after the [if]: [None] when no block is found. *)
Definition extract_sql (response_text : str) : option str :=
  if Py.contains sql_fence response_text then
    let parts := split_sep sql_fence response_text in
    if (1 <? length parts)%nat then
      match nth_error parts 1 with
      | Some part =>
          match split_sep fence part with
          | block :: _ => Some (Py.strip block)
          | [] => None
          end
      | None => None
      end
    else None
  else None.

(** A text without a backtick. *)
Definition tickless (s : str) : bool :=
  negb (existsb (Ascii.eqb "`"%char) s).

End Api.

(** ** search_person.py: what is printed of a record *)

(** The fields of a record that are printed: those with a truthy value
    whose text contains one of the terms, letter case aside. *)
Definition shown_fields (search_terms : list str) (record : dict) : dict :=
  filter (fun kv => truthy (snd kv)
                    && existsb (fun term => value_contains term (snd kv))
                         search_terms)
         record.

(** [result['records'][:3]]. *)
Definition shown_records (r : table_result) : list dict :=
  firstn 3 (records r).

(** ** search_linda.py *)

Module Linda.

(** An entry of [results_summary]. *)
Record summary_entry := {
  s_table : str;
  s_count : value;
  s_string_columns : str
}.

(** A value of [detailed_results]. *)
Record detail := {
  d_columns : list str;
  d_rows : list dict
}.

(** [detailed_results], a dict keyed by table name, in insertion order. *)
Definition details := list (str * detail).

Fixpoint details_set (k : str) (v : detail) (d : details) : details :=
  match d with
  | [] => [(k, v)]
  | (k', v') :: d' =>
      if str_eqb k k' then (k', v) :: d' else (k', v') :: details_set k v d'
  end.

Fixpoint details_get (k : str) (d : details) : option detail :=
  match d with
  | [] => None
  | (k', v) :: d' => if str_eqb k k' then Some v else details_get k d'
  end.

(** [" OR ".join([f"[{col}] LIKE '%Linda%'" for col in string_cols])]. *)
Definition conditions (string_cols : list str) : str :=
  Py.join " OR " (map (fun col => "[" ++ col ++ "] LIKE '%Linda%'") string_cols).

Definition select_sql (table_name conds : str) : str :=
  "SELECT TOP 5 * FROM [" ++ table_name ++ "] WHERE " ++ conds.

Definition count_sql (table_name conds : str) : str :=
  "SELECT COUNT(*) FROM [" ++ table_name ++ "] WHERE " ++ conds.

Section Loop.

Variable st : Store.

(** The body of the [try] for one table: what it adds to the summary and
    to the details, if anything. *)
Definition scan_table (table_name : str)
  : M (option (summary_entry * detail)) :=
  cols <- call (GetColumns table_name) (get_columns st table_name) ;;
  let string_cols := string_columns cols in
  match string_cols with
  | [] => ret None
  | _ :: _ =>
      let conds := conditions string_cols in
      let sql := select_sql table_name conds in
      res <- call (Execute sql) (execute st sql) ;;
      let rows := fetchall res in
      match rows with
      | [] => ret None
      | _ :: _ =>
          let csql := count_sql table_name conds in
          cres <- call (Execute csql) (execute st csql) ;;
          let total_count := scalar cres in
          let col_names := keys res in
          ret (Some ({| s_table := table_name;
                        s_count := total_count;
                        s_string_columns :=
                          Py.join ", " (firstn 5 string_cols) |},
                     {| d_columns := col_names;
                        d_rows := map (dict_zip col_names) rows |}))
      end
  end.

Definition add_result (table_name : str)
  (state : list summary_entry * details)
  (o : option (summary_entry * detail)) : list summary_entry * details :=
  match o with
  | Some (s, d) => (fst state ++ [s], details_set table_name d (snd state))
  | None => state
  end.

Fixpoint search_loop (all_tables : list str)
  (state : list summary_entry * details)
  : (list summary_entry * details) * list event :=
  match all_tables with
  | [] => (state, [])
  | table_name :: rest =>
      let '(o, tr) := try_pass (scan_table table_name) in
      let '(res, tr') := search_loop rest (add_result table_name state o) in
      (res, tr ++ tr')
  end.

(** The script up to its report: [results_summary] and [detailed_results]. *)
Definition search_linda : M (list summary_entry * details) :=
  all_tables <- call GetTableNames (get_table_names st) ;;
  let '(state, tr) := search_loop all_tables ([], []) in
  (Some state, tr).

End Loop.

End Linda.

(** What the loop keeps true of the summary and the details, [seen] being
    the tables gone through. *)
Definition linda_inv (seen : list str)
  (state : list Linda.summary_entry * Linda.details) : Prop :=
  (forall t, In t (map Linda.s_table (fst state))
             <-> Linda.details_get t (snd state) <> None)
  /\ (forall t d, Linda.details_get t (snd state) = Some d ->
                  In t seen /\ Linda.d_rows d <> [])
  /\ (length (fst state) <= length seen)%nat
  /\ (NoDup seen -> map fst (snd state) = map Linda.s_table (fst state)).

(** * Properties *)

Import Engine Reading Samples.

(** ** Strings *)

Lemma str_eqb_eq (a b : str) : str_eqb a b = true <-> a = b.
Proof.
  unfold str_eqb. destruct (list_eq_dec ascii_dec a b); split; congruence.
Qed.

Lemma str_eqb_refl (a : str) : str_eqb a a = true.
Proof. now apply str_eqb_eq. Qed.

Lemma str_eqb_neq (a b : str) : str_eqb a b = false <-> a <> b.
Proof.
  unfold str_eqb. destruct (list_eq_dec ascii_dec a b); split; congruence.
Qed.

Lemma startswith_app (p post : str) : Py.startswith p (p ++ post) = true.
Proof.
  induction p as [|a p IH]; simpl; [reflexivity|].
  now rewrite Ascii.eqb_refl.
Qed.

Lemma startswith_inv (p s : str) :
  Py.startswith p s = true -> exists post, s = p ++ post.
Proof.
  revert s. induction p as [|a p IH]; intros s H.
  - now exists s.
  - destruct s as [|b s]; simpl in H; [discriminate|].
    apply andb_true_iff in H as [Hab Hrest].
    apply Ascii.eqb_eq in Hab. subst b.
    destruct (IH _ Hrest) as [post ->]. now exists post.
Qed.

Lemma contains_app (sub pre post : str) :
  Py.contains sub (pre ++ sub ++ post) = true.
Proof.
  induction pre as [|c pre IH].
  - simpl app. destruct (sub ++ post) eqn:E; simpl;
      rewrite <- E, startswith_app; reflexivity.
  - simpl. rewrite IH. apply orb_true_r.
Qed.

Lemma contains_inv (sub s : str) :
  Py.contains sub s = true -> exists pre post, s = pre ++ sub ++ post.
Proof.
  induction s as [|c s IH]; simpl; intros H.
  - rewrite orb_false_r in H. destruct (startswith_inv _ _ H) as [post ->].
    now exists [], post.
  - apply orb_true_iff in H as [H|H].
    + destruct (startswith_inv _ _ H) as [post ->]. now exists [], post.
    + destruct (IH H) as (pre & post & ->). now exists (c :: pre), post.
Qed.

Lemma join_cons2 (sep p q : str) (rest : list str) :
  Py.join sep (p :: q :: rest) = p ++ sep ++ Py.join sep (q :: rest).
Proof. reflexivity. Qed.

Lemma join_split (sep x : str) (before after : list str) :
  exists pre post, Py.join sep (before ++ x :: after) = pre ++ x ++ post.
Proof.
  induction before as [|b before IH].
  - destruct after as [|a after].
    + exists [], []. simpl. now rewrite app_nil_r.
    + exists [], (sep ++ Py.join sep (a :: after)). reflexivity.
  - destruct IH as (pre & post & E).
    exists (b ++ sep ++ pre), post.
    destruct before; simpl app in *; rewrite join_cons2, E;
      now rewrite <- !app_assoc.
Qed.

Lemma geb_false (a b : Z) : (a >=? b) = false -> a < b.
Proof. rewrite Z.geb_leb. apply Z.leb_gt. Qed.

Lemma geb_true (a b : Z) : (a >=? b) = true -> b <= a.
Proof. rewrite Z.geb_leb. apply Z.leb_le. Qed.

(** ** The scan loop *)

Section Loop.

Variable st : Store.
Variable search_terms : list str.
Variable max_tables : Z.

Lemma search_loop_collect (tables : list str) (found : list table_result) :
  fst (search_loop st search_terms max_tables tables found)
  = collect max_tables (map (outcome st search_terms) tables) found.
Proof.
  revert found. induction tables as [|t tables IH]; intros found; simpl.
  - reflexivity.
  - destruct (Z.of_nat (length found) >=? max_tables); [reflexivity|].
    unfold outcome.
    destruct (try_pass (scan_table st search_terms t)) as [o tr]. simpl.
    specialize (IH (append_found found o)).
    destruct (search_loop st search_terms max_tables tables
                (append_found found o)) as [res tr'].
    exact IH.
Qed.

Lemma collect_length (outs : list (option table_result))
  (found : list table_result) :
  Z.of_nat (length found) <= max_tables ->
  Z.of_nat (length (collect max_tables outs found)) <= max_tables.
Proof.
  revert found. induction outs as [|o outs IH]; intros found H; simpl.
  - exact H.
  - destruct (Z.of_nat (length found) >=? max_tables) eqn:E; [exact H|].
    apply IH. destruct o as [m|]; simpl; [|exact H].
    rewrite length_app. simpl. apply geb_false in E. lia.
Qed.

Lemma collect_In (outs : list (option table_result))
  (found : list table_result) (m : table_result) :
  In m (collect max_tables outs found) -> In m found \/ In (Some m) outs.
Proof.
  revert found. induction outs as [|o outs IH]; intros found H; simpl in *.
  - now left.
  - destruct (Z.of_nat (length found) >=? max_tables); [now left|].
    destruct (IH _ H) as [Hf|Ho]; [|now right; right].
    destruct o as [m'|]; simpl in Hf; [|now left].
    apply in_app_iff in Hf as [Hf|[->|[]]]; [now left|now right; left].
Qed.

Lemma collect_all_none (outs : list (option table_result))
  (found : list table_result) :
  Forall (fun o => o = None) outs -> collect max_tables outs found = found.
Proof.
  intros H. revert found.
  induction H as [|o outs Ho _ IH]; intros found; simpl; [reflexivity|].
  subst o. simpl. rewrite IH. now destruct (_ >=? _).
Qed.

Lemma collect_skip (pre post : list (option table_result))
  (found : list table_result) :
  Forall (fun o => o = None) pre ->
  collect max_tables (pre ++ post) found = collect max_tables post found.
Proof.
  intros H. revert found.
  induction H as [|o outs Ho _ IH]; intros found; simpl; [reflexivity|].
  subst o. simpl. rewrite IH.
  destruct (Z.of_nat (length found) >=? max_tables) eqn:E; [|reflexivity].
  destruct post; simpl; [reflexivity|]. now rewrite E.
Qed.

(** Once the budget is met on a prefix of the catalog, what follows the
    prefix adds neither an entry nor a call. *)
Lemma search_loop_stops (pre post : list str) (found : list table_result) :
  max_tables
  <= Z.of_nat (length (fst (search_loop st search_terms max_tables pre found))) ->
  search_loop st search_terms max_tables (pre ++ post) found
  = search_loop st search_terms max_tables pre found.
Proof.
  revert found. induction pre as [|t pre IH]; intros found H.
  - simpl in *. destruct post as [|u post]; simpl; [reflexivity|].
    destruct (Z.of_nat (length found) >=? max_tables) eqn:E; [reflexivity|].
    apply geb_false in E. lia.
  - simpl in *.
    destruct (Z.of_nat (length found) >=? max_tables); [reflexivity|].
    destruct (try_pass (scan_table st search_terms t)) as [o tr].
    specialize (IH (append_found found o)).
    destruct (search_loop st search_terms max_tables pre
                (append_found found o)) as [res tr'] eqn:E1.
    simpl in H. rewrite (IH H). reflexivity.
Qed.

(** Under a budget that the catalog cannot fill, the loop of
    search_person.py is the loop of [search_all_tables]. *)
Lemma search_person_loop_unbounded (tables : list str)
  (found : list table_result) :
  Z.of_nat (length found) + Z.of_nat (length tables) <= max_tables ->
  search_person_loop st search_terms tables found
  = search_loop st search_terms max_tables tables found.
Proof.
  revert found. induction tables as [|t tables IH]; intros found H.
  - reflexivity.
  - cbn [search_person_loop search_loop]. cbn [length] in H.
    destruct (Z.of_nat (length found) >=? max_tables) eqn:E.
    + apply geb_true in E. lia.
    + destruct (try_pass (scan_table st search_terms t)) as [o tr].
      rewrite IH; [reflexivity|].
      destruct o as [m|]; cbn [append_found]; [rewrite length_app; cbn|]; lia.
Qed.

End Loop.

(** What holds of the answers of [search_all_tables] under a budget no
    smaller than the catalog holds of the answers of search_person.py. *)
Lemma search_person_unbounded (st : Store) (search_name : str) (b : Z)
  (tables : list str) :
  get_table_names st = Some tables ->
  Z.of_nat (length tables) <= b ->
  search_person st search_name = search_all_tables st search_name b.
Proof.
  intros Ht Hb. unfold search_person, search_all_tables, bind, call.
  rewrite Ht. rewrite (search_person_loop_unbounded st _ b); [reflexivity|].
  cbn. lia.
Qed.

(** ** What one table leaves behind *)

Lemma scan_found (st : Store) (t w : str) (m : table_result) :
  fst (try_pass (scan st t w)) = Some m ->
  exists res cres,
    execute st (select_sql t w) = Some res
    /\ fetchall res <> []
    /\ execute st (count_sql t w) = Some cres
    /\ m = {| table := t; count := scalar cres; columns := keys res;
              records := map (dict_zip (keys res)) (fetchall res) |}.
Proof.
  unfold scan, bind, call.
  destruct (execute st (select_sql t w)) as [res|]; [|discriminate].
  destruct (fetchall res) as [|row rows] eqn:Erows; [discriminate|].
  destruct (execute st (count_sql t w)) as [cres|]; [|discriminate].
  simpl. intros [= <-]. exists res, cres. rewrite Erows.
  repeat split; congruence.
Qed.

Lemma outcome_found (st : Store) (terms : list str) (t : str) (m : table_result) :
  outcome st terms t = Some m ->
  exists cols,
    get_columns st t = Some cols
    /\ string_columns cols <> []
    /\ fst (try_pass (scan st t (where_clause (string_columns cols) terms)))
       = Some m.
Proof.
  unfold outcome, scan_table, bind, call.
  destruct (get_columns st t) as [cols|]; [|discriminate].
  destruct (string_columns cols) as [|c sc] eqn:Esc; [discriminate|].
  intros H. exists cols. rewrite Esc. repeat split; [discriminate|].
  destruct (scan st t (where_clause (c :: sc) terms)) as [[o|] tr];
    simpl in *; exact H.
Qed.

Lemma outcome_table (st : Store) (terms : list str) (t : str) (m : table_result) :
  outcome st terms t = Some m -> table m = t.
Proof.
  intros H. destruct (outcome_found _ _ _ _ H) as (cols & _ & _ & Hs).
  destruct (scan_found _ _ _ _ Hs) as (res & cres & _ & _ & _ & ->).
  reflexivity.
Qed.

Lemma raises_outcome (st : Store) (terms : list str) (t : str) :
  raises (scan_table st terms t) -> outcome st terms t = None.
Proof.
  unfold raises, outcome.
  destruct (scan_table st terms t) as [[o|] tr]; simpl; congruence.
Qed.

Lemma search_all_tables_eq (st : Store) (search_term : str) (b : Z)
  (tables : list str) :
  get_table_names st = Some tables ->
  search_all_tables st search_term b
  = (Some (fst (search_loop st (Py.split search_term) b tables [])),
     GetTableNames :: snd (search_loop st (Py.split search_term) b tables [])).
Proof.
  intros H. unfold search_all_tables, bind, call. rewrite H.
  now destruct (search_loop st (Py.split search_term) b tables []).
Qed.

Lemma search_found (st : Store) (search_term : str) (b : Z) (tables : list str) :
  get_table_names st = Some tables ->
  fst (search_all_tables st search_term b)
  = Some (collect b (map (outcome st (Py.split search_term)) tables) []).
Proof.
  intros H. rewrite (search_all_tables_eq _ _ _ _ H). simpl.
  now rewrite search_loop_collect.
Qed.

Lemma search_member (st : Store) (search_term : str) (b : Z)
  (found : list table_result) (m : table_result) :
  fst (search_all_tables st search_term b) = Some found ->
  In m found ->
  exists t, outcome st (Py.split search_term) t = Some m.
Proof.
  intros H Hm.
  destruct (get_table_names st) as [tables|] eqn:E.
  - rewrite (search_found _ _ _ _ E) in H. injection H as <-.
    apply collect_In in Hm as [[]|Hm].
    apply in_map_iff in Hm as (t & Ht & _). now exists t.
  - unfold search_all_tables, bind, call in H. rewrite E in H. discriminate.
Qed.

(** ** The table budget *)

(** C2. With a budget [b >= 0] the search answers at most [b] entries.  Once
    a prefix of the catalog has filled the budget, entries and issued calls
    are those of the prefix alone: nothing is asked about a later table.  With
    [b = 0] the answer is empty and the listing of the tables is the only
    call made. *)
Theorem budget_caps_result (st : Store) (search_term : str) (b : Z)
  (tables : list str) :
  0 <= b ->
  get_table_names st = Some tables ->
  exists found tr,
    search_all_tables st search_term b = (Some found, GetTableNames :: tr)
    /\ Z.of_nat (length found) <= b
    /\ (forall pre post,
          tables = pre ++ post ->
          b <= Z.of_nat
                 (length (fst (search_loop st (Py.split search_term) b pre []))) ->
          (found, tr) = search_loop st (Py.split search_term) b pre [])
    /\ (b = 0 -> found = [] /\ tr = []).
Proof.
  intros Hb Ht.
  exists (fst (search_loop st (Py.split search_term) b tables [])),
         (snd (search_loop st (Py.split search_term) b tables [])).
  split; [now apply search_all_tables_eq|].
  split; [rewrite search_loop_collect; now apply collect_length|].
  split.
  - intros pre post -> Hfull.
    rewrite (search_loop_stops _ _ _ _ _ _ Hfull).
    now destruct (search_loop st (Py.split search_term) b pre []).
  - intros ->. destruct tables; simpl; now split.
Qed.

Lemma budget_caps_result_witness :
  exists found tr,
    search_all_tables (mem_store two_tables_db) "Mark" 1
    = (Some found, GetTableNames :: tr)
    /\ Z.of_nat (length found) <= 1
    /\ (forall pre post,
          map mt_name two_tables_db = pre ++ post ->
          1 <= Z.of_nat
                 (length (fst (search_loop (mem_store two_tables_db)
                                 (Py.split "Mark") 1 pre []))) ->
          (found, tr)
          = search_loop (mem_store two_tables_db) (Py.split "Mark") 1 pre [])
    /\ (1 = 0 -> found = [] /\ tr = []).
Proof.
  apply (budget_caps_result (mem_store two_tables_db) "Mark" 1
           (map mt_name two_tables_db)); [lia | reflexivity].
Defined.

(** ** Faults *)

(** C3. When the catalog has been listed, the search returns normally
    whatever the scans of the tables do.  A table whose scan raised has no
    entry in the answer, and the answer is the one of any store that lists
    the same tables, leaves behind the same for every other table and has no
    match in that one.  When no table leaves anything behind the answer is
    the empty list. *)
Theorem faults_are_skipped (st : Store) (search_term : str) (b : Z)
  (tables : list str) :
  get_table_names st = Some tables ->
  exists found tr,
    search_all_tables st search_term b = (Some found, tr)
    /\ (forall T,
          raises (scan_table st (Py.split search_term) T) ->
          (forall m, In m found -> table m <> T)
          /\ (forall st',
                get_table_names st' = Some tables ->
                (forall t, t <> T ->
                   outcome st' (Py.split search_term) t
                   = outcome st (Py.split search_term) t) ->
                outcome st' (Py.split search_term) T = None ->
                fst (search_all_tables st' search_term b) = Some found))
    /\ ((forall t, In t tables -> outcome st (Py.split search_term) t = None) ->
        found = []).
Proof.
  intros Ht.
  pose proof (search_found st search_term b tables Ht) as Hfound.
  rewrite (search_all_tables_eq _ _ _ _ Ht) in *. simpl in Hfound.
  injection Hfound as Hfound.
  eexists _, _. split; [reflexivity|]. rewrite Hfound. clear Hfound.
  split.
  - intros T HT. apply raises_outcome in HT. split.
    + intros m Hm E. apply collect_In in Hm as [[]|Hm].
      apply in_map_iff in Hm as (t & Hm & _).
      pose proof (outcome_table _ _ _ _ Hm) as Et. congruence.
    + intros st' Ht' Hsame Hzero. rewrite (search_found _ _ _ _ Ht').
      do 2 f_equal. apply map_ext. intros t.
      destruct (list_eq_dec ascii_dec t T) as [->|Hne]; [congruence|].
      now apply Hsame.
  - intros Hnone. apply collect_all_none. apply Forall_forall.
    intros o Ho. apply in_map_iff in Ho as (t & <- & Hin). now apply Hnone.
Qed.

Lemma faults_are_skipped_witness :
  exists found tr,
    search_all_tables staff_locked "Mark" 10 = (Some found, tr)
    /\ (forall T,
          raises (scan_table staff_locked (Py.split "Mark") T) ->
          (forall m, In m found -> table m <> T)
          /\ (forall st',
                get_table_names st' = Some (map mt_name two_tables_db) ->
                (forall t, t <> T ->
                   outcome st' (Py.split "Mark") t
                   = outcome staff_locked (Py.split "Mark") t) ->
                outcome st' (Py.split "Mark") T = None ->
                fst (search_all_tables st' "Mark" 10) = Some found))
    /\ ((forall t, In t (map mt_name two_tables_db) ->
           outcome staff_locked (Py.split "Mark") t = None) ->
        found = []).
Proof.
  apply (faults_are_skipped staff_locked "Mark" 10 (map mt_name two_tables_db)).
  reflexivity.
Defined.

(** The locked table raises, the search goes on to the next one, and the
    answer is the one of the store in which that table is empty. *)
Example staff_locked_run :
  raises (scan_table staff_locked (Py.split "Mark") "Staff")
  /\ option_map (map table) (fst (search_all_tables staff_locked "Mark" 10))
     = Some ["People" : str]
  /\ fst (search_all_tables staff_locked "Mark" 10)
     = fst (search_all_tables staff_empty "Mark" 10).
Proof. repeat split; vm_compute; reflexivity. Qed.

(** ** Tables without a text column *)

Lemma is_string_type_false (c : column) :
  (forall marker, In marker type_markers ->
                  Py.contains marker (Py.upper (col_type c)) = false) ->
  is_string_type c = false.
Proof.
  intros H. unfold is_string_type.
  destruct (existsb _ type_markers) eqn:E; [|reflexivity].
  apply existsb_exists in E as (marker & Hin & Hc).
  rewrite (H _ Hin) in Hc. discriminate.
Qed.

Lemma string_columns_nil (cols : list column) :
  (forall c, In c cols -> is_string_type c = false) ->
  string_columns cols = [].
Proof.
  unfold string_columns. induction cols as [|c cols IH]; intros H; simpl.
  - reflexivity.
  - rewrite (H c (or_introl eq_refl)). apply IH.
    intros c' Hc'. apply H. now right.
Qed.

(** C7. A table none of whose columns has a declared type that, uppercased,
    contains VARCHAR, NVARCHAR, TEXT or CHAR leaves nothing behind: the only
    call made for it is the listing of its columns, no statement is executed,
    and no entry of any answer carries its name.  The test is containment, so
    [nchar(10)] and [LONGTEXT] are text types. *)
Theorem no_text_column_no_match (st : Store) (search_term : str) (b : Z)
  (t : str) :
  (forall cols c marker,
      get_columns st t = Some cols -> In c cols -> In marker type_markers ->
      Py.contains marker (Py.upper (col_type c)) = false) ->
  try_pass (scan_table st (Py.split search_term) t) = (None, [GetColumns t])
  /\ (forall found m,
        fst (search_all_tables st search_term b) = Some found ->
        In m found -> table m <> t)
  /\ (forall name,
        is_string_type {| col_name := name; col_type := "nchar(10)" |} = true
        /\ is_string_type {| col_name := name; col_type := "LONGTEXT" |} = true).
Proof.
  intros H.
  assert (Hscan : try_pass (scan_table st (Py.split search_term) t)
                  = (None, [GetColumns t])).
  { unfold scan_table, bind, call.
    destruct (get_columns st t) as [cols|] eqn:E; [|reflexivity].
    assert (Hsc : string_columns cols = []).
    { apply string_columns_nil. intros c Hc.
      apply is_string_type_false. intros marker Hm.
      now apply (H cols c marker). }
    rewrite Hsc. reflexivity. }
  split; [exact Hscan|]. split; [|intros name; split; reflexivity].
  intros found m Hf Hm E.
  destruct (search_member _ _ _ _ _ Hf Hm) as (u & Hu).
  pose proof (outcome_table _ _ _ _ Hu) as Et.
  assert (Eu : u = t) by congruence. rewrite Eu in Hu.
  unfold outcome in Hu. rewrite Hscan in Hu. discriminate.
Qed.

Lemma no_text_column_no_match_witness :
  try_pass (scan_table (mem_store numbers_db) (Py.split "Mark") "Readings")
  = (None, [GetColumns "Readings"])
  /\ (forall found m,
        fst (search_all_tables (mem_store numbers_db) "Mark" 10) = Some found ->
        In m found -> table m <> "Readings")
  /\ (forall name,
        is_string_type {| col_name := name; col_type := "nchar(10)" |} = true
        /\ is_string_type {| col_name := name; col_type := "LONGTEXT" |} = true).
Proof.
  apply (no_text_column_no_match (mem_store numbers_db) "Mark" 10 "Readings").
  intros cols c marker [= <-] Hc Hm.
  simpl in Hc, Hm.
  destruct Hc as [<-|[<-|[]]];
    destruct Hm as [<-|[<-|[<-|[<-|[]]]]]; reflexivity.
Defined.

(** The table without a text column is passed over; the one after it is
    searched. *)
Example numbers_db_run :
  option_map (map table) (fst (search_all_tables (mem_store numbers_db) "Mark" 10))
  = Some ["People" : str].
Proof. vm_compute. reflexivity. Qed.

(** ** The first match wins *)

(** C8. With a budget of one, the answer is the single entry of the first
    table, in the order of the catalog, that leaves one behind; what later
    tables hold, and how many rows they match, plays no part. *)
Theorem first_match_wins (st : Store) (search_term : str)
  (pre post : list str) (t : str) (m : table_result) :
  get_table_names st = Some (pre ++ t :: post) ->
  (forall u, In u pre -> outcome st (Py.split search_term) u = None) ->
  outcome st (Py.split search_term) t = Some m ->
  fst (search_all_tables st search_term 1) = Some [m] /\ table m = t.
Proof.
  intros Ht Hpre Hm. split; [|now apply (outcome_table _ _ _ _ Hm)].
  rewrite (search_found _ _ _ _ Ht). f_equal.
  rewrite map_app, collect_skip.
  - simpl. rewrite Hm. simpl. now destruct (map _ post).
  - apply Forall_forall. intros o Ho.
    apply in_map_iff in Ho as (u & <- & Hu). now apply Hpre.
Qed.

(** [Staff] comes first and matches one row, [People] matches three. *)
Lemma first_match_wins_witness :
  exists m,
    fst (search_all_tables (mem_store two_tables_db) "Mark" 1) = Some [m]
    /\ table m = "Staff"
    /\ count m = VInt 1
    /\ option_map count (outcome (mem_store two_tables_db) (Py.split "Mark") "People")
       = Some (VInt 3).
Proof.
  destruct (outcome (mem_store two_tables_db) (Py.split "Mark") "Staff")
    as [m|] eqn:E; [|vm_compute in E; discriminate].
  exists m.
  destruct (first_match_wins (mem_store two_tables_db) "Mark" [] ["People" : str]
              "Staff" m) as [H1 H2].
  - reflexivity.
  - intros u [].
  - exact E.
  - split; [exact H1|]. split; [exact H2|]. split.
    + vm_compute in E. injection E as <-. reflexivity.
    + vm_compute. reflexivity.
Defined.

(** ** The predicate text *)

Lemma contains_join (sep x : str) (parts : list str) :
  In x parts -> exists pre post, Py.join sep parts = pre ++ x ++ post.
Proof.
  intros H. apply in_split in H as (before & after & ->). apply join_split.
Qed.

(** C6. Every term is spliced into the predicate as it is: for every text
    column [c] and term [t], whatever characters [t] holds, the predicate, and
    with it the text of both statements, contains [[c] LIKE '%t%'] with [t]
    character for character. *)
Theorem term_spliced_verbatim (table_name : str)
  (string_cols search_terms : list str) (c t : str) :
  In c string_cols ->
  In t search_terms ->
  let fragment := "[" ++ c ++ "] LIKE '%" ++ t ++ "%'" in
  let predicate := where_clause string_cols search_terms in
  Py.contains fragment predicate = true
  /\ Py.contains fragment (select_sql table_name predicate) = true
  /\ Py.contains fragment (count_sql table_name predicate) = true.
Proof.
  intros Hc Ht fragment predicate.
  assert (H : exists pre post, predicate = pre ++ fragment ++ post).
  { destruct (contains_join " AND " (term_condition string_cols t)
                (map (term_condition string_cols) search_terms))
      as (pre & post & E); [now apply in_map|].
    destruct (contains_join " OR " (col_condition t c)
                (map (col_condition t) string_cols))
      as (pre' & post' & E'); [now apply in_map|].
    exists (pre ++ "(" ++ pre'), (post' ++ ")" ++ post).
    unfold predicate, where_clause. rewrite E.
    unfold term_condition. rewrite E'. unfold col_condition, fragment.
    now rewrite <- !app_assoc. }
  destruct H as (pre & post & E).
  split; [rewrite E; apply contains_app|].
  split.
  - unfold select_sql. rewrite E.
    replace ("SELECT TOP 10 * FROM [" ++ table_name ++ "] WHERE "
             ++ pre ++ fragment ++ post)
      with (("SELECT TOP 10 * FROM [" ++ table_name ++ "] WHERE " ++ pre)
            ++ fragment ++ post) by now rewrite <- !app_assoc.
    apply contains_app.
  - unfold count_sql. rewrite E.
    replace ("SELECT COUNT(*) FROM [" ++ table_name ++ "] WHERE "
             ++ pre ++ fragment ++ post)
      with (("SELECT COUNT(*) FROM [" ++ table_name ++ "] WHERE " ++ pre)
            ++ fragment ++ post) by now rewrite <- !app_assoc.
    apply contains_app.
Qed.

Lemma term_spliced_verbatim_witness :
  Py.contains "[LastName] LIKE '%O'Br_en[%'"
    (where_clause ["FirstName" : str; "LastName" : str]
                  ["%Mark" : str; "O'Br_en[" : str]) = true
  /\ Py.contains "[LastName] LIKE '%O'Br_en[%'"
       (select_sql "People"
          (where_clause ["FirstName" : str; "LastName" : str]
                        ["%Mark" : str; "O'Br_en[" : str])) = true
  /\ Py.contains "[LastName] LIKE '%O'Br_en[%'"
       (count_sql "People"
          (where_clause ["FirstName" : str; "LastName" : str]
                        ["%Mark" : str; "O'Br_en[" : str])) = true.
Proof.
  apply (term_spliced_verbatim "People"
           ["FirstName" : str; "LastName" : str]
           ["%Mark" : str; "O'Br_en[" : str] "LastName" "O'Br_en[");
    simpl; auto.
Defined.

(** The predicate for two columns and two terms, in full. *)
Example where_clause_text :
  where_clause ["FirstName" : str; "LastName" : str] ["Mark" : str; "O'Brien" : str]
  = "([FirstName] LIKE '%Mark%' OR [LastName] LIKE '%Mark%') AND ([FirstName] LIKE '%O'Brien%' OR [LastName] LIKE '%O'Brien%')".
Proof. reflexivity. Qed.

(** ** Provenance *)

Lemma dict_get_set (k k' : str) (v : value) (d : dict) :
  dict_get k (dict_set k' v d)
  = if str_eqb k k' then Some v else dict_get k d.
Proof.
  induction d as [|[k0 v0] d IH]; simpl.
  - reflexivity.
  - destruct (str_eqb k' k0) eqn:E'; simpl.
    + apply str_eqb_eq in E'. subst k0. now destruct (str_eqb k k').
    + rewrite IH. destruct (str_eqb k k0) eqn:E0; [|reflexivity].
      apply str_eqb_eq in E0. subst k0.
      destruct (str_eqb k k') eqn:E; [|reflexivity].
      apply str_eqb_eq in E. subst k'. rewrite str_eqb_refl in E'. discriminate.
Qed.

(** No entry of the answer to the search of P5 carries a source. *)
Lemma records_are_not_tagged :
  fst (search_all_tables (mem_store contacts_db) "Linda" 10)
  = Some [ {| table := "Contacts";
              count := VInt 1;
              columns := ["FirstName" : str; "Age" : str];
              records := [ [("FirstName" : str, VStr "Linda");
                            ("Age" : str, VInt 40)] ] |} ]
  /\ dict_get "_source_table"
       [("FirstName" : str, VStr "Linda"); ("Age" : str, VInt 40)] = None.
Proof. split; vm_compute; reflexivity. Qed.

(** C9, amended.  The entries the search answers hold the rows as the store
    gave them.  [combine_results] copies every record of every entry, in
    order, into one list, and each copy carries under [_source_table] the name
    of the entry it was taken from, its other fields unchanged.  For P5 the
    search answers one entry for [Contacts] with count 1 and the row, and the
    combined list holds that row with [_source_table] set to [Contacts]. *)
Theorem combine_tags_records (table_results : list table_result) :
  (forall r,
      In r (fst (combine_results table_results)) <->
      exists m record,
        In m table_results /\ In record (records m)
        /\ r = tag_record (table m) record)
  /\ (forall (t : str) (record : dict) (k : str),
        dict_get "_source_table" (tag_record t record) = Some (VStr t)
        /\ (k <> "_source_table" ->
            dict_get k (tag_record t record) = dict_get k record))
  /\ snd (combine_results table_results) = map table table_results
  /\ option_map combine_results
       (fst (search_all_tables (mem_store contacts_db) "Linda" 10))
     = Some ([ [("FirstName" : str, VStr "Linda"); ("Age" : str, VInt 40);
                ("_source_table" : str, VStr "Contacts")] ],
             ["Contacts" : str]).
Proof.
  split; [|split; [|split]].
  - intros r. unfold combine_results. simpl. rewrite in_flat_map. split.
    + intros (m & Hm & Hr). apply in_map_iff in Hr as (record & <- & Hrec).
      now exists m, record.
    + intros (m & record & Hm & Hrec & ->). exists m. split; [exact Hm|].
      now apply in_map.
  - intros t record k. unfold tag_record. rewrite !dict_get_set.
    rewrite str_eqb_refl. split; [reflexivity|].
    intros Hk. apply (proj2 (str_eqb_neq _ _)) in Hk. now rewrite Hk.
  - reflexivity.
  - vm_compute. reflexivity.
Qed.

(** ** The name of the introduction *)

(** C5, at the input where the code departs from it.  The first record has
    an empty [Contact] and a [Name]: the chain stops at [Contact], the key
    being present, and the name falls back to the default although [Name]
    holds one. *)
Example empty_contact_masks_name :
  introduce_person_name
    [ {| table := "CustomerInquiryMaster";
         count := VInt 1;
         columns := ["Contact" : str; "Name" : str];
         records := [ [("Contact" : str, VStr ""); ("Name" : str, VStr "Bob")] ] |} ]
  = Some (VStr "Unknown")
  /\ introduce_person_name
       [ {| table := "J_Customer";
            count := VInt 1;
            columns := ["Name" : str];
            records := [ [("Name" : str, VStr "Bob")] ] |} ]
     = Some (VStr "Bob").
Proof. split; reflexivity. Qed.

(** Where the first key present holds text, that text is the name. *)
Example name_priority :
  name_of_first_record
    [("FirstName" : str, VStr "Linda"); ("LastName" : str, VStr "Smith");
     ("Contact" : str, VStr "L. Smith")] = VStr "Linda Smith"
  /\ name_of_first_record
       [("Attention" : str, VStr "Ms Smith"); ("Contact" : str, VStr "L. Smith")]
     = VStr "L. Smith"
  /\ name_of_first_record [("Age" : str, VInt 40)] = VStr "Unknown".
Proof. repeat split; reflexivity. Qed.

(** ** The term of a question *)

Lemma split_from_tokens (s cur : str) :
  existsb Py.isspace cur = false ->
  Forall is_token (Py.split_from cur s).
Proof.
  revert cur. induction s as [|c s IH]; intros cur Hcur; simpl.
  - destruct cur; [constructor|]. constructor; [|constructor].
    split; [discriminate|exact Hcur].
  - destruct (Py.isspace c) eqn:Ec.
    + destruct cur as [|a cur]; [now apply IH|].
      constructor; [split; [discriminate|exact Hcur]|now apply IH].
    + apply IH. rewrite existsb_app, Hcur. simpl. now rewrite Ec.
Qed.

Lemma split_from_token (tok cur : str) :
  existsb Py.isspace tok = false ->
  cur ++ tok <> [] ->
  Py.split_from cur tok = [cur ++ tok].
Proof.
  revert cur. induction tok as [|c tok IH]; intros cur Hs Hne; simpl.
  - rewrite app_nil_r in *. now destruct cur.
  - simpl in Hs. apply orb_false_iff in Hs as [Hc Hs]. rewrite Hc.
    rewrite IH; [now rewrite <- app_assoc|exact Hs|].
    destruct cur; discriminate.
Qed.

Lemma split_token (tok : str) : is_token tok -> Py.split tok = [tok].
Proof. intros [Hne Hs]. now apply (split_from_token tok []). Qed.

Lemma last_item_In {A} (l : list A) (x : A) :
  Py.last_item l = Some x -> In x l.
Proof.
  unfold Py.last_item. intros H. apply in_rev.
  destruct (rev l); [discriminate|]. injection H as ->. now left.
Qed.

Lemma last_item_some {A} (l : list A) :
  l <> [] -> exists x, Py.last_item l = Some x.
Proof.
  unfold Py.last_item. intros H.
  destruct (rev l) eqn:E; [|eauto].
  apply (f_equal (@rev A)) in E. rewrite rev_involutive in E. now destruct H.
Qed.

(** A question made of one blank has no last token, and a question whose
    words are set apart by a tab is searched whole, as two terms. *)
Lemma question_term_counterexample :
  (In " "%char (" " : str)
   /\ search_term_of " " = None
   /\ forall st, query_search st " " = (None, []))
  /\ (search_term_of ("Mark" ++ ["009"%char] ++ "Elinski")
      = Some ("Mark" ++ ["009"%char] ++ "Elinski")
      /\ Py.split ("Mark" ++ ["009"%char] ++ "Elinski")
         = ["Mark" : str; "Elinski" : str]).
Proof.
  split; [split; [now left|split; [reflexivity|intros st; reflexivity]]|].
  split; reflexivity.
Qed.

Lemma split_from_nonempty (s cur : str) :
  cur <> [] \/ existsb (fun c => negb (Py.isspace c)) s = true ->
  Py.split_from cur s <> [].
Proof.
  revert cur. induction s as [|c s IH]; intros cur H; simpl.
  - destruct H as [H|H]; [|discriminate]. now destruct cur.
  - destruct (Py.isspace c) eqn:Ec.
    + destruct cur as [|a cur]; [|discriminate].
      apply IH. destruct H as [H|H]; [now destruct H|]. right.
      simpl in H. now rewrite Ec in H.
    + apply IH. left. now destruct cur.
Qed.

(** C10, amended.  For a question that holds a space and at least one
    character that is not whitespace, the term handed to the search is the
    last token of the question, the search splits it into that one term, and
    so runs with a single term. *)
Theorem last_token_is_searched (st : Store) (question : str) :
  In " "%char question ->
  existsb (fun c => negb (Py.isspace c)) question = true ->
  exists tok,
    Py.last_item (Py.split question) = Some tok
    /\ search_term_of question = Some tok
    /\ Py.split tok = [tok]
    /\ query_search st question = search_all_tables st tok 10.
Proof.
  intros Hsp Hne.
  assert (Hsplit : Py.split question <> [])
    by (apply split_from_nonempty; now right).
  destruct (last_item_some _ Hsplit) as [tok Htok]. exists tok.
  assert (Hterm : search_term_of question = Some tok).
  { unfold search_term_of.
    replace (existsb (Ascii.eqb " "%char) question) with true; [exact Htok|].
    symmetry. apply existsb_exists. exists " "%char. now split. }
  split; [exact Htok|]. split; [exact Hterm|]. split.
  - apply split_token.
    pose proof (split_from_tokens question [] eq_refl) as Hall.
    rewrite Forall_forall in Hall. apply Hall. now apply last_item_In.
  - unfold query_search. now rewrite Hterm.
Qed.

Lemma last_token_is_searched_witness :
  exists tok,
    Py.last_item (Py.split "who is Mark Elinski") = Some tok
    /\ search_term_of "who is Mark Elinski" = Some tok
    /\ Py.split tok = [tok]
    /\ query_search (mem_store people_db) "who is Mark Elinski"
       = search_all_tables (mem_store people_db) tok 10.
Proof.
  apply (last_token_is_searched (mem_store people_db) "who is Mark Elinski").
  - simpl. auto 10.
  - reflexivity.
Defined.

Example who_is_mark_elinski :
  search_term_of "who is Mark Elinski" = Some ("Elinski" : str).
Proof. reflexivity. Qed.

(** ** The engine reads the statements as they were built *)


Ltac lex_norm :=
  rewrite ?app_nil_r; repeat (progress (rewrite <- ?app_assoc; cbn [app])).

Lemma atoms_tokens_cons2 (a b : atom) (g : list atom) :
  atoms_tokens (a :: b :: g) = atom_tokens a ++ TOr :: atoms_tokens (b :: g).
Proof. reflexivity. Qed.

Lemma groups_tokens_cons2 (g h : list atom) (gs : list (list atom)) :
  groups_tokens (g :: h :: gs)
  = TLParen :: atoms_tokens g ++ TRParen :: TAnd :: groups_tokens (h :: gs).
Proof. reflexivity. Qed.

Lemma lex_from_ident (name rest acc : str) (out : list token) :
  existsb (is_char "]") name = false ->
  lex_from (LIdent acc) out (name ++ rest)
  = lex_from (LIdent (acc ++ name)) out rest.
Proof.
  revert acc. induction name as [|a name IH]; intros acc H.
  - now rewrite app_nil_r.
  - simpl in H. apply orb_false_iff in H as [Ha H].
    simpl. rewrite Ha, app_nil_r, IH by exact H.
    now rewrite <- app_assoc.
Qed.

Lemma lex_from_str (s rest acc : str) (out : list token) :
  existsb (is_char "'") s = false ->
  lex_from (LStr acc) out (s ++ rest)
  = lex_from (LStr (acc ++ s)) out rest.
Proof.
  revert acc. induction s as [|a s IH]; intros acc H.
  - now rewrite app_nil_r.
  - simpl in H. apply orb_false_iff in H as [Ha H].
    simpl. rewrite Ha, app_nil_r, IH by exact H.
    now rewrite <- app_assoc.
Qed.

Lemma lex_col_condition (term c rest : str) (out : list token) :
  existsb (is_char "]") c = false ->
  existsb (is_char "'") term = false ->
  lex_from LNone out (col_condition term c ++ rest)
  = lex_from (LStrEnd (snd (atom_of term c))) (out ++ [TIdent c; TLike]) rest.
Proof.
  intros Hc Ht. unfold col_condition, atom_of.
  rewrite <- !app_assoc.
  cbn. rewrite app_nil_r, lex_from_ident by exact Hc.
  cbn. rewrite lex_from_str by exact Ht.
  cbn. now lex_norm.
Qed.

Lemma lex_atoms (term rest : str) (cols : list str) (out : list token) :
  cols <> [] ->
  forallb plain_name cols = true ->
  existsb (is_char "'") term = false ->
  lex_from LNone out
    (Py.join " OR " (map (col_condition term) cols) ++ ")" ++ rest)
  = lex_from LNone
      (out ++ atoms_tokens (map (atom_of term) cols) ++ [TRParen]) rest.
Proof.
  intros Hne Hcols Ht. revert out.
  induction cols as [|c cols IH]; [now destruct Hne|]. intros out.
  simpl in Hcols. apply andb_true_iff in Hcols as [Hc Hcols].
  apply negb_true_iff in Hc.
  destruct cols as [|c' cols].
  - simpl Py.join. simpl map. rewrite lex_col_condition by assumption.
    cbn. now lex_norm.
  - cbn [map]. rewrite join_cons2. rewrite <- !app_assoc.
    rewrite lex_col_condition by assumption.
    remember (Py.join " OR " (col_condition term c' :: map (col_condition term) cols)
              ++ ")" ++ rest) as tail eqn:Etail.
    cbn. subst tail. lex_norm.
    specialize (IH ltac:(discriminate) Hcols). cbn [map] in IH.
    rewrite IH. f_equal. rewrite atoms_tokens_cons2. now lex_norm.
Qed.

Lemma lex_term_condition (term rest : str) (cols : list str) (out : list token) :
  cols <> [] ->
  forallb plain_name cols = true ->
  existsb (is_char "'") term = false ->
  lex_from LNone out (term_condition cols term ++ rest)
  = lex_from LNone
      (out ++ TLParen :: atoms_tokens (map (atom_of term) cols) ++ [TRParen]) rest.
Proof.
  intros Hne Hcols Ht. unfold term_condition. rewrite <- !app_assoc.
  remember (Py.join " OR " (map (col_condition term) cols) ++ ")" ++ rest) as tail.
  cbn. subst tail. rewrite lex_atoms by assumption. now lex_norm.
Qed.

Lemma lex_where_clause (cols terms : list str) (out : list token) :
  cols <> [] ->
  terms <> [] ->
  forallb plain_name cols = true ->
  forallb (fun t => negb (existsb (is_char "'") t)) terms = true ->
  lex_from LNone out (where_clause cols terms)
  = Some (out ++ groups_tokens (where_groups cols terms)).
Proof.
  intros Hne Hterms Hcols Hq. unfold where_clause, where_groups. revert out.
  induction terms as [|t terms IH]; [now destruct Hterms|]. intros out.
  simpl in Hq. apply andb_true_iff in Hq as [Ht Hq]. apply negb_true_iff in Ht.
  destruct terms as [|t' terms].
  - simpl Py.join. simpl map.
    rewrite <- (app_nil_r (term_condition cols t)).
    rewrite lex_term_condition by assumption. cbn. now lex_norm.
  - cbn [map]. rewrite join_cons2.
    rewrite lex_term_condition by assumption.
    remember (Py.join " AND " (term_condition cols t' :: map (term_condition cols) terms))
      as tail.
    cbn. subst tail. lex_norm.
    specialize (IH ltac:(discriminate) Hq). cbn [map] in IH.
    rewrite IH. f_equal. rewrite groups_tokens_cons2. now lex_norm.
Qed.

Lemma lex_from_extends (s : str) (m : lex_mode) (out ts : list token) :
  lex_from m out s = Some ts -> exists ts', ts = out ++ ts'.
Proof.
  revert m out. induction s as [|c s IH]; intros m out H; simpl in H.
  - destruct (lex_end m) as [e|]; [|discriminate]. injection H as <-. eauto.
  - destruct (lex_step m c) as [[ts0 m']|]; [|discriminate].
    destruct (IH _ _ H) as [ts' ->]. exists (ts0 ++ ts').
    now rewrite app_assoc.
Qed.

Lemma lex_select_sql (t w : str) :
  plain_name t = true ->
  lex (select_sql t w)
  = lex_from LNone [TSelect; TTop; TNum 10; TStar; TFrom; TIdent t; TWhere] w.
Proof.
  intros Ht. apply negb_true_iff in Ht. unfold lex, select_sql.
  remember (t ++ "] WHERE " ++ w) as tail.
  cbn. subst tail. rewrite lex_from_ident by exact Ht.
  cbn. reflexivity.
Qed.

Lemma lex_count_sql (t w : str) :
  plain_name t = true ->
  lex (count_sql t w)
  = lex_from LNone
      [TSelect; TCount; TLParen; TStar; TRParen; TFrom; TIdent t; TWhere] w.
Proof.
  intros Ht. apply negb_true_iff in Ht. unfold lex, count_sql.
  remember (t ++ "] WHERE " ++ w) as tail.
  cbn. subst tail. rewrite lex_from_ident by exact Ht.
  cbn. reflexivity.
Qed.

(** Whatever the table is called, the sample asks for ten rows. *)
Lemma select_sql_is_top_10 (t w : str) (ts : list token) (q : query) :
  lex (select_sql t w) = Some ts -> parse ts = Some q -> q_kind q = Sample 10.
Proof.
  unfold lex, select_sql.
  remember (t ++ "] WHERE " ++ w) as tail.
  cbn. intros H. apply lex_from_extends in H as [ts' ->].
  cbn [app]. destruct ts' as [|[] [|[] ts']]; cbn; try discriminate.
  destruct (parse_where ts'); cbn; [|discriminate].
  now intros [= <-].
Qed.

Lemma parse_atoms_group (g : list atom) (rest : list token) :
  g <> [] ->
  parse_atoms (atoms_tokens g ++ TRParen :: rest)
  = match rest with
    | [] => Some [g]
    | TAnd :: TLParen :: more => option_map (cons g) (parse_atoms more)
    | _ => None
    end.
Proof.
  intros Hg. induction g as [|[c p] g IH]; [now destruct Hg|].
  destruct g as [|b g].
  - unfold atoms_tokens. cbn [atom_tokens app fst snd].
    destruct rest as [|[] [|[] more]]; reflexivity.
  - rewrite atoms_tokens_cons2. cbn [atom_tokens app fst snd].
    cbn [parse_atoms]. rewrite IH by discriminate.
    destruct rest as [|[] [|[] more]]; try reflexivity.
    cbn [option_map]. now destruct (parse_atoms more).
Qed.

Lemma parse_groups_tokens (gs : list (list atom)) :
  gs <> [] ->
  Forall (fun g => g <> []) gs ->
  parse_where (groups_tokens gs) = Some gs.
Proof.
  intros Hne Hall. induction Hall as [|g gs Hg Hall IH]; [now destruct Hne|].
  destruct gs as [|h gs].
  - unfold groups_tokens. cbn [parse_where].
    now rewrite parse_atoms_group.
  - rewrite groups_tokens_cons2. cbn [parse_where].
    rewrite parse_atoms_group by exact Hg.
    specialize (IH ltac:(discriminate)).
    destruct gs as [|k gs].
    + unfold groups_tokens in *. cbn [parse_where] in IH. now rewrite IH.
    + rewrite groups_tokens_cons2 in *. cbn [parse_where] in IH. now rewrite IH.
Qed.

Lemma where_groups_nonempty (cols terms : list str) :
  cols <> [] -> Forall (fun g => g <> []) (where_groups cols terms).
Proof.
  intros Hc. apply Forall_forall. intros g Hg.
  apply in_map_iff in Hg as (t & <- & _). now destruct cols.
Qed.

Lemma plain_term_quote (terms : list str) :
  forallb plain_term terms = true ->
  forallb (fun t => negb (existsb (is_char "'") t)) terms = true.
Proof.
  intros H. rewrite forallb_forall in *. intros t Ht.
  specialize (H t Ht). unfold plain_term in H.
  apply negb_true_iff in H. apply negb_true_iff.
  destruct (existsb (is_char "'") t) eqn:E; [|reflexivity].
  apply existsb_exists in E as (c & Hc & Hq).
  rewrite <- H. symmetry. apply existsb_exists. exists c. split; [exact Hc|].
  rewrite Hq. now rewrite !orb_true_r.
Qed.

(** ** What text() makes of the statements *)

Lemma neutral_parts (n : ascii) :
  neutral n = true ->
  is_colon n = false /\ is_word n = false /\ is_backslash n = false
  /\ is_param_char n = false.
Proof.
  unfold neutral, is_param_char. intros H. apply negb_true_iff in H.
  apply orb_false_iff in H as [H Hd]. apply orb_false_iff in H as [H Hb].
  apply orb_false_iff in H as [Hc Hw]. rewrite Hw, Hd. auto.
Qed.

Lemma opens_param_before (a r : str) (n : ascii) :
  neutral n = true -> opens_param (a ++ n :: r) = opens_param a.
Proof.
  intros Hn. destruct (neutral_parts n Hn) as (Hc & Hw & _ & _).
  destruct a as [|w [|c a]]; cbn [app opens_param head_is_colon].
  - now rewrite Hw.
  - now rewrite Hc.
  - reflexivity.
Qed.

Lemma bind_split (a r : str) (n : ascii) (g : bool) :
  neutral n = true ->
  bind_from g (a ++ n :: r) = bind_from g a || bind_from false r.
Proof.
  intros Hn. destruct (neutral_parts n Hn) as (Hc & Hw & Hb & _).
  revert g. induction a as [|c a IH]; intros g; cbn [app bind_from].
  - unfold guards. now rewrite Hc, Hw, Hb.
  - rewrite (opens_param_before a r n Hn), IH. now rewrite orb_assoc.
Qed.

Lemma after_name_before (a r : str) (n : ascii) :
  neutral n = true ->
  head_is_colon (after_name (a ++ n :: r)) = head_is_colon (after_name a).
Proof.
  intros Hn. destruct (neutral_parts n Hn) as (Hc & _ & _ & Hp).
  induction a as [|c a IH]; cbn [app after_name].
  - rewrite Hp. cbn [head_is_colon]. exact Hc.
  - destruct (is_param_char c); [exact IH|reflexivity].
Qed.

Lemma escaped_colon_before (a r : str) (n : ascii) :
  neutral n = true -> escaped_colon (a ++ n :: r) = escaped_colon a.
Proof.
  intros Hn. destruct a as [|c a]; cbn [app escaped_colon].
  - destruct (neutral_parts n Hn) as (Hc & _). now rewrite Hc.
  - now rewrite after_name_before.
Qed.

Lemma unescape_split (a r : str) (n : ascii) :
  neutral n = true ->
  unescape (a ++ n :: r) = unescape a ++ n :: unescape r.
Proof.
  intros Hn. induction a as [|c a IH]; cbn [app unescape].
  - destruct (neutral_parts n Hn) as (_ & _ & Hb & _). now rewrite Hb.
  - rewrite (escaped_colon_before a r n Hn), IH.
    now destruct (is_backslash c && escaped_colon a).
Qed.

(** Text between two names: [glue], written without colon or backslash,
    then a neutral character. *)
Lemma bind_glue (glue r : str) (n : ascii) (g : bool) :
  neutral n = true ->
  bind_from g glue = false ->
  bind_from g (glue ++ n :: r) = bind_from false r.
Proof. intros Hn Hg. now rewrite bind_split, Hg. Qed.

Lemma unescape_glue (glue r : str) (n : ascii) :
  neutral n = true ->
  unescape glue = glue ->
  unescape (glue ++ n :: r) = glue ++ n :: unescape r.
Proof. intros Hn Hg. now rewrite unescape_split, Hg. Qed.

Lemma bind_col_condition (term col r : str) :
  bind_from false (col_condition term col ++ r)
  = has_bind_parameter col || has_bind_parameter term || bind_from false r.
Proof.
  unfold col_condition, has_bind_parameter. rewrite <- !app_assoc.
  change (bind_from false
            ([] ++ "["%char :: col ++ "]"%char
                 :: lit " LIKE '" ++ "%"%char :: term ++ "%"%char
                 :: [] ++ "'"%char :: r)
          = bind_from false col || bind_from false term || bind_from false r).
  rewrite (bind_glue [] _ "["%char) by reflexivity.
  rewrite (bind_split col) by reflexivity.
  rewrite (bind_glue (lit " LIKE '") _ "%"%char) by reflexivity.
  rewrite (bind_split term) by reflexivity.
  rewrite (bind_glue [] _ "'"%char) by reflexivity.
  now rewrite orb_assoc.
Qed.

Lemma unescape_col_condition (term col r : str) :
  unescape (col_condition term col ++ r)
  = col_condition (unescape term) (unescape col) ++ unescape r.
Proof.
  unfold col_condition. rewrite <- !app_assoc.
  change (unescape
            ([] ++ "["%char :: col ++ "]"%char
                 :: lit " LIKE '" ++ "%"%char :: term ++ "%"%char
                 :: [] ++ "'"%char :: r)
          = [] ++ "["%char :: unescape col ++ "]"%char
               :: lit " LIKE '" ++ "%"%char :: unescape term ++ "%"%char
               :: [] ++ "'"%char :: unescape r).
  rewrite (unescape_glue [] _ "["%char) by reflexivity.
  rewrite (unescape_split col) by reflexivity.
  rewrite (unescape_glue (lit " LIKE '") _ "%"%char) by reflexivity.
  rewrite (unescape_split term) by reflexivity.
  rewrite (unescape_glue [] _ "'"%char) by reflexivity.
  reflexivity.
Qed.

Lemma bind_close (r : str) : bind_from false (")" ++ r) = bind_from false r.
Proof.
  change (lit ")" ++ r) with ([] ++ ")"%char :: r).
  now rewrite bind_glue.
Qed.

Lemma unescape_close (r : str) : unescape (")" ++ r) = ")" ++ unescape r.
Proof.
  change (lit ")" ++ r) with ([] ++ ")"%char :: r).
  now rewrite unescape_glue.
Qed.

Lemma bind_atoms (term r : str) (cols : list str) :
  bind_from false (Py.join " OR " (map (col_condition term) cols) ++ ")" ++ r)
  = existsb (fun col => has_bind_parameter col || has_bind_parameter term) cols
    || bind_from false r.
Proof.
  induction cols as [|c cols IH]; [apply bind_close|].
  destruct cols as [|c' cols].
  - cbn [map Py.join existsb]. rewrite bind_col_condition, bind_close.
    now rewrite orb_false_r.
  - cbn [map]. rewrite join_cons2, <- !app_assoc, bind_col_condition.
    cbn [map] in IH.
    change (lit " OR " ++ ?x) with (lit " OR" ++ " "%char :: x).
    rewrite (bind_glue (lit " OR") _ " "%char) by reflexivity.
    rewrite IH. cbn [existsb]. now rewrite !orb_assoc.
Qed.

Lemma unescape_atoms (term r : str) (cols : list str) :
  unescape (Py.join " OR " (map (col_condition term) cols) ++ ")" ++ r)
  = Py.join " OR " (map (col_condition (unescape term)) (map unescape cols))
    ++ ")" ++ unescape r.
Proof.
  induction cols as [|c cols IH]; [apply unescape_close|].
  destruct cols as [|c' cols].
  - cbn [map Py.join]. now rewrite unescape_col_condition, unescape_close.
  - cbn [map]. rewrite !join_cons2, <- !app_assoc, unescape_col_condition.
    cbn [map] in IH.
    change (lit " OR " ++ ?x) with (lit " OR" ++ " "%char :: x).
    rewrite (unescape_glue (lit " OR") _ " "%char) by reflexivity.
    now rewrite IH.
Qed.

Lemma bind_term_condition (term r : str) (cols : list str) :
  bind_from false (term_condition cols term ++ r)
  = existsb (fun col => has_bind_parameter col || has_bind_parameter term) cols
    || bind_from false r.
Proof.
  unfold term_condition. rewrite <- !app_assoc.
  change (lit "(" ++ ?x) with ([] ++ "("%char :: x).
  rewrite (bind_glue [] _ "("%char) by reflexivity.
  apply bind_atoms.
Qed.

Lemma unescape_term_condition (term r : str) (cols : list str) :
  unescape (term_condition cols term ++ r)
  = term_condition (map unescape cols) (unescape term) ++ unescape r.
Proof.
  unfold term_condition. rewrite <- !app_assoc.
  change (lit "(" ++ ?x) with ([] ++ "("%char :: x).
  rewrite (unescape_glue [] _ "("%char) by reflexivity.
  now rewrite unescape_atoms.
Qed.

Lemma bind_where_clause (cols terms : list str) :
  has_bind_parameter (where_clause cols terms) = where_binds cols terms.
Proof.
  unfold has_bind_parameter, where_clause, where_binds.
  induction terms as [|t terms IH]; [reflexivity|].
  destruct terms as [|t' terms].
  - cbn [map Py.join existsb].
    rewrite <- (app_nil_r (term_condition cols t)), bind_term_condition.
    reflexivity.
  - cbn [map]. rewrite join_cons2, bind_term_condition.
    cbn [map] in IH.
    change (lit " AND " ++ ?x) with (lit " AND" ++ " "%char :: x).
    rewrite (bind_glue (lit " AND") _ " "%char) by reflexivity.
    rewrite IH. reflexivity.
Qed.

Lemma unescape_where_clause (cols terms : list str) :
  unescape (where_clause cols terms)
  = where_clause (map unescape cols) (map unescape terms).
Proof.
  unfold where_clause.
  induction terms as [|t terms IH]; [reflexivity|].
  destruct terms as [|t' terms].
  - cbn [map Py.join].
    rewrite <- (app_nil_r (term_condition cols t)), unescape_term_condition.
    now rewrite app_nil_r.
  - cbn [map]. rewrite !join_cons2, unescape_term_condition.
    cbn [map] in IH.
    change (lit " AND " ++ ?x) with (lit " AND" ++ " "%char :: x).
    rewrite (unescape_glue (lit " AND") _ " "%char) by reflexivity.
    now rewrite IH.
Qed.

(** The head of a statement, up to the name of the table, is sent as it is
    written; the table and the predicate are read each on its own. *)
Lemma bind_statement (head t w : str) :
  bind_from false head = false ->
  has_bind_parameter (head ++ "[" ++ t ++ "] WHERE " ++ w)
  = has_bind_parameter t || has_bind_parameter w.
Proof.
  intros Hh. unfold has_bind_parameter.
  change (head ++ lit "[" ++ t ++ lit "] WHERE " ++ w)
    with (head ++ "["%char :: t ++ "]"%char :: lit " WHERE" ++ " "%char :: w).
  rewrite (bind_glue head _ "["%char) by (reflexivity || exact Hh).
  rewrite (bind_split t) by reflexivity.
  now rewrite (bind_glue (lit " WHERE") _ " "%char) by reflexivity.
Qed.

Lemma unescape_statement (head t w : str) :
  unescape head = head ->
  unescape (head ++ "[" ++ t ++ "] WHERE " ++ w)
  = head ++ "[" ++ unescape t ++ "] WHERE " ++ unescape w.
Proof.
  intros Hh.
  change (head ++ lit "[" ++ t ++ lit "] WHERE " ++ w)
    with (head ++ "["%char :: t ++ "]"%char :: lit " WHERE" ++ " "%char :: w).
  rewrite (unescape_glue head _ "["%char) by (reflexivity || exact Hh).
  rewrite (unescape_split t) by reflexivity.
  now rewrite (unescape_glue (lit " WHERE") _ " "%char) by reflexivity.
Qed.

Lemma text_select_sql (t w : str) :
  text_clause (select_sql t w)
  = if has_bind_parameter t || has_bind_parameter w then None
    else Some (select_sql (unescape t) (unescape w)).
Proof.
  unfold text_clause.
  change (select_sql t w)
    with (lit "SELECT TOP 10 * FROM " ++ "[" ++ t ++ "] WHERE " ++ w).
  rewrite bind_statement, unescape_statement by reflexivity. reflexivity.
Qed.

Lemma text_count_sql (t w : str) :
  text_clause (count_sql t w)
  = if has_bind_parameter t || has_bind_parameter w then None
    else Some (count_sql (unescape t) (unescape w)).
Proof.
  unfold text_clause.
  change (count_sql t w)
    with (lit "SELECT COUNT(*) FROM " ++ "[" ++ t ++ "] WHERE " ++ w).
  rewrite bind_statement, unescape_statement by reflexivity. reflexivity.
Qed.

Lemma unescape_In (s : str) (c : ascii) : In c (unescape s) -> In c s.
Proof.
  induction s as [|a s IH]; cbn [unescape]; [easy|].
  destruct (is_backslash a && escaped_colon s).
  - intros H. right. now apply IH.
  - intros [->|H]; [now left|right; now apply IH].
Qed.

Lemma unescape_existsb (f : ascii -> bool) (s : str) :
  existsb f s = false -> existsb f (unescape s) = false.
Proof.
  intros H. destruct (existsb f (unescape s)) eqn:E; [|reflexivity].
  apply existsb_exists in E as (c & Hc & Hf). rewrite <- H. symmetry.
  apply existsb_exists. exists c. split; [now apply unescape_In|exact Hf].
Qed.

Lemma unescape_plain_name (name : str) :
  plain_name name = true -> plain_name (unescape name) = true.
Proof.
  unfold plain_name. intros H. apply negb_true_iff in H. apply negb_true_iff.
  now apply unescape_existsb.
Qed.

Lemma unescape_plain_term (term : str) :
  plain_term term = true -> plain_term (unescape term) = true.
Proof.
  unfold plain_term. intros H. apply negb_true_iff in H. apply negb_true_iff.
  now apply unescape_existsb.
Qed.

Lemma forallb_unescape (f : str -> bool) (l : list str) :
  (forall x, f x = true -> f (unescape x) = true) ->
  forallb f l = true -> forallb f (map unescape l) = true.
Proof.
  intros Hf H. rewrite forallb_forall in *. intros y Hy.
  apply in_map_iff in Hy as (x & <- & Hx). apply Hf. now apply H.
Qed.

Lemma verbatim_unescape (s : str) : verbatim s = true -> unescape s = s.
Proof.
  unfold verbatim. intros H. apply negb_true_iff in H.
  induction s as [|c s IH]; [reflexivity|].
  cbn [Py.contains] in H. apply orb_false_iff in H as [Hs H].
  cbn [unescape]. rewrite (IH H).
  destruct (is_backslash c && escaped_colon s) eqn:E; [|reflexivity].
  apply andb_true_iff in E as [Eb Ec].
  apply Ascii.eqb_eq in Eb. subst c.
  destruct s as [|d s]; [discriminate|].
  cbn [escaped_colon] in Ec. apply andb_true_iff in Ec as [Ec _].
  change (is_colon d) with (Ascii.eqb ":"%char d) in Ec.
  apply Ascii.eqb_eq in Ec. subst d.
  cbn in Hs. discriminate.
Qed.

Lemma colon_free_bind (s : str) (g : bool) :
  colon_free s = true -> bind_from g s = false.
Proof.
  unfold colon_free. intros H. apply negb_true_iff in H.
  revert g. induction s as [|c s IH]; intros g; [reflexivity|].
  cbn [existsb] in H. apply orb_false_iff in H as [Hc H].
  cbn [bind_from]. rewrite Hc. now apply IH.
Qed.

Lemma colon_free_verbatim (s : str) : colon_free s = true -> verbatim s = true.
Proof.
  unfold colon_free, verbatim. intros H. apply negb_true_iff in H.
  apply negb_true_iff.
  destruct (Py.contains [backslash; ":"%char] s) eqn:E; [|reflexivity].
  destruct (contains_inv _ _ E) as (pre & post & ->).
  rewrite existsb_app in H. apply orb_false_iff in H as [_ H].
  cbn in H. discriminate.
Qed.

Lemma map_unescape_verbatim (l : list str) :
  forallb verbatim l = true -> map unescape l = l.
Proof.
  induction l as [|x l IH]; [reflexivity|]. cbn [forallb map].
  intros H. apply andb_true_iff in H as [Hx H].
  now rewrite (verbatim_unescape _ Hx), IH.
Qed.

Lemma where_binds_colon_free (cols terms : list str) :
  forallb colon_free cols = true ->
  forallb colon_free terms = true ->
  where_binds cols terms = false.
Proof.
  intros Hc Ht. unfold where_binds.
  destruct (existsb _ terms) eqn:E; [|reflexivity].
  apply existsb_exists in E as (term & Hterm & E).
  apply existsb_exists in E as (col & Hcol & E).
  rewrite forallb_forall in Hc, Ht. unfold has_bind_parameter in E.
  now rewrite (colon_free_bind _ _ (Hc _ Hcol)),
              (colon_free_bind _ _ (Ht _ Hterm)) in E.
Qed.

Lemma forallb_colon_free_verbatim (l : list str) :
  forallb colon_free l = true -> forallb verbatim l = true.
Proof.
  intros H. rewrite forallb_forall in *. intros x Hx.
  apply colon_free_verbatim. now apply H.
Qed.

(** ** The statements as they are sent and read *)

(** For plain names and terms the engine reads the sample as the predicate
    that was meant; without a term the text ends after WHERE and is refused. *)
Lemma run_sql_select (db : database) (t : str) (cols terms : list str) :
  plain_name t = true ->
  cols <> [] ->
  forallb plain_name cols = true ->
  forallb plain_term terms = true ->
  run_sql db (select_sql t (where_clause cols terms))
  = match terms with
    | [] => None
    | _ :: _ =>
        run_query db {| q_kind := Sample 10; q_table := t;
                        q_where := where_groups cols terms |}
    end.
Proof.
  intros Ht Hne Hcols Hterms. unfold run_sql.
  rewrite lex_select_sql by exact Ht.
  destruct terms as [|term terms]; [reflexivity|].
  rewrite lex_where_clause; try assumption; try discriminate.
  - cbn [app parse]. rewrite parse_groups_tokens; [reflexivity|discriminate|].
    now apply where_groups_nonempty.
  - now apply plain_term_quote.
Qed.

(** With [text()] before the engine: a parameter in a name or in a term
    raises, and the engine reads the names and the terms without the
    backslashes taken off. *)
Lemma mem_execute_select (db : database) (t : str) (cols terms : list str) :
  plain_name t = true ->
  cols <> [] ->
  forallb plain_name cols = true ->
  forallb plain_term terms = true ->
  mem_execute db (select_sql t (where_clause cols terms))
  = match terms with
    | [] => None
    | _ :: _ =>
        if has_bind_parameter t || where_binds cols terms then None
        else
          run_query db {| q_kind := Sample 10; q_table := unescape t;
                          q_where := where_groups (map unescape cols)
                                       (map unescape terms) |}
    end.
Proof.
  intros Ht Hne Hcols Hterms. unfold mem_execute.
  rewrite text_select_sql, bind_where_clause, unescape_where_clause.
  destruct (has_bind_parameter t || where_binds cols terms);
    [now destruct terms|].
  rewrite run_sql_select.
  - now destruct terms.
  - now apply unescape_plain_name.
  - now destruct cols.
  - apply forallb_unescape; [apply unescape_plain_name|exact Hcols].
  - apply forallb_unescape; [apply unescape_plain_term|exact Hterms].
Qed.

(** ** LIKE with a plain term is containment *)

Lemma pattern_plain (s rest : str) :
  existsb (fun c => is_char "%" c || is_char "_" c || is_char "[" c) s = false ->
  pattern_from None (s ++ rest)
  = option_map (app (map PChar s)) (pattern_from None rest).
Proof.
  induction s as [|c s IH]; intros H.
  - simpl. now destruct (pattern_from None rest).
  - simpl in H. apply orb_false_iff in H as [Hc H].
    apply orb_false_iff in Hc as [Hc Hb]. apply orb_false_iff in Hc as [Hp Hu].
    simpl. rewrite Hp, Hu, Hb, (IH H).
    now destruct (pattern_from None rest).
Qed.

Lemma plain_term_pattern (term : str) :
  plain_term term = true ->
  pattern_from None ("%" ++ term ++ "%")
  = Some (PAny :: map PChar term ++ [PAny]).
Proof.
  intros H. unfold plain_term in H. apply negb_true_iff in H.
  assert (Hw : existsb (fun c => is_char "%" c || is_char "_" c || is_char "[" c)
                 term = false).
  { destruct (existsb _ term) eqn:E in |- *; [|reflexivity].
    apply existsb_exists in E as (c & Hc & Hw).
    rewrite <- H. symmetry. apply existsb_exists. exists c.
    split; [exact Hc|]. now rewrite Hw. }
  change ("%" ++ term ++ "%") with ("%"%char :: term ++ ["%"%char]).
  change (pattern_from None ("%"%char :: term ++ ["%"%char]))
    with (option_map (cons PAny) (pattern_from None (term ++ ["%"%char]))).
  now rewrite (pattern_plain term ["%"%char] Hw).
Qed.

Lemma like_any_unfold (p : list pelem) (s : str) :
  like_elems (PAny :: p) s
  = like_elems p s
    || match s with [] => false | _ :: s' => like_elems (PAny :: p) s' end.
Proof. destruct s; reflexivity. Qed.

Lemma like_literal_prefix (t s : str) :
  like_elems (map PChar t ++ [PAny]) s = true ->
  Py.startswith (Py.lower t) (Py.lower s) = true.
Proof.
  revert s. induction t as [|a t IH]; intros s H; [reflexivity|].
  destruct s as [|c s]; [discriminate|].
  cbn in H. apply andb_true_iff in H as [Hac H].
  cbn. unfold ci_eqb in Hac. rewrite Hac. now apply IH.
Qed.

Lemma like_literal_contains (t s : str) :
  like_elems (PAny :: map PChar t ++ [PAny]) s = true ->
  Py.contains (Py.lower t) (Py.lower s) = true.
Proof.
  induction s as [|c s IH]; rewrite like_any_unfold; intros H.
  - rewrite orb_false_r in H. apply like_literal_prefix in H.
    cbn in *. now rewrite H.
  - apply orb_true_iff in H as [H|H].
    + apply like_literal_prefix in H.
      change (Py.lower (c :: s)) with (Py.lower_char c :: Py.lower s) in *.
      cbn [Py.contains]. now rewrite H.
    + change (Py.lower (c :: s)) with (Py.lower_char c :: Py.lower s).
      cbn [Py.contains]. rewrite (IH H). apply orb_true_r.
Qed.

Lemma like_plain_term (term s : str) :
  plain_term term = true ->
  like ("%" ++ term ++ "%") s = true ->
  Py.contains (Py.lower term) (Py.lower s) = true.
Proof.
  intros Hp. unfold like. rewrite (plain_term_pattern _ Hp).
  apply like_literal_contains.
Qed.

(** ** Rows, fields and records *)

Lemma field_unknown (names : list str) (row : list value) (c : str) :
  existsb (str_eqb c) names = false -> field names row c = None.
Proof.
  revert row. induction names as [|n names IH]; intros row H; [reflexivity|].
  simpl in H. apply orb_false_iff in H as [Hn H].
  destruct row as [|v row]; [reflexivity|]. simpl. rewrite Hn. now apply IH.
Qed.

Lemma dict_get_fold (names : list str) (row : list value) (c : str) (d : dict) :
  distinct names = true ->
  dict_get c (fold_left (fun d kv => dict_set (fst kv) (snd kv) d)
                (combine names row) d)
  = match field names row c with
    | Some v => Some v
    | None => dict_get c d
    end.
Proof.
  revert row d. induction names as [|n names IH]; intros row d H; [reflexivity|].
  simpl in H. apply andb_true_iff in H as [Hn H]. apply negb_true_iff in Hn.
  destruct row as [|v row]; [reflexivity|].
  cbn [combine fold_left fst snd field]. rewrite (IH _ _ H), dict_get_set.
  destruct (str_eqb c n) eqn:E; [|reflexivity].
  apply str_eqb_eq in E. subst c. now rewrite (field_unknown _ _ _ Hn).
Qed.

Lemma dict_zip_field (names : list str) (row : list value) (c : str) :
  distinct names = true ->
  dict_get c (dict_zip names row) = field names row c.
Proof.
  intros H. unfold dict_zip. rewrite (dict_get_fold _ _ _ _ H).
  now destruct (field names row c).
Qed.

Lemma row_matches_term (names cols terms : list str) (row : list value)
  (term : str) :
  row_matches names (where_groups cols terms) row = true ->
  In term terms ->
  exists c s,
    In c cols /\ field names row c = Some (VStr s)
    /\ like ("%" ++ term ++ "%") s = true.
Proof.
  unfold row_matches, where_groups. intros H Ht.
  rewrite forallb_forall in H.
  specialize (H _ (in_map (fun term => map (atom_of term) cols) _ _ Ht)).
  apply existsb_exists in H as (a & Ha & Hh).
  apply in_map_iff in Ha as (c & <- & Hc).
  unfold atom_holds, atom_of in Hh. cbn [fst snd] in Hh.
  destruct (field names row c) as [[|s|]|] eqn:E; try discriminate.
  now exists c, s.
Qed.

Lemma In_firstn {A} (n : nat) (l : list A) (x : A) :
  In x (firstn n l) -> In x l.
Proof.
  revert l. induction n as [|n IH]; intros [|a l] H; simpl in *; try easy.
  destruct H as [->|H]; [now left|right; now apply IH].
Qed.

Lemma run_query_sample (db : database) (q : query) (n : nat) (res : result) :
  run_query db q = Some res ->
  q_kind q = Sample n ->
  exists tb,
    find_table (q_table q) db = Some tb
    /\ keys res = map col_name (mt_columns tb)
    /\ (length (fetchall res) <= n)%nat
    /\ forall row, In row (fetchall res) ->
                   row_matches (keys res) (q_where q) row = true.
Proof.
  unfold run_query. intros H Hk.
  destruct (find_table (q_table q) db) as [tb|]; [|discriminate].
  destruct (columns_known _ _); [|discriminate].
  rewrite Hk in H. injection H as <-. exists tb. cbn [keys fetchall].
  repeat split.
  - rewrite length_firstn. apply Nat.le_min_l.
  - intros row Hrow. apply In_firstn in Hrow.
    now apply filter_In in Hrow as [_ Hrow].
Qed.

Lemma find_table_In (db : database) (t : str) (tb : mem_table) :
  find_table t db = Some tb -> In tb db /\ mt_name tb = t.
Proof.
  induction db as [|u db IH]; simpl; [discriminate|].
  destruct (str_eqb t (mt_name u)) eqn:E.
  - intros [= <-]. apply str_eqb_eq in E. split; [now left|congruence].
  - intros H. destruct (IH H). split; [now right|assumption].
Qed.

Lemma string_columns_plain (cols : list column) :
  forallb plain_name (map col_name cols) = true ->
  forallb plain_name (string_columns cols) = true.
Proof.
  unfold string_columns. induction cols as [|c cols IH]; [reflexivity|].
  simpl. intros H. apply andb_true_iff in H as [Hc H].
  destruct (is_string_type c); simpl; [rewrite Hc|]; now apply IH.
Qed.

Lemma string_columns_forallb (f : str -> bool) (cols : list column) :
  forallb f (map col_name cols) = true ->
  forallb f (string_columns cols) = true.
Proof.
  unfold string_columns. induction cols as [|c cols IH]; [reflexivity|].
  simpl. intros H. apply andb_true_iff in H as [Hc H].
  destruct (is_string_type c); simpl; [rewrite Hc|]; now apply IH.
Qed.

Lemma wf_database_table (db : database) (t : str) (tb : mem_table) :
  wf_database db = true ->
  find_table t db = Some tb ->
  plain_name t = true
  /\ forallb plain_name (map col_name (mt_columns tb)) = true
  /\ distinct (map col_name (mt_columns tb)) = true.
Proof.
  intros H Etb. destruct (find_table_In _ _ _ Etb) as [Hin Hname].
  unfold wf_database in H. rewrite forallb_forall in H.
  specialize (H _ Hin). unfold wf_table in H.
  apply andb_true_iff in H as [H Hd]. apply andb_true_iff in H as [Ht Hn].
  rewrite Hname in Ht. auto.
Qed.

Lemma verbatim_database_table (db : database) (t : str) (tb : mem_table) :
  verbatim_database db = true ->
  find_table t db = Some tb ->
  verbatim t = true
  /\ forallb verbatim (string_columns (mt_columns tb)) = true.
Proof.
  intros H Etb. destruct (find_table_In _ _ _ Etb) as [Hin Hname].
  unfold verbatim_database in H. rewrite forallb_forall in H.
  specialize (H _ Hin). cbn [names_of forallb] in H.
  apply andb_true_iff in H as [Ht Hc]. rewrite Hname in Ht.
  split; [exact Ht|now apply string_columns_forallb].
Qed.

(** ** Every term in every record *)

(** A lone wildcard, a one-character wildcard, a bracketed set and a quote
    that closes the literal each bring back the row of [contacts_db], none of
    whose values contains the term. *)
Lemma wildcard_term_counterexample :
  Py.split "%" = ["%" : str]
  /\ fst (search_all_tables (mem_store contacts_db) "%" 10)
     = Some [ {| table := "Contacts";
                 count := VInt 1;
                 columns := ["FirstName" : str; "Age" : str];
                 records := [ [("FirstName" : str, VStr "Linda");
                               ("Age" : str, VInt 40)] ] |} ]
  /\ forallb (fun kv => negb (value_contains "%" (snd kv)))
       [("FirstName" : str, VStr "Linda"); ("Age" : str, VInt 40)] = true
  /\ Forall (fun term : str =>
               fst (search_all_tables (mem_store contacts_db) term 10)
               = fst (search_all_tables (mem_store contacts_db) "%" 10)
               /\ Py.split term = [term]
               /\ forallb (fun kv => negb (value_contains term (snd kv)))
                    [("FirstName" : str, VStr "Linda"); ("Age" : str, VInt 40)]
                  = true)
       ["L_nda" : str; "[k-m]inda" : str; "x'OR[FirstName]LIKE'" : str].
Proof.
  split; [vm_compute; reflexivity|].
  split; [vm_compute; reflexivity|].
  split; [vm_compute; reflexivity|].
  repeat (apply Forall_cons; [repeat split; vm_compute; reflexivity|]).
  apply Forall_nil.
Qed.

(** A column name that closes its bracket rewrites the predicate as a term
    does: the row comes back for a term that none of its values contains. *)
Example bracket_name_example :
  wf_database bracket_db = false
  /\ option_map (map records)
       (fst (search_all_tables (mem_store bracket_db) "zzz" 10))
     = Some [ [ [("a" : str, VStr "Linda");
                 ("a] LIKE '%' OR [a" : str, VStr "Smith")] ] ].
Proof. split; vm_compute; reflexivity. Qed.

(** A backslash before a colon is taken off by [text()]: the term [a],
    backslash, colon, [b] is searched as [a:b] and brings back the note that
    holds [a:b], whose text does not contain the term. *)
Example escaped_colon_example :
  Py.split escaped_term = [escaped_term]
  /\ plain_term escaped_term = true
  /\ verbatim escaped_term = false
  /\ text_clause (col_condition escaped_term "Body")
     = Some (col_condition "a:b" "Body")
  /\ option_map (map records)
       (fst (search_all_tables (mem_store notes_db) escaped_term 10))
     = Some [ [ [("Body" : str, VStr "ratio a:b")] ] ]
  /\ value_contains escaped_term (VStr "ratio a:b") = false.
Proof. repeat split; vm_compute; reflexivity. Qed.

(** A colon before a word is read as a parameter without a value: the
    statement raises, and the note that holds the term is not found. *)
Example bind_parameter_example :
  plain_term ":Linda" = true
  /\ text_clause (col_condition ":Linda" "Body") = None
  /\ fst (search_all_tables (mem_store notes_db) ":Linda" 10) = Some []
  /\ value_contains ":Linda" (VStr "ask :Linda") = true.
Proof. repeat split; vm_compute; reflexivity. Qed.

(** C1, amended.  Against a store whose table and column names hold no
    closing bracket and no backslash before a colon, and whose tables name
    each column once, and for a phrase none of whose terms holds [%], [_], an
    opening bracket, a quote or a backslash before a colon: every record of
    every entry of the answer has, for every term of the phrase, a text
    column of its table whose value in the record contains the term, letter
    case aside. *)
Theorem records_contain_every_term (db : database) (search_term : str) (b : Z)
  (found : list table_result) (m : table_result) (record : dict) (term : str) :
  wf_database db = true ->
  verbatim_database db = true ->
  forallb plain_term (Py.split search_term) = true ->
  forallb verbatim (Py.split search_term) = true ->
  fst (search_all_tables (mem_store db) search_term b) = Some found ->
  In m found ->
  In record (records m) ->
  In term (Py.split search_term) ->
  exists cols c s,
    get_columns (mem_store db) (table m) = Some cols
    /\ In c (string_columns cols)
    /\ dict_get c record = Some (VStr s)
    /\ value_contains term (VStr s) = true.
Proof.
  intros Hwf Hverb Hplain Hsent Hfound Hm Hrec Hterm.
  destruct (search_member _ _ _ _ _ Hfound Hm) as (t & Ho).
  destruct (outcome_found _ _ _ _ Ho) as (cols & Hcols & Hsc & Hscan).
  destruct (scan_found _ _ _ _ Hscan) as (res & cres & Hsel & _ & _ & ->).
  cbn [table records] in *.
  cbn [get_columns mem_store] in Hcols.
  destruct (find_table t db) as [tb|] eqn:Etb; [|discriminate].
  injection Hcols as <-.
  destruct (find_table_In _ _ _ Etb) as [Hin Hname].
  destruct (verbatim_database_table _ _ _ Hverb Etb) as [Hvt Hvc].
  unfold wf_database in Hwf. rewrite forallb_forall in Hwf.
  specialize (Hwf _ Hin). unfold wf_table in Hwf.
  apply andb_true_iff in Hwf as [Hwf Hdistinct].
  apply andb_true_iff in Hwf as [Ht Hnames]. rewrite Hname in Ht.
  cbn [execute mem_store] in Hsel.
  rewrite mem_execute_select in Hsel;
    [|exact Ht|exact Hsc|now apply string_columns_plain|exact Hplain].
  rewrite (verbatim_unescape _ Hvt), (map_unescape_verbatim _ Hvc),
    (map_unescape_verbatim _ Hsent) in Hsel.
  destruct (Py.split search_term) as [|t0 terms] eqn:Eterms; [now destruct Hterm|].
  destruct (has_bind_parameter t || where_binds _ _); [discriminate|].
  apply (run_query_sample _ _ 10) in Hsel as (tb' & Etb' & Hkeys & _ & Hrows);
    [|reflexivity].
  cbn [q_table q_where] in *. rewrite Etb in Etb'. injection Etb' as <-.
  apply in_map_iff in Hrec as (row & <- & Hrow).
  specialize (Hrows _ Hrow).
  destruct (row_matches_term _ _ _ _ _ Hrows Hterm) as (c & s & Hc & Hf & Hl).
  exists (mt_columns tb), c, s.
  split; [cbn [get_columns mem_store]; now rewrite Etb|].
  split; [exact Hc|]. split.
  - rewrite Hkeys in *. now rewrite dict_zip_field.
  - unfold value_contains. cbn [str_of_value].
    apply like_plain_term; [|exact Hl].
    rewrite forallb_forall in Hplain. now apply Hplain.
Qed.

Lemma records_contain_every_term_witness :
  exists cols c s,
    get_columns (mem_store people_db) "People" = Some cols
    /\ In c (string_columns cols)
    /\ dict_get c [("FirstName" : str, VStr "Ann");
                   ("LastName" : str, VStr "MARKHAM elinski")]
       = Some (VStr s)
    /\ value_contains "Mark" (VStr s) = true.
Proof.
  apply (records_contain_every_term people_db "Mark Elinski" 10
           [ {| table := "People";
                count := VInt 2;
                columns := ["FirstName" : str; "LastName" : str];
                records := [ [("FirstName" : str, VStr "Mark");
                              ("LastName" : str, VStr "Elinski")];
                             [("FirstName" : str, VStr "Ann");
                              ("LastName" : str, VStr "MARKHAM elinski")] ] |} ]
           {| table := "People";
              count := VInt 2;
              columns := ["FirstName" : str; "LastName" : str];
              records := [ [("FirstName" : str, VStr "Mark");
                            ("LastName" : str, VStr "Elinski")];
                           [("FirstName" : str, VStr "Ann");
                            ("LastName" : str, VStr "MARKHAM elinski")] ] |}
           [("FirstName" : str, VStr "Ann");
            ("LastName" : str, VStr "MARKHAM elinski")]
           "Mark").
  - reflexivity.
  - reflexivity.
  - reflexivity.
  - reflexivity.
  - vm_compute. reflexivity.
  - simpl. auto.
  - simpl. auto.
  - simpl. auto.
Defined.

(** P6: the row in which "Elinski" is nowhere is not matched, although
    "Mark" is in it. *)
Example mark_elinski_not_jones :
  fst (search_all_tables (mem_store jones_db) "Mark Elinski" 10) = Some []
  /\ option_map (map count) (fst (search_all_tables (mem_store jones_db) "Mark" 10))
     = Some [VInt 1].
Proof. split; vm_compute; reflexivity. Qed.

(** ** Sample and count *)

(** With a row in the sample and the count raising, no entry is made. *)
Lemma count_fault_counterexample :
  exists res,
    execute count_fails
      (select_sql "Contacts" (where_clause ["FirstName" : str] ["Linda" : str]))
    = Some res
    /\ fetchall res = [ [VStr "Linda"; VInt 40] ]
    /\ fst (try_pass (scan count_fails "Contacts"
                        (where_clause ["FirstName" : str] ["Linda" : str])))
       = None.
Proof.
  eexists. split; [vm_compute; reflexivity|].
  split; vm_compute; reflexivity.
Qed.

(** C4, amended.  A scan makes no entry exactly when the sample raises,
    returns no row, or returns a row and the count raises.  An entry holds
    the rows the sample returned, one record each, and as its count the
    answer to the count statement built from the same predicate.  On the
    in-memory store the sample is held to ten rows while the count is not:
    eleven matching rows give ten records and a count of 11. *)
Theorem scan_entry (st : Store) (t w : str) :
  (fst (try_pass (scan st t w)) = None <->
     execute st (select_sql t w) = None
     \/ exists res,
          execute st (select_sql t w) = Some res
          /\ (fetchall res = [] \/ execute st (count_sql t w) = None))
  /\ (forall m,
        fst (try_pass (scan st t w)) = Some m ->
        exists res cres,
          execute st (select_sql t w) = Some res
          /\ fetchall res <> []
          /\ execute st (count_sql t w) = Some cres
          /\ table m = t
          /\ count m = scalar cres
          /\ records m = map (dict_zip (keys res)) (fetchall res)
          /\ length (records m) = length (fetchall res))
  /\ (forall db m,
        fst (try_pass (scan (mem_store db) t w)) = Some m ->
        (length (records m) <= 10)%nat)
  /\ (exists m,
        outcome (mem_store crowd_db) ["Linda" : str] "Crowd" = Some m
        /\ count m = VInt 11
        /\ length (records m) = 10%nat).
Proof.
  split; [|split; [|split]].
  - unfold scan, bind, call.
    destruct (execute st (select_sql t w)) as [res|]; [|now split; auto].
    destruct (fetchall res) as [|row rows] eqn:Erows.
    + split; [|reflexivity]. intros _. right. exists res. auto.
    + destruct (execute st (count_sql t w)) as [cres|].
      * split; [discriminate|].
        intros [H|(res' & [= <-] & [H|H])]; congruence.
      * split; [|reflexivity]. intros _. right. exists res. auto.
  - intros m Hm.
    destruct (scan_found _ _ _ _ Hm) as (res & cres & Hs & Hr & Hc & ->).
    exists res, cres. cbn [table count records].
    now rewrite length_map.
  - intros db m Hm.
    destruct (scan_found _ _ _ _ Hm) as (res & cres & Hs & _ & _ & ->).
    cbn [records]. rewrite length_map.
    cbn [execute mem_store] in Hs. unfold mem_execute in Hs.
    rewrite text_select_sql in Hs.
    destruct (has_bind_parameter t || has_bind_parameter w); [discriminate|].
    unfold run_sql in Hs.
    destruct (lex (select_sql (unescape t) (unescape w))) as [ts|] eqn:El;
      [|discriminate].
    destruct (parse ts) as [q|] eqn:Ep; [|discriminate].
    pose proof (select_sql_is_top_10 _ _ _ _ El Ep) as Hk.
    now destruct (run_query_sample _ _ _ _ Hs Hk) as (_ & _ & _ & Hlen & _).
  - eexists. split; [vm_compute; reflexivity|].
    split; reflexivity.
Qed.

(** * Further properties of the scripts *)

(** ** The answer as a prefix of the matches *)

Lemma collect_entries (b : Z) (outs : list (option table_result))
  (found : list table_result) :
  Z.of_nat (length found) <= b ->
  collect b outs found
  = found ++ firstn (Z.to_nat b - length found) (entries outs).
Proof.
  revert found. induction outs as [|o outs IH]; intros found H; simpl.
  - now rewrite firstn_nil, app_nil_r.
  - destruct (Z.of_nat (length found) >=? b) eqn:E.
    + apply geb_true in E.
      replace (Z.to_nat b - length found)%nat with 0%nat by lia.
      now rewrite firstn_O, app_nil_r.
    + apply geb_false in E. destruct o as [m|]; simpl.
      * rewrite IH by (rewrite length_app; simpl; lia).
        rewrite length_app. simpl.
        replace (Z.to_nat b - length found)%nat
          with (S (Z.to_nat b - (length found + 1)))%nat by lia.
        simpl. now rewrite <- app_assoc.
      * now apply IH.
Qed.

Lemma collect_firstn (b : Z) (outs : list (option table_result)) :
  collect b outs [] = firstn (Z.to_nat b) (entries outs).
Proof.
  destruct (Z.leb_spec 0 b) as [H|H].
  - rewrite collect_entries by (simpl; lia). simpl. now rewrite Nat.sub_0_r.
  - replace (Z.to_nat b) with 0%nat by lia. rewrite firstn_O.
    destruct outs as [|o outs]; [reflexivity|]. simpl.
    destruct (0 >=? b) eqn:E; [reflexivity|]. apply geb_false in E. lia.
Qed.

Lemma search_person_loop_entries (st : Store) (terms tables : list str)
  (found : list table_result) :
  fst (search_person_loop st terms tables found)
  = found ++ entries (map (outcome st terms) tables).
Proof.
  revert found. induction tables as [|t tables IH]; intros found; simpl.
  - now rewrite app_nil_r.
  - unfold outcome at 1.
    destruct (try_pass (scan_table st terms t)) as [o tr]. simpl.
    specialize (IH (append_found found o)).
    destruct (search_person_loop st terms tables (append_found found o))
      as [res tr'].
    simpl in *. rewrite IH. destruct o; simpl; [|reflexivity].
    now rewrite <- app_assoc.
Qed.

Lemma search_person_found (st : Store) (search_name : str) (tables : list str) :
  get_table_names st = Some tables ->
  fst (search_person st search_name)
  = Some (entries (map (outcome st (Py.split search_name)) tables)).
Proof.
  intros H. unfold search_person, bind, call. rewrite H.
  pose proof (search_person_loop_entries st (Py.split search_name) tables [])
    as E.
  destruct (search_person_loop st (Py.split search_name) tables []) as [res tr].
  simpl in *. now rewrite E.
Qed.

Lemma entries_In (outs : list (option table_result)) (m : table_result) :
  In m (entries outs) <-> In (Some m) outs.
Proof.
  induction outs as [|[m'|] outs IH]; simpl.
  - tauto.
  - rewrite IH. split; intros [H|H]; auto; left; congruence.
  - rewrite IH. split; [auto|]. intros [H|H]; [discriminate|exact H].
Qed.

Lemma entries_tables (st : Store) (terms tables : list str) :
  map table (entries (map (outcome st terms) tables))
  = filter (matching st terms) tables.
Proof.
  induction tables as [|t tables IH]; [reflexivity|].
  simpl. unfold matching at 1.
  destruct (outcome st terms t) as [m|] eqn:E; simpl; [|exact IH].
  now rewrite IH, (outcome_table _ _ _ _ E).
Qed.

Lemma search_member_catalog (st : Store) (search_term : str) (b : Z)
  (tables : list str) (found : list table_result) (m : table_result) :
  get_table_names st = Some tables ->
  fst (search_all_tables st search_term b) = Some found ->
  In m found ->
  exists t, In t tables /\ outcome st (Py.split search_term) t = Some m.
Proof.
  intros Ht Hf Hm. rewrite (search_found _ _ _ _ Ht) in Hf.
  injection Hf as <-. rewrite collect_firstn in Hm.
  apply In_firstn in Hm. apply entries_In in Hm.
  apply in_map_iff in Hm as (t & E & Hin). now exists t.
Qed.

(** X3. Whatever the budget, [search_all_tables] answers the first
    [max_tables] entries of what search_person.py finds for the same phrase,
    and none when the budget is zero or negative. *)
Theorem search_is_prefix_of_search_person (st : Store) (phrase : str) (b : Z)
  (tables : list str) :
  get_table_names st = Some tables ->
  exists all,
    fst (search_person st phrase) = Some all
    /\ fst (search_all_tables st phrase b) = Some (firstn (Z.to_nat b) all)
    /\ (b <= 0 -> fst (search_all_tables st phrase b) = Some []).
Proof.
  intros H. exists (entries (map (outcome st (Py.split phrase)) tables)).
  split; [now apply search_person_found|].
  rewrite (search_found _ _ _ _ H), collect_firstn.
  split; [reflexivity|]. intros Hb.
  now replace (Z.to_nat b) with 0%nat by lia.
Qed.

Lemma search_is_prefix_of_search_person_witness :
  exists all,
    fst (search_person (mem_store two_tables_db) "Mark") = Some all
    /\ fst (search_all_tables (mem_store two_tables_db) "Mark" 1)
       = Some (firstn (Z.to_nat 1) all)
    /\ (1 <= 0 ->
        fst (search_all_tables (mem_store two_tables_db) "Mark" 1) = Some []).
Proof.
  apply (search_is_prefix_of_search_person (mem_store two_tables_db) "Mark" 1
           (map mt_name two_tables_db)).
  reflexivity.
Defined.

(** X2. The tables of the answer are the first [max_tables] tables of the
    catalog whose scan leaves an entry, in the order of the catalog. *)
Theorem answer_tables_in_catalog_order (st : Store) (phrase : str) (b : Z)
  (tables : list str) (found : list table_result) :
  get_table_names st = Some tables ->
  fst (search_all_tables st phrase b) = Some found ->
  map table found
  = firstn (Z.to_nat b) (filter (matching st (Py.split phrase)) tables).
Proof.
  intros Ht Hf. rewrite (search_found _ _ _ _ Ht) in Hf. injection Hf as <-.
  now rewrite collect_firstn, <- firstn_map, entries_tables.
Qed.

Lemma answer_tables_in_catalog_order_witness :
  map table
    [ {| table := "People";
         count := VInt 3;
         columns := ["FirstName" : str; "LastName" : str];
         records := [ [("FirstName" : str, VStr "Mark");
                       ("LastName" : str, VStr "Jones")];
                      [("FirstName" : str, VStr "Mark");
                       ("LastName" : str, VStr "Elinski")];
                      [("FirstName" : str, VStr "Ann");
                       ("LastName" : str, VStr "MARKHAM elinski")] ] |} ]
  = firstn (Z.to_nat 10)
      (filter (matching (mem_store numbers_db) (Py.split "Mark"))
         (map mt_name numbers_db)).
Proof.
  apply (answer_tables_in_catalog_order (mem_store numbers_db) "Mark" 10).
  - reflexivity.
  - vm_compute. reflexivity.
Defined.

(** ** The shape of an entry *)

Lemma dict_set_keys (k : str) (v : value) (d : dict) :
  map fst (dict_set k v d)
  = if existsb (str_eqb k) (map fst d) then map fst d else map fst d ++ [k].
Proof.
  induction d as [|[k' v'] d IH]; simpl; [reflexivity|].
  destruct (str_eqb k k') eqn:E; simpl; [reflexivity|].
  rewrite IH. now destruct (existsb (str_eqb k) (map fst d)).
Qed.

Lemma existsb_str_eqb (k : str) (l : list str) :
  existsb (str_eqb k) l = true <-> In k l.
Proof.
  rewrite existsb_exists. split.
  - intros (x & Hx & E). apply str_eqb_eq in E. now subst.
  - intros H. exists k. split; [exact H|apply str_eqb_refl].
Qed.

Lemma dict_set_NoDup (k : str) (v : value) (d : dict) :
  NoDup (map fst d) -> NoDup (map fst (dict_set k v d)).
Proof.
  intros H. rewrite dict_set_keys.
  destruct (existsb (str_eqb k) (map fst d)) eqn:E; [exact H|].
  apply NoDup_app; [exact H|repeat constructor; now intros []|].
  intros x Hx [<-|[]].
  apply existsb_str_eqb in Hx. congruence.
Qed.

Lemma dict_set_incl (k : str) (v : value) (d : dict) :
  incl (map fst (dict_set k v d)) (map fst d ++ [k]).
Proof.
  rewrite dict_set_keys.
  destruct (existsb (str_eqb k) (map fst d)).
  - apply incl_appl, incl_refl.
  - apply incl_refl.
Qed.

Lemma dict_fold_keys (kvs : list (str * value)) (d : dict) :
  NoDup (map fst d) ->
  NoDup (map fst (fold_left (fun d kv => dict_set (fst kv) (snd kv) d) kvs d))
  /\ incl (map fst (fold_left (fun d kv => dict_set (fst kv) (snd kv) d) kvs d))
          (map fst d ++ map fst kvs).
Proof.
  revert d. induction kvs as [|[k v] kvs IH]; intros d H; simpl.
  - split; [exact H|]. rewrite app_nil_r. apply incl_refl.
  - destruct (IH (dict_set k v d) (dict_set_NoDup k v d H)) as [Hn Hi].
    split; [exact Hn|].
    intros x Hx. apply Hi in Hx. apply in_app_iff in Hx as [Hx|Hx].
    + apply dict_set_incl in Hx. apply in_app_iff in Hx as [Hx|[<-|[]]];
        apply in_app_iff; [now left|right; now left].
    + apply in_app_iff. right. now right.
Qed.

Lemma dict_zip_keys (names : list str) (row : list value) :
  NoDup (map fst (dict_zip names row))
  /\ incl (map fst (dict_zip names row)) names.
Proof.
  destruct (dict_fold_keys (combine names row) [] (NoDup_nil _)) as [Hn Hi].
  split; [exact Hn|]. intros x Hx. apply Hi in Hx. simpl in Hx.
  apply in_map_iff in Hx as ([k v] & <- & Hkv).
  now apply in_combine_l in Hkv.
Qed.

(** X1. Every entry of an answer names a table of the catalog that has a
    text column, holds at least one record, and each of its records has
    distinct keys, all of them among the entry's columns. *)
Theorem entries_are_well_formed (st : Store) (phrase : str) (b : Z)
  (tables : list str) (found : list table_result) (m : table_result) :
  get_table_names st = Some tables ->
  fst (search_all_tables st phrase b) = Some found ->
  In m found ->
  In (table m) tables
  /\ (exists cols,
        get_columns st (table m) = Some cols /\ string_columns cols <> [])
  /\ records m <> []
  /\ forall record,
       In record (records m) ->
       NoDup (map fst record) /\ incl (map fst record) (columns m).
Proof.
  intros Ht Hf Hm.
  destruct (search_member_catalog _ _ _ _ _ _ Ht Hf Hm) as (t & Hin & Ho).
  destruct (outcome_found _ _ _ _ Ho) as (cols & Hcols & Hsc & Hscan).
  destruct (scan_found _ _ _ _ Hscan) as (res & cres & _ & Hrows & _ & ->).
  cbn [table records columns].
  split; [exact Hin|]. split; [now exists cols|]. split.
  - destruct (fetchall res); [now destruct Hrows|discriminate].
  - intros record Hrec. apply in_map_iff in Hrec as (row & <- & _).
    apply dict_zip_keys.
Qed.

Lemma entries_are_well_formed_witness :
  In ("Contacts" : str) (map mt_name contacts_db)
  /\ (exists cols,
        get_columns (mem_store contacts_db) "Contacts" = Some cols
        /\ string_columns cols <> [])
  /\ [ [("FirstName" : str, VStr "Linda"); ("Age" : str, VInt 40)] ] <> []
  /\ forall record,
       In record [ [("FirstName" : str, VStr "Linda"); ("Age" : str, VInt 40)] ] ->
       NoDup (map fst record)
       /\ incl (map fst record) ["FirstName" : str; "Age" : str].
Proof.
  apply (entries_are_well_formed (mem_store contacts_db) "Linda" 10
           (map mt_name contacts_db)
           [ {| table := "Contacts";
                count := VInt 1;
                columns := ["FirstName" : str; "Age" : str];
                records := [ [("FirstName" : str, VStr "Linda");
                              ("Age" : str, VInt 40)] ] |} ]
           {| table := "Contacts";
              count := VInt 1;
              columns := ["FirstName" : str; "Age" : str];
              records := [ [("FirstName" : str, VStr "Linda");
                            ("Age" : str, VInt 40)] ] |}).
  - reflexivity.
  - vm_compute. reflexivity.
  - now left.
Defined.

(** ** The calls of a search *)

Lemma calls_for_cases (st : Store) (terms : list str) (t : str) :
  calls_for st terms t = [GetColumns t]
  \/ exists cols,
       get_columns st t = Some cols
       /\ string_columns cols <> []
       /\ (calls_for st terms t
           = [GetColumns t;
              Execute (select_sql t (where_clause (string_columns cols) terms))]
           \/ calls_for st terms t
              = [GetColumns t;
                 Execute (select_sql t (where_clause (string_columns cols) terms));
                 Execute (count_sql t (where_clause (string_columns cols) terms))]).
Proof.
  unfold calls_for, scan_table, scan, bind, call.
  destruct (get_columns st t) as [cols|]; [|now left].
  destruct (string_columns cols) as [|c sc] eqn:Esc; [now left|].
  right. exists cols. rewrite Esc. split; [reflexivity|]. split; [discriminate|].
  destruct (execute st (select_sql t (where_clause (c :: sc) terms))) as [res|];
    [|now left].
  destruct (fetchall res); [now left|].
  destruct (execute st (count_sql t (where_clause (c :: sc) terms)));
    now right.
Qed.

Lemma search_loop_calls (st : Store) (terms : list str) (b : Z)
  (tables : list str) (found : list table_result) :
  exists n,
    (n <= length tables)%nat
    /\ snd (search_loop st terms b tables found)
       = flat_map (calls_for st terms) (firstn n tables).
Proof.
  revert found. induction tables as [|t tables IH]; intros found; simpl.
  - exists 0%nat. now split.
  - destruct (Z.of_nat (length found) >=? b).
    + exists 0%nat. split; [lia|reflexivity].
    + destruct (try_pass (scan_table st terms t)) as [o tr] eqn:Etp.
      destruct (IH (append_found found o)) as (n & Hn & E).
      destruct (search_loop st terms b tables (append_found found o))
        as [res tr'].
      exists (S n). split; [simpl; lia|]. cbn [firstn flat_map snd] in *.
      unfold calls_for at 1. rewrite Etp. cbn [snd]. now rewrite E.
Qed.

Lemma flat_map_length_le {A B} (f : A -> list B) (k : nat) (l : list A) :
  (forall x, length (f x) <= k)%nat ->
  (length (flat_map f l) <= k * length l)%nat.
Proof.
  intros H. induction l as [|x l IH]; simpl; [lia|].
  rewrite length_app. specialize (H x). lia.
Qed.

(** X4. A search lists the tables once and then works through a prefix
    of the catalog, table by table in its order.  For one table it lists the
    columns and then executes nothing, or the sample alone, or the sample and
    then the count over the same predicate; so it makes at most one call plus
    three per table. *)
Theorem search_calls (st : Store) (phrase : str) (b : Z) (tables : list str) :
  get_table_names st = Some tables ->
  (exists n,
     (n <= length tables)%nat
     /\ snd (search_all_tables st phrase b)
        = GetTableNames
          :: flat_map (calls_for st (Py.split phrase)) (firstn n tables))
  /\ (forall t,
        calls_for st (Py.split phrase) t = [GetColumns t]
        \/ exists cols,
             get_columns st t = Some cols
             /\ string_columns cols <> []
             /\ let predicate :=
                  where_clause (string_columns cols) (Py.split phrase) in
                (calls_for st (Py.split phrase) t
                 = [GetColumns t; Execute (select_sql t predicate)]
                 \/ calls_for st (Py.split phrase) t
                    = [GetColumns t; Execute (select_sql t predicate);
                       Execute (count_sql t predicate)]))
  /\ (length (snd (search_all_tables st phrase b)) <= 1 + 3 * length tables)%nat.
Proof.
  intros Ht. rewrite (search_all_tables_eq _ _ _ _ Ht). cbn [snd].
  destruct (search_loop_calls st (Py.split phrase) b tables []) as (n & Hn & E).
  split; [exists n; split; [exact Hn|now rewrite E]|].
  split; [intros t; apply calls_for_cases|].
  rewrite E. cbn [length].
  pose proof (flat_map_length_le (calls_for st (Py.split phrase)) 3
                (firstn n tables)) as Hlen.
  rewrite length_firstn in Hlen.
  assert (forall t, (length (calls_for st (Py.split phrase) t) <= 3)%nat).
  { intros t.
    destruct (calls_for_cases st (Py.split phrase) t)
      as [->|(cols & _ & _ & [->| ->])]; simpl; lia. }
  specialize (Hlen H). lia.
Qed.

Lemma search_calls_witness :
  (exists n,
     (n <= length (map mt_name two_tables_db))%nat
     /\ snd (search_all_tables (mem_store two_tables_db) "Mark" 1)
        = GetTableNames
          :: flat_map (calls_for (mem_store two_tables_db) (Py.split "Mark"))
               (firstn n (map mt_name two_tables_db)))
  /\ (forall t,
        calls_for (mem_store two_tables_db) (Py.split "Mark") t = [GetColumns t]
        \/ exists cols,
             get_columns (mem_store two_tables_db) t = Some cols
             /\ string_columns cols <> []
             /\ let predicate :=
                  where_clause (string_columns cols) (Py.split "Mark") in
                (calls_for (mem_store two_tables_db) (Py.split "Mark") t
                 = [GetColumns t; Execute (select_sql t predicate)]
                 \/ calls_for (mem_store two_tables_db) (Py.split "Mark") t
                    = [GetColumns t; Execute (select_sql t predicate);
                       Execute (count_sql t predicate)]))
  /\ (length (snd (search_all_tables (mem_store two_tables_db) "Mark" 1))
      <= 1 + 3 * length (map mt_name two_tables_db))%nat.
Proof.
  apply (search_calls (mem_store two_tables_db) "Mark" 1
           (map mt_name two_tables_db)).
  reflexivity.
Defined.

(** ** A phrase without a term *)

Lemma split_blank (s : str) : forallb Py.isspace s = true -> Py.split s = [].
Proof.
  unfold Py.split. induction s as [|c s IH]; [reflexivity|].
  simpl. intros H. apply andb_true_iff in H as [Hc H]. rewrite Hc. now apply IH.
Qed.

(** A statement that stops after WHERE is refused. *)
Lemma run_sql_no_predicate (db : database) (t : str) :
  plain_name t = true -> run_sql db (select_sql t []) = None.
Proof.
  intros Ht. unfold run_sql. rewrite lex_select_sql by exact Ht. reflexivity.
Qed.

Lemma outcome_no_term (db : database) (t : str) :
  wf_database db = true -> outcome (mem_store db) [] t = None.
Proof.
  intros Hwf. unfold outcome, scan_table, scan, bind, call.
  cbn [get_columns mem_store].
  destruct (find_table t db) as [tb|] eqn:Etb; [|reflexivity].
  cbn [option_map].
  destruct (string_columns (mt_columns tb)) as [|c sc]; [reflexivity|].
  change (where_clause (c :: sc) []) with (@nil ascii).
  cbn [execute mem_store]. unfold mem_execute. rewrite text_select_sql.
  destruct (has_bind_parameter t || has_bind_parameter []); [reflexivity|].
  change (unescape []) with (@nil ascii).
  rewrite run_sql_no_predicate; [reflexivity|].
  apply unescape_plain_name.
  now destruct (wf_database_table _ _ _ Hwf Etb) as (Ht & _).
Qed.

(** X5. For a phrase that is empty or all whitespace there is no term, the
    predicate is the empty text and each statement stops after WHERE.
    Against an in-memory database whose names hold no closing bracket, the
    names for which the statement is this text to the server too, every such
    statement is refused and the answer is the empty list, whatever the
    budget. *)
Theorem blank_phrase_finds_nothing (db : database) (phrase : str) (b : Z) :
  forallb Py.isspace phrase = true ->
  wf_database db = true ->
  Py.split phrase = []
  /\ (forall string_cols t,
        select_sql t (where_clause string_cols (Py.split phrase))
        = "SELECT TOP 10 * FROM [" ++ t ++ "] WHERE ")
  /\ fst (search_all_tables (mem_store db) phrase b) = Some [].
Proof.
  intros H Hwf. pose proof (split_blank _ H) as Hs. rewrite Hs.
  split; [reflexivity|]. split.
  - intros string_cols t. unfold select_sql. cbn [where_clause map Py.join].
    now rewrite app_nil_r.
  - rewrite (search_found (mem_store db) phrase b (map mt_name db) eq_refl), Hs.
    f_equal. apply collect_all_none. apply Forall_forall.
    intros o Ho. apply in_map_iff in Ho as (t & <- & _).
    now apply outcome_no_term.
Qed.

Lemma blank_phrase_finds_nothing_witness :
  Py.split "  " = []
  /\ (forall string_cols t,
        select_sql t (where_clause string_cols (Py.split "  "))
        = "SELECT TOP 10 * FROM [" ++ t ++ "] WHERE ")
  /\ fst (search_all_tables (mem_store people_db) "  " 10) = Some [].
Proof.
  apply (blank_phrase_finds_nothing people_db "  " 10); reflexivity.
Defined.

(** ** combine_results *)

(** X6. [combine_results] goes through the entries in order: combining two
    lists of entries one after the other gives the records, and the names,
    of the first followed by those of the second; there are as many records
    as the entries hold together, one name per entry, and no record at all
    exactly when every entry is without one. *)
Theorem combine_results_composes (a b : list table_result) :
  combine_results (a ++ b)
  = (fst (combine_results a) ++ fst (combine_results b),
     snd (combine_results a) ++ snd (combine_results b))
  /\ length (fst (combine_results a))
     = list_sum (map (fun r => length (records r)) a)
  /\ length (snd (combine_results a)) = length a
  /\ (fst (combine_results a) = [] <-> forall r, In r a -> records r = []).
Proof.
  unfold combine_results. cbn [fst snd].
  split; [now rewrite flat_map_app, map_app|].
  split; [|split; [apply length_map|]].
  - induction a as [|r a IH]; [reflexivity|].
    cbn [flat_map map list_sum]. now rewrite length_app, length_map, IH.
  - induction a as [|r a IH]; cbn [flat_map].
    + split; [intros _ r []|reflexivity].
    + split.
      * intros H. apply app_eq_nil in H as [Hr Ha].
        intros r' [<-|Hin]; [|now apply IH].
        now destruct (records r).
      * intros H. rewrite (H r (or_introl eq_refl)). simpl.
        apply IH. intros r' Hr'. apply H. now right.
Qed.

Lemma dict_set_absent (k : str) (v : value) (d : dict) :
  dict_get k d = None -> dict_set k v d = d ++ [(k, v)].
Proof.
  induction d as [|[k' v'] d IH]; simpl; [reflexivity|].
  destruct (str_eqb k k'); [discriminate|]. intros H. now rewrite IH.
Qed.

Lemma dict_set_present (k : str) (v : value) (d : dict) :
  dict_get k d <> None -> map fst (dict_set k v d) = map fst d.
Proof.
  induction d as [|[k' v'] d IH]; simpl; [now intros []|].
  destruct (str_eqb k k'); [reflexivity|]. intros H. simpl. now rewrite IH.
Qed.

Lemma dict_set_twice (k : str) (v v' : value) (d : dict) :
  dict_set k v (dict_set k v' d) = dict_set k v d.
Proof.
  induction d as [|[k0 v0] d IH]; simpl.
  - now rewrite str_eqb_refl.
  - destruct (str_eqb k k0) eqn:E; simpl; rewrite E; [reflexivity|].
    now rewrite IH.
Qed.

(** X7. Tagging a record that has no [_source_table] field puts the field
    last and leaves the rest as it was; tagging one that has the field
    replaces its value where it stands, keys and their order unchanged; and
    of two tags in a row the later one stays. *)
Theorem tag_record_shape (t t' : str) (record : dict) :
  (dict_has "_source_table" record = false ->
   tag_record t record = record ++ [("_source_table" : str, VStr t)])
  /\ (dict_has "_source_table" record = true ->
      map fst (tag_record t record) = map fst record
      /\ length (tag_record t record) = length record)
  /\ tag_record t (tag_record t' record) = tag_record t record.
Proof.
  unfold tag_record, dict_has. split; [|split].
  - destruct (dict_get "_source_table" record) eqn:E; [discriminate|].
    intros _. now apply dict_set_absent.
  - destruct (dict_get "_source_table" record) eqn:E; [|discriminate].
    intros _.
    assert (Hk : map fst (dict_set "_source_table" (VStr t) record)
                 = map fst record)
      by (apply dict_set_present; congruence).
    split; [exact Hk|].
    now rewrite <- (length_map fst), Hk, length_map.
  - apply dict_set_twice.
Qed.

Lemma tag_record_shape_witness :
  (dict_has "_source_table" [("_source_table" : str, VStr "old")] = false ->
   tag_record "Notes" [("_source_table" : str, VStr "old")]
   = [("_source_table" : str, VStr "old")]
     ++ [("_source_table" : str, VStr "Notes")])
  /\ (dict_has "_source_table" [("_source_table" : str, VStr "old")] = true ->
      map fst (tag_record "Notes" [("_source_table" : str, VStr "old")])
      = map fst [("_source_table" : str, VStr "old")]
      /\ length (tag_record "Notes" [("_source_table" : str, VStr "old")])
         = length [("_source_table" : str, VStr "old")])
  /\ tag_record "Notes" (tag_record "Staff" [("_source_table" : str, VStr "old")])
     = tag_record "Notes" [("_source_table" : str, VStr "old")].
Proof.
  exact (tag_record_shape "Notes" "Staff" [("_source_table" : str, VStr "old")]).
Defined.

(** ** The contacts of an introduction *)

Import Intro.

Lemma contacts_fst (recs : list dict) (lists : list str * list str) :
  fst (fold_left contact_step recs lists)
  = fold_left (fun seen record => add_contact (record_email record) seen)
      recs (fst lists).
Proof.
  revert lists. induction recs as [|r recs IH]; intros lists; [reflexivity|].
  simpl. now rewrite IH.
Qed.

Lemma contacts_snd (recs : list dict) (lists : list str * list str) :
  snd (fold_left contact_step recs lists)
  = fold_left (fun seen record => add_contact (record_phone record) seen)
      recs (snd lists).
Proof.
  revert lists. induction recs as [|r recs IH]; intros lists; [reflexivity|].
  simpl. now rewrite IH.
Qed.

Lemma collect_fst (trs : list table_result) (lists : list str * list str) :
  fst (fold_left (fun lists result => fold_left contact_step (records result) lists)
         trs lists)
  = fold_left (fun seen record => add_contact (record_email record) seen)
      (flat_map records trs) (fst lists).
Proof.
  revert lists. induction trs as [|r trs IH]; intros lists; [reflexivity|].
  simpl. now rewrite IH, fold_left_app, contacts_fst.
Qed.

Lemma collect_snd (trs : list table_result) (lists : list str * list str) :
  snd (fold_left (fun lists result => fold_left contact_step (records result) lists)
         trs lists)
  = fold_left (fun seen record => add_contact (record_phone record) seen)
      (flat_map records trs) (snd lists).
Proof.
  revert lists. induction trs as [|r trs IH]; intros lists; [reflexivity|].
  simpl. now rewrite IH, fold_left_app, contacts_snd.
Qed.

Section Contacts.

Variable pick : dict -> value.

Let step := fun (seen : list str) (record : dict) =>
              add_contact (pick record) seen.

Lemma add_contact_text (v : value) (seen : list str) :
  (forall z, v <> VInt z) ->
  NoDup seen ->
  NoDup (add_contact v seen)
  /\ forall e, In e (add_contact v seen)
               <-> In e seen \/ (v = VStr e /\ e <> []).
Proof.
  intros Hv Hn. unfold add_contact.
  destruct v as [|s|z]; [| |now destruct (Hv z)].
  - simpl. split; [exact Hn|]. intros e. split; [auto|].
    intros [H|[H _]]; [exact H|discriminate].
  - destruct s as [|c s].
    + simpl. split; [exact Hn|]. intros e. split; [auto|].
      intros [H|[[= <-] H]]; [exact H|now destruct H].
    + cbn [truthy andb value_in str_of_value].
      destruct (existsb (str_eqb (c :: s)) seen) eqn:E; cbn [negb].
      * apply existsb_str_eqb in E. split; [exact Hn|].
        intros e. split; [auto|]. intros [H|[[= <-] _]]; assumption.
      * split.
        -- apply NoDup_app; [exact Hn|repeat constructor; now intros []|].
           intros x Hx [<-|[]]. apply existsb_str_eqb in Hx. congruence.
        -- intros e. rewrite in_app_iff. simpl. split.
           ++ intros [H|[<-|[]]]; [now left|right]. split; [reflexivity|discriminate].
           ++ intros [H|[[= <-] _]]; [now left|right; now left].
Qed.

Lemma fold_contacts_text (recs : list dict) (seen : list str) :
  (forall record z, In record recs -> pick record <> VInt z) ->
  NoDup seen ->
  NoDup (fold_left step recs seen)
  /\ forall e, In e (fold_left step recs seen)
               <-> In e seen
                   \/ exists record,
                        In record recs /\ pick record = VStr e /\ e <> [].
Proof.
  revert seen. induction recs as [|r recs IH]; intros seen Hv Hn.
  - simpl. split; [exact Hn|]. intros e. split; [auto|].
    intros [H|(record & [] & _)]. exact H.
  - cbn [fold_left].
    destruct (add_contact_text (pick r) seen) as [Hn' Hin'];
      [intros z; apply Hv; now left|exact Hn|].
    destruct (IH (step seen r)) as [Hn'' Hin''];
      [intros record z Hr; apply Hv; now right|exact Hn'|].
    split; [exact Hn''|]. intros e. rewrite Hin''. unfold step at 1.
    rewrite Hin'. split.
    + intros [[H|H]|(record & Hr & H)]; [now left| |].
      * right. exists r. split; [now left|exact H].
      * right. exists record. split; [now right|exact H].
    + intros [H|(record & [<-|Hr] & H)]; [now left; left|now left; right|].
      right. now exists record.
Qed.

Lemma fold_contacts_numbers (recs : list dict) (seen : list str) :
  (forall record, In record recs ->
                  exists z, pick record = VInt z /\ z <> 0) ->
  fold_left step recs seen
  = seen ++ map (fun record => str_of_value (pick record)) recs.
Proof.
  revert seen. induction recs as [|r recs IH]; intros seen Hv.
  - simpl. now rewrite app_nil_r.
  - cbn [fold_left map]. rewrite IH by (intros record Hr; apply Hv; now right).
    destruct (Hv r (or_introl eq_refl)) as (z & Ez & Hz).
    unfold step, add_contact. rewrite Ez. cbn [truthy value_in].
    apply Z.eqb_neq in Hz. rewrite Hz. cbn [negb andb].
    now rewrite <- app_assoc.
Qed.

End Contacts.

(** X8. When the e-mail and the phone picked from each record is text or
    NULL, the e-mails, and likewise the phones, collected for the
    introduction are distinct, and they are exactly the non-empty strings
    picked from some record of some entry. *)
Theorem contacts_are_distinct (table_results : list table_result) :
  (forall r record z,
      In r table_results -> In record (records r) ->
      record_email record <> VInt z /\ record_phone record <> VInt z) ->
  let emails := fst (collect_contacts table_results) in
  let phones := snd (collect_contacts table_results) in
  NoDup emails
  /\ NoDup phones
  /\ (forall e,
        In e emails <->
        exists r record,
          In r table_results /\ In record (records r)
          /\ record_email record = VStr e /\ e <> [])
  /\ (forall p,
        In p phones <->
        exists r record,
          In r table_results /\ In record (records r)
          /\ record_phone record = VStr p /\ p <> []).
Proof.
  intros H emails phones. unfold emails, phones, collect_contacts.
  rewrite collect_fst, collect_snd. cbn [fst snd].
  assert (Hrec : forall record,
             In record (flat_map records table_results) <->
             exists r, In r table_results /\ In record (records r))
    by (intros record; apply in_flat_map).
  destruct (fold_contacts_text record_email (flat_map records table_results) [])
    as [He He'];
    [intros record z Hr; apply Hrec in Hr as (r & Hr & Hin); now apply (H r)
    |constructor|].
  destruct (fold_contacts_text record_phone (flat_map records table_results) [])
    as [Hp Hp'];
    [intros record z Hr; apply Hrec in Hr as (r & Hr & Hin); now apply (H r)
    |constructor|].
  split; [exact He|]. split; [exact Hp|]. split.
  - intros e. rewrite He'. split.
    + intros [[]|(record & Hr & Hv)]. apply Hrec in Hr as (r & Hr & Hin).
      now exists r, record.
    + intros (r & record & Hr & Hin & Hv). right. exists record.
      split; [apply Hrec; now exists r|exact Hv].
  - intros p. rewrite Hp'. split.
    + intros [[]|(record & Hr & Hv)]. apply Hrec in Hr as (r & Hr & Hin).
      now exists r, record.
    + intros (r & record & Hr & Hin & Hv). right. exists record.
      split; [apply Hrec; now exists r|exact Hv].
Qed.

Lemma contacts_are_distinct_witness :
  NoDup (fst (collect_contacts Contacts.same_email))
  /\ NoDup (snd (collect_contacts Contacts.same_email))
  /\ (forall e,
        In e (fst (collect_contacts Contacts.same_email)) <->
        exists r record,
          In r Contacts.same_email /\ In record (records r)
          /\ record_email record = VStr e /\ e <> [])
  /\ (forall p,
        In p (snd (collect_contacts Contacts.same_email)) <->
        exists r record,
          In r Contacts.same_email /\ In record (records r)
          /\ record_phone record = VStr p /\ p <> []).
Proof.
  apply (contacts_are_distinct Contacts.same_email).
  intros r record z [<-|[]] [<-|[<-|[]]]; split; discriminate.
Defined.

(** The e-mail of the two records above is listed once. *)
Example same_email_once :
  collect_contacts Contacts.same_email
  = (["linda@example.com" : str], ["555-0100" : str]).
Proof. reflexivity. Qed.

(** X9. A phone that the records hold as a number is listed once for every
    record, repeated or not: when every record's phone is a number other
    than zero, the phones collected are the numbers of all the records of all
    the entries, in order, one each. *)
Theorem numeric_phones_repeat (table_results : list table_result) :
  (forall r record,
      In r table_results -> In record (records r) ->
      exists z, record_phone record = VInt z /\ z <> 0) ->
  snd (collect_contacts table_results)
  = map (fun record => str_of_value (record_phone record))
      (flat_map records table_results)
  /\ length (snd (collect_contacts table_results))
     = list_sum (map (fun r => length (records r)) table_results).
Proof.
  intros H. unfold collect_contacts. rewrite collect_snd. cbn [snd].
  rewrite fold_contacts_numbers.
  - cbn [app]. split; [reflexivity|]. rewrite length_map.
    clear H. induction table_results as [|r trs IH]; [reflexivity|].
    cbn [flat_map map list_sum]. now rewrite length_app, IH.
  - intros record Hr. apply in_flat_map in Hr as (r & Hr & Hin).
    now apply (H r).
Qed.

Lemma numeric_phones_repeat_witness :
  snd (collect_contacts Contacts.same_number)
  = map (fun record => str_of_value (record_phone record))
      (flat_map records Contacts.same_number)
  /\ length (snd (collect_contacts Contacts.same_number))
     = list_sum (map (fun r => length (records r)) Contacts.same_number).
Proof.
  apply (numeric_phones_repeat Contacts.same_number).
  intros r record [<-|[]] [<-|[<-|[]]]; exists 5550100; split;
    (reflexivity || discriminate).
Defined.

(** The phones of the two records above: the same number, twice. *)
Example numeric_phone_twice :
  snd (collect_contacts Contacts.same_number)
  = ["5550100" : str; "5550100" : str].
Proof. reflexivity. Qed.

(** ** query_and_introduce *)

Section Introduce.

Variable chat : str -> list table_result -> option str.

Lemma query_and_introduce_fst (st : Store) (question term : str) :
  search_term_of question = Some term ->
  fst (query_and_introduce chat st question)
  = match fst (search_all_tables st term 10) with
    | None => None
    | Some [] => Some NoResults
    | Some found =>
        match introduce_person chat question found with
        | None => None
        | Some introduction =>
            Some (Introduced
                    {| thinking :=
                         "Searching across all database tables for '"
                         ++ term ++ "'";
                       tables_to_query := map table found;
                       sql_query :=
                         "-- Multi-table search across "
                         ++ str_of_nat (length (map table found)) ++ " tables"
                         ++ newline ++ "-- Search term: " ++ term
                         ++ newline ++ "-- Found "
                         ++ str_of_nat (length (fst (combine_results found)))
                         ++ " total records";
                       explanation :=
                         "Searched " ++ str_of_nat (length (map table found))
                         ++ " tables and found "
                         ++ str_of_nat (length (fst (combine_results found)))
                         ++ " matching records" |}
                    (fst (combine_results found)) introduction)
        end
    end.
Proof.
  intros Hterm. unfold query_and_introduce. rewrite Hterm. unfold bind.
  destruct (search_all_tables st term 10) as [[found|] tr]; [|reflexivity].
  cbn [fst]. destruct found as [|m found]; [reflexivity|].
  unfold combine_results.
  now destruct (introduce_person chat question (m :: found)).
Qed.

Lemma search_first_record (st : Store) (term : str) (b : Z)
  (found : list table_result) :
  fst (search_all_tables st term b) = Some found ->
  found <> [] ->
  first_record_of found <> None
  /\ fst (combine_results found) <> [].
Proof.
  intros Hf Hne. destruct found as [|m found]; [now destruct Hne|].
  destruct (search_member _ _ _ _ m Hf (or_introl eq_refl)) as (t & Ho).
  destruct (outcome_found _ _ _ _ Ho) as (cols & _ & _ & Hscan).
  destruct (scan_found _ _ _ _ Hscan) as (res & cres & _ & Hrows & _ & ->).
  unfold first_record_of, combine_results. cbn [records fst flat_map].
  destruct (fetchall res) as [|row rows]; [now destruct Hrows|].
  split; discriminate.
Qed.

Lemma as_str_some (v : value) (s : str) : as_str v = Some s <-> v = VStr s.
Proof. destruct v; cbn; split; congruence. Qed.

Lemma introduce_person_found (question : str) (found : list table_result)
  (first_record : dict) :
  first_record_of found = Some first_record ->
  (introduce_person chat question found = None <->
     sum_counts 0 found = None
     \/ chat question found = None
     \/ as_str (name_of_first_record first_record) = None
     \/ as_str (role_title_of first_record) = None
     \/ as_str (company_of first_record) = None)
  /\ forall introduction,
       introduce_person chat question found = Some introduction ->
       chat question found = Some (summary introduction)
       /\ data_sources introduction = map table found
       /\ name_of_first_record first_record = VStr (name introduction)
       /\ role_title_of first_record = VStr (role_title introduction)
       /\ company_of first_record = VStr (company introduction).
Proof.
  intros Hfirst. unfold introduce_person.
  destruct found as [|m found]; [discriminate|].
  unfold combine_results. rewrite Hfirst.
  destruct (sum_counts 0 (m :: found)) as [total|];
    [|split; [now split; auto|discriminate]].
  destruct (chat question (m :: found)) as [text|];
    [|split; [now split; auto|discriminate]].
  destruct (collect_contacts (m :: found)) as [emails phones].
  destruct (as_str (name_of_first_record first_record)) as [n|] eqn:En;
    [|split; [now split; auto|discriminate]].
  destruct (as_str (role_title_of first_record)) as [r|] eqn:Er;
    [|split; [now split; auto 6|discriminate]].
  destruct (as_str (company_of first_record)) as [c|] eqn:Ec;
    [|split; [now split; auto 6|discriminate]].
  apply as_str_some in En, Er, Ec. split.
  - split; [discriminate|]. intros [H|[H|[H|[H|H]]]]; discriminate.
  - intros introduction [= <-]. cbn. auto.
Qed.

(** X10. What [query_and_introduce] does with a question.  It raises exactly
    when the question has a space but no token, when listing the tables
    raises, or when the search found entries and then a count is not a
    number, the chat call raises, or the name, the position or the company
    taken from the first record is not a string, which the model of the
    introduction refuses; the first record is always there.  It returns no
    results exactly when the search found none.  Otherwise it returns the
    combined records, not empty, and the names of the at most ten tables
    found, both as the tables queried and as the sources of the introduction,
    whose summary is the answer of the chat model and whose name, position
    and company are the strings taken from the first record. *)
Theorem query_and_introduce_outcomes (st : Store) (question : str) :
  let r := fst (query_and_introduce chat st question) in
  (r = None <->
     search_term_of question = None
     \/ get_table_names st = None
     \/ exists term found first_record,
          search_term_of question = Some term
          /\ fst (search_all_tables st term 10) = Some found
          /\ first_record_of found = Some first_record
          /\ (sum_counts 0 found = None
              \/ chat question found = None
              \/ as_str (name_of_first_record first_record) = None
              \/ as_str (role_title_of first_record) = None
              \/ as_str (company_of first_record) = None))
  /\ (r = Some NoResults <->
        exists term,
          search_term_of question = Some term
          /\ fst (search_all_tables st term 10) = Some [])
  /\ (forall sql_response all_records introduction,
        r = Some (Introduced sql_response all_records introduction) ->
        exists term found first_record,
          search_term_of question = Some term
          /\ fst (search_all_tables st term 10) = Some found
          /\ found <> []
          /\ (length found <= 10)%nat
          /\ tables_to_query sql_response = map table found
          /\ data_sources introduction = map table found
          /\ all_records = fst (combine_results found)
          /\ all_records <> []
          /\ chat question found = Some (summary introduction)
          /\ first_record_of found = Some first_record
          /\ name_of_first_record first_record = VStr (name introduction)
          /\ role_title_of first_record = VStr (role_title introduction)
          /\ company_of first_record = VStr (company introduction)).
Proof.
  intros r. subst r.
  destruct (search_term_of question) as [term|] eqn:Eterm.
  2:{ unfold query_and_introduce. rewrite Eterm. cbn [fst].
      split; [split; auto|]. split.
      - split; [discriminate|]. now intros (term & [=] & _).
      - discriminate. }
  rewrite (query_and_introduce_fst st question term Eterm).
  destruct (get_table_names st) as [tables|] eqn:Etables.
  2:{ assert (E : fst (search_all_tables st term 10) = None)
        by (unfold search_all_tables, bind, call; now rewrite Etables).
      rewrite E. split; [split; auto|]. split.
      - split; [discriminate|]. intros (term' & [= <-] & H). congruence.
      - discriminate. }
  destruct (fst (search_all_tables st term 10)) as [found|] eqn:Efound.
  2:{ rewrite (search_found _ _ _ _ Etables) in Efound. discriminate. }
  destruct found as [|m found].
  { split; [|split].
    - split; [discriminate|].
      intros [H|[H|(term' & found' & fr & Ht & Hf & Hfr & _)]];
        try discriminate.
      injection Ht as <-. rewrite Efound in Hf. injection Hf as <-.
      discriminate.
    - split; [intros _; now exists term|reflexivity].
    - discriminate. }
  destruct (search_first_record st term 10 (m :: found) Efound)
    as [Hfirst Hrecs]; [discriminate|].
  destruct (first_record_of (m :: found)) as [first_record|] eqn:Efirst;
    [clear Hfirst|now destruct Hfirst].
  destruct (introduce_person_found question (m :: found) first_record Efirst)
    as [Hnone Hsome].
  assert (Hlen : (length (m :: found) <= 10)%nat).
  { rewrite (search_found _ _ _ _ Etables) in Efound. injection Efound as E.
    pose proof (collect_length 10
                  (map (outcome st (Py.split term)) tables) []) as Hl.
    rewrite E in Hl. simpl in Hl. simpl. lia. }
  destruct (introduce_person chat question (m :: found)) as [intro|] eqn:Ei.
  - split; [|split].
    + split; [discriminate|].
      intros [H|[H|(term' & found' & fr & Ht & Hf & Hfr & H)]];
        try discriminate.
      injection Ht as <-. rewrite Efound in Hf. injection Hf as <-.
      rewrite Efirst in Hfr. injection Hfr as <-.
      apply Hnone in H. discriminate.
    + split; [discriminate|]. intros (term' & Ht & Hf).
      injection Ht as <-. rewrite Efound in Hf. discriminate.
    + intros sql_response all_records introduction [= <- <- <-].
      exists term, (m :: found), first_record.
      destruct (Hsome intro eq_refl) as (Hc & Hd & Hn & Hr & Hco).
      repeat split; try assumption; try reflexivity; discriminate.
  - split; [|split].
    + split; [|reflexivity]. intros _. right. right.
      exists term, (m :: found), first_record.
      split; [reflexivity|]. split; [exact Efound|]. split; [exact Efirst|].
      now apply Hnone.
    + split; [discriminate|]. intros (term' & Ht & Hf).
      injection Ht as <-. rewrite Efound in Hf. discriminate.
    + discriminate.
Qed.

End Introduce.

(** A contact is found whose position is NULL, and the model of the
    introduction refuses it: the call raises.  Without the Position column
    the default is a string, and the call returns. *)
Example null_position_is_refused :
  option_map (map records)
    (fst (search_all_tables (mem_store contact_db) "Linda" 10))
  = Some [ [ [("FirstName" : str, VStr "Linda"); ("Position" : str, VNone)] ] ]
  /\ fst (query_and_introduce (fun _ _ => Some ("Linda is a contact." : str))
            (mem_store contact_db) "Linda")
     = None
  /\ option_map (fun i => (name i, role_title i, company i))
       (introduce_person (fun _ _ => Some ("Linda is a contact." : str)) "Linda"
          [ {| table := "J_CustomerContact";
               count := VInt 1;
               columns := ["FirstName" : str];
               records := [ [("FirstName" : str, VStr "Linda")] ] |} ])
     = Some ("Unknown" : str, "Not specified" : str,
             "Associated organization" : str).
Proof. split; [|split]; vm_compute; reflexivity. Qed.

(** ** Sample and count on the in-memory engine *)

Lemma lex_from_out (s : str) (m : lex_mode) (out : list token) :
  lex_from m out s = option_map (app out) (lex_from m [] s).
Proof.
  revert m out. induction s as [|c s IH]; intros m out; simpl.
  - now destruct (lex_end m).
  - destruct (lex_step m c) as [[ts m']|]; [|reflexivity].
    cbn [app]. rewrite (IH m' (out ++ ts)), (IH m' ts).
    destruct (lex_from m' [] s); simpl; [now rewrite app_assoc|reflexivity].
Qed.

Lemma lex_select_prefix (t w : str) :
  lex (select_sql t w)
  = lex_from (LIdent []) [TSelect; TTop; TNum 10; TStar; TFrom]
      (t ++ "] WHERE " ++ w).
Proof.
  unfold lex, select_sql. remember (t ++ "] WHERE " ++ w) as tail.
  reflexivity.
Qed.

Lemma lex_count_prefix (t w : str) :
  lex (count_sql t w)
  = lex_from (LIdent []) [TSelect; TCount; TLParen; TStar; TRParen; TFrom]
      (t ++ "] WHERE " ++ w).
Proof.
  unfold lex, count_sql. remember (t ++ "] WHERE " ++ w) as tail.
  reflexivity.
Qed.

(** Both statements are read as the same table and the same predicate, or
    both are refused. *)
Lemma run_sql_both (db : database) (t w : str) :
  (run_sql db (select_sql t w) = None
   /\ run_sql db (count_sql t w) = None)
  \/ exists t' groups,
       run_sql db (select_sql t w)
       = run_query db {| q_kind := Sample 10; q_table := t'; q_where := groups |}
       /\ run_sql db (count_sql t w)
          = run_query db {| q_kind := Count; q_table := t'; q_where := groups |}.
Proof.
  unfold run_sql. rewrite lex_select_prefix, lex_count_prefix.
  remember (t ++ "] WHERE " ++ w) as tail eqn:Etail.
  rewrite (lex_from_out tail (LIdent []) [TSelect; TTop; TNum 10; TStar; TFrom]).
  rewrite (lex_from_out tail (LIdent [])
             [TSelect; TCount; TLParen; TStar; TRParen; TFrom]).
  destruct (lex_from (LIdent []) [] tail) as [ts|]; [|now left].
  cbn [option_map app].
  destruct ts as [|[] ts]; try (now left).
  destruct ts as [|[] ts]; try (now left).
  cbn [parse]. destruct (parse_where ts) as [groups|]; [|now left].
  right. eexists. exists groups. split; reflexivity.
Qed.

(** [text()] finds a parameter in both or in neither, and takes the same
    backslashes off both. *)
Lemma mem_execute_both (db : database) (t w : str) :
  (mem_execute db (select_sql t w) = None
   /\ mem_execute db (count_sql t w) = None)
  \/ exists t' groups,
       mem_execute db (select_sql t w)
       = run_query db {| q_kind := Sample 10; q_table := t'; q_where := groups |}
       /\ mem_execute db (count_sql t w)
          = run_query db {| q_kind := Count; q_table := t'; q_where := groups |}.
Proof.
  unfold mem_execute. rewrite text_select_sql, text_count_sql.
  destruct (has_bind_parameter t || has_bind_parameter w); [now left|].
  apply run_sql_both.
Qed.

Lemma run_query_both (db : database) (t : str) (groups : list (list atom))
  (n : nat) (res : result) :
  run_query db {| q_kind := Sample n; q_table := t; q_where := groups |}
  = Some res ->
  exists hits,
    fetchall res = firstn n hits
    /\ run_query db {| q_kind := Count; q_table := t; q_where := groups |}
       = Some {| keys := [[] : str];
                 fetchall := [[VInt (Z.of_nat (length hits))]] |}.
Proof.
  unfold run_query. cbn [q_kind q_table q_where].
  destruct (find_table t db) as [tb|]; [|discriminate].
  destruct (columns_known _ _); [|discriminate].
  intros [= <-]. eexists. split; reflexivity.
Qed.

Lemma sum_counts_numbers (found : list table_result) (acc : Z) :
  (forall m, In m found -> exists n : nat, count m = VInt (Z.of_nat n)) ->
  sum_counts acc found <> None.
Proof.
  revert acc. induction found as [|m found IH]; intros acc H; [discriminate|].
  simpl. destruct (H m (or_introl eq_refl)) as [n ->].
  apply IH. intros m' Hm'. apply H. now right.
Qed.

(** X11. Against an in-memory database whose names hold no closing bracket
    and for a phrase of plain terms, where the engine reads the statements as
    the server does, the two statements of a scan are read as the same
    predicate, so the count never fails where the sample answered: every
    entry of an answer has a number as its count, at least 1; it holds that
    many records when the count is at most 10 and 10 otherwise; and the sum
    of the counts that the introduction computes is defined. *)
Theorem count_covers_sample (db : database) (phrase : str) (b : Z)
  (found : list table_result) :
  wf_database db = true ->
  forallb plain_term (Py.split phrase) = true ->
  fst (search_all_tables (mem_store db) phrase b) = Some found ->
  (forall m,
      In m found ->
      exists n,
        count m = VInt (Z.of_nat n)
        /\ (1 <= n)%nat
        /\ length (records m) = Nat.min 10 n)
  /\ sum_counts 0 found <> None.
Proof.
  intros _ _ Hf.
  assert (H : forall m, In m found ->
                exists n, count m = VInt (Z.of_nat n) /\ (1 <= n)%nat
                          /\ length (records m) = Nat.min 10 n).
  { intros m Hm.
    destruct (search_member _ _ _ _ _ Hf Hm) as (t & Ho).
    destruct (outcome_found _ _ _ _ Ho) as (cols & _ & _ & Hscan).
    destruct (scan_found _ _ _ _ Hscan) as (res & cres & Hs & Hrows & Hc & ->).
    cbn [count records]. cbn [execute mem_store] in Hs, Hc.
    destruct (mem_execute_both db t
                (where_clause (string_columns cols) (Py.split phrase)))
      as [[E _]|(t' & groups & Es & Ec)]; [congruence|].
    rewrite Es in Hs. rewrite Ec in Hc.
    destruct (run_query_both _ _ _ _ _ Hs) as (hits & Eh & Eq).
    rewrite Eq in Hc. injection Hc as <-.
    exists (length hits). cbn [scalar fetchall].
    split; [reflexivity|]. rewrite length_map, Eh, length_firstn.
    split; [|reflexivity].
    destruct hits; [|simpl; lia]. rewrite firstn_nil in Eh. congruence. }
  split; [exact H|]. apply sum_counts_numbers.
  intros m Hm. destruct (H m Hm) as (n & E & _). now exists n.
Qed.

Lemma count_covers_sample_witness :
  (forall m,
      In m [ {| table := "Crowd";
                count := VInt 11;
                columns := ["Name" : str];
                records := repeat [("Name" : str, VStr "Linda")] 10 |} ] ->
      exists n,
        count m = VInt (Z.of_nat n)
        /\ (1 <= n)%nat
        /\ length (records m) = Nat.min 10 n)
  /\ sum_counts 0
       [ {| table := "Crowd";
            count := VInt 11;
            columns := ["Name" : str];
            records := repeat [("Name" : str, VStr "Linda")] 10 |} ]
     <> None.
Proof.
  apply (count_covers_sample crowd_db "Linda" 10);
    [reflexivity|reflexivity|].
  vm_compute. reflexivity.
Defined.

(** ** search_person.py: what is printed *)

Lemma dict_get_In (k : str) (d : dict) (v : value) :
  dict_get k d = Some v -> In (k, v) d.
Proof.
  induction d as [|[k' v'] d IH]; simpl; [discriminate|].
  destruct (str_eqb k k') eqn:E.
  - apply str_eqb_eq in E. subst k'. intros [= <-]. now left.
  - intros H. right. now apply IH.
Qed.

Lemma contains_nonempty (sub s : str) :
  sub <> [] -> Py.contains sub s = true -> s <> [].
Proof.
  intros Hsub H ->. simpl in H. destruct sub; [now destruct Hsub|discriminate].
Qed.

(** A record of an entry left behind by a table of a well-formed database
    holds every plain term in a text column, when [text()] takes nothing off
    the names and the terms. *)
Lemma outcome_record_has_term (db : database) (terms : list str) (t : str)
  (m : table_result) (record : dict) (term : str) :
  wf_database db = true ->
  verbatim_database db = true ->
  forallb plain_term terms = true ->
  forallb verbatim terms = true ->
  outcome (mem_store db) terms t = Some m ->
  In record (records m) ->
  In term terms ->
  exists c s,
    dict_get c record = Some (VStr s) /\ value_contains term (VStr s) = true.
Proof.
  intros Hwf Hverb Hplain Hsent Ho Hrec Hterm.
  destruct (outcome_found _ _ _ _ Ho) as (cols & Hcols & Hsc & Hscan).
  destruct (scan_found _ _ _ _ Hscan) as (res & cres & Hsel & _ & _ & ->).
  cbn [table records] in *. cbn [get_columns mem_store] in Hcols.
  destruct (find_table t db) as [tb|] eqn:Etb; [|discriminate].
  injection Hcols as <-.
  destruct (wf_database_table _ _ _ Hwf Etb) as (Ht & Hnames & Hdistinct).
  destruct (verbatim_database_table _ _ _ Hverb Etb) as [Hvt Hvc].
  cbn [execute mem_store] in Hsel.
  rewrite mem_execute_select in Hsel;
    [|exact Ht|exact Hsc|now apply string_columns_plain|exact Hplain].
  rewrite (verbatim_unescape _ Hvt), (map_unescape_verbatim _ Hvc),
    (map_unescape_verbatim _ Hsent) in Hsel.
  destruct terms as [|t0 terms']; [now destruct Hterm|].
  destruct (has_bind_parameter t || where_binds _ _); [discriminate|].
  apply (run_query_sample _ _ 10) in Hsel as (tb' & Etb' & Hkeys & _ & Hrows);
    [|reflexivity].
  cbn [q_table q_where] in *. rewrite Etb in Etb'. injection Etb' as <-.
  apply in_map_iff in Hrec as (row & <- & Hrow).
  specialize (Hrows _ Hrow).
  destruct (row_matches_term _ _ _ _ _ Hrows Hterm) as (c & s & Hc & Hf & Hl).
  exists c, s. split.
  - rewrite Hkeys in *. now rewrite dict_zip_field.
  - unfold value_contains. cbn [str_of_value].
    apply like_plain_term; [|exact Hl].
    rewrite forallb_forall in Hplain. now apply Hplain.
Qed.

Lemma lower_nonempty (s : str) : s <> [] -> Py.lower s <> [].
Proof. now destruct s. Qed.

(** X12. search_person.py prints of a record the fields whose value is
    truthy and contains one of the terms, letter case aside.  Against a
    well-formed in-memory database and for a phrase of plain terms, with no
    backslash before a colon in a name or in a term, every record it prints
    shows, for every term of the phrase, a field whose value contains that
    term. *)
Theorem printed_record_shows_every_term (db : database) (phrase : str)
  (found : list table_result) (m : table_result) (record : dict) (term : str) :
  wf_database db = true ->
  verbatim_database db = true ->
  forallb plain_term (Py.split phrase) = true ->
  forallb verbatim (Py.split phrase) = true ->
  fst (search_person (mem_store db) phrase) = Some found ->
  In m found ->
  In record (shown_records m) ->
  In term (Py.split phrase) ->
  exists k v,
    In (k, v) (shown_fields (Py.split phrase) record)
    /\ value_contains term v = true.
Proof.
  intros Hwf Hverb Hplain Hsent Hf Hm Hrec Hterm.
  rewrite (search_person_found (mem_store db) phrase (map mt_name db) eq_refl)
    in Hf.
  injection Hf as <-. apply entries_In in Hm.
  apply in_map_iff in Hm as (t & Ho & _).
  apply In_firstn in Hrec.
  destruct (outcome_record_has_term _ _ _ _ _ _ Hwf Hverb Hplain Hsent Ho Hrec
              Hterm)
    as (c & s & Hget & Hc).
  exists c, (VStr s). split; [|exact Hc].
  unfold shown_fields. apply filter_In. split; [now apply dict_get_In|].
  cbn [snd]. apply andb_true_iff. split.
  - assert (Hs : s <> []).
    { pose proof (split_from_tokens phrase [] eq_refl) as Hall.
      rewrite Forall_forall in Hall. destruct (Hall term Hterm) as [Hne _].
      unfold value_contains in Hc. cbn [str_of_value] in Hc.
      apply (contains_nonempty _ _ (lower_nonempty _ Hne)) in Hc.
      now destruct s. }
    now destruct s.
  - apply existsb_exists. now exists term.
Qed.

Lemma printed_record_shows_every_term_witness :
  exists k v,
    In (k, v) (shown_fields (Py.split "Mark Elinski")
                 [("FirstName" : str, VStr "Ann");
                  ("LastName" : str, VStr "MARKHAM elinski")])
    /\ value_contains "Elinski" v = true.
Proof.
  apply (printed_record_shows_every_term people_db "Mark Elinski"
           [ {| table := "People";
                count := VInt 2;
                columns := ["FirstName" : str; "LastName" : str];
                records := [ [("FirstName" : str, VStr "Mark");
                              ("LastName" : str, VStr "Elinski")];
                             [("FirstName" : str, VStr "Ann");
                              ("LastName" : str, VStr "MARKHAM elinski")] ] |} ]
           {| table := "People";
              count := VInt 2;
              columns := ["FirstName" : str; "LastName" : str];
              records := [ [("FirstName" : str, VStr "Mark");
                            ("LastName" : str, VStr "Elinski")];
                           [("FirstName" : str, VStr "Ann");
                            ("LastName" : str, VStr "MARKHAM elinski")] ] |}).
  - reflexivity.
  - reflexivity.
  - reflexivity.
  - reflexivity.
  - vm_compute. reflexivity.
  - now left.
  - simpl. auto.
  - simpl. auto.
Defined.

(** A capital letter of Latin-1 is lowered as a letter of A-Z is: the
    field is printed for a term written in the other case. *)
Example latin1_case_is_folded :
  Py.lower ["201"%char; "R"%char; "I"%char; "C"%char]
  = ["233"%char; "r"%char; "i"%char; "c"%char]
  /\ shown_fields [["233"%char; "r"%char; "i"%char; "c"%char]]
       [("Name" : str, VStr ["201"%char; "R"%char; "I"%char; "C"%char])]
     = [("Name" : str, VStr ["201"%char; "R"%char; "I"%char; "C"%char])].
Proof. split; vm_compute; reflexivity. Qed.

(** A record found through a wildcard is printed without any field. *)
Example wildcard_record_shows_nothing :
  option_map (map (fun m => map (shown_fields (Py.split "L_nda")) (shown_records m)))
    (fst (search_person (mem_store contacts_db) "L_nda"))
  = Some [ [ [] ] ].
Proof. vm_compute. reflexivity. Qed.

(** ** search_linda.py: summary and details *)

Lemma details_get_set (k k' : str) (v : Linda.detail) (d : Linda.details) :
  Linda.details_get k (Linda.details_set k' v d)
  = if str_eqb k k' then Some v else Linda.details_get k d.
Proof.
  induction d as [|[k0 v0] d IH]; simpl.
  - reflexivity.
  - destruct (str_eqb k' k0) eqn:E'; simpl.
    + apply str_eqb_eq in E'. subst k0. now destruct (str_eqb k k').
    + rewrite IH. destruct (str_eqb k k0) eqn:E0; [|reflexivity].
      apply str_eqb_eq in E0. subst k0.
      destruct (str_eqb k k') eqn:E; [|reflexivity].
      apply str_eqb_eq in E. subst k'. rewrite str_eqb_refl in E'. discriminate.
Qed.

Lemma details_set_absent (k : str) (v : Linda.detail) (d : Linda.details) :
  Linda.details_get k d = None -> Linda.details_set k v d = d ++ [(k, v)].
Proof.
  induction d as [|[k' v'] d IH]; simpl; [reflexivity|].
  destruct (str_eqb k k'); [discriminate|]. intros H. now rewrite IH.
Qed.

Lemma linda_scan_found (st : Store) (t : str)
  (s : Linda.summary_entry) (d : Linda.detail) :
  fst (try_pass (Linda.scan_table st t)) = Some (s, d) ->
  Linda.s_table s = t /\ Linda.d_rows d <> [].
Proof.
  unfold Linda.scan_table, bind, call.
  destruct (get_columns st t) as [cols|]; [|discriminate].
  destruct (string_columns cols) as [|c sc]; [discriminate|].
  destruct (execute st _) as [res|]; [|discriminate].
  destruct (fetchall res) as [|row rows]; [discriminate|].
  destruct (execute st _) as [cres|]; [|discriminate].
  simpl. intros [= <- <-]. split; [reflexivity|discriminate].
Qed.

Lemma linda_inv_step (st : Store) (seen : list str) (t : str)
  (state : list Linda.summary_entry * Linda.details) :
  linda_inv seen state ->
  linda_inv (seen ++ [t])
    (Linda.add_result t state (fst (try_pass (Linda.scan_table st t)))).
Proof.
  intros (Ha & Hb & Hc & Hd).
  destruct state as [summary details]. cbn [fst snd] in *.
  destruct (fst (try_pass (Linda.scan_table st t))) as [[s d]|] eqn:E.
  - destruct (linda_scan_found _ _ _ _ E) as [Es Hrows].
    unfold linda_inv. cbn [Linda.add_result fst snd].
    split; [|split; [|split]].
    + intros u. rewrite map_app, in_app_iff, details_get_set.
      cbn [map]. rewrite Es. split.
      * intros [H|[<-|[]]].
        -- destruct (str_eqb u t); [discriminate|]. now apply Ha.
        -- rewrite str_eqb_refl. discriminate.
      * destruct (str_eqb u t) eqn:E0.
        -- apply str_eqb_eq in E0. intros _. right. now left.
        -- intros H. left. now apply Ha.
    + intros u du. rewrite details_get_set, in_app_iff.
      destruct (str_eqb u t) eqn:E0.
      * apply str_eqb_eq in E0. subst u. intros [= <-].
        split; [right; now left|exact Hrows].
      * intros H. destruct (Hb u du H). split; [now left|assumption].
    + rewrite !length_app. simpl. lia.
    + intros Hn. apply NoDup_remove in Hn as [Hn Hnot].
      rewrite app_nil_r in *.
      assert (Hnone : Linda.details_get t details = None).
      { destruct (Linda.details_get t details) as [d'|] eqn:E'; [|reflexivity].
        destruct (Hb t d' E') as [Hin _]. now destruct Hnot. }
      rewrite (details_set_absent _ _ _ Hnone), !map_app. cbn [map fst].
      now rewrite (Hd Hn), Es.
  - unfold linda_inv. cbn [Linda.add_result fst snd].
    split; [exact Ha|]. split; [|split].
    + intros u du H. destruct (Hb u du H).
      split; [apply in_app_iff; now left|assumption].
    + rewrite length_app. simpl. lia.
    + intros Hn. apply NoDup_remove in Hn as [Hn _].
      rewrite app_nil_r in Hn. now apply Hd.
Qed.

Lemma linda_loop_inv (st : Store) (tables seen : list str)
  (state : list Linda.summary_entry * Linda.details) :
  linda_inv seen state ->
  linda_inv (seen ++ tables) (fst (Linda.search_loop st tables state)).
Proof.
  revert seen state. induction tables as [|t tables IH]; intros seen state H.
  - simpl. now rewrite app_nil_r.
  - simpl. pose proof (linda_inv_step st seen t state H) as Hstep.
    destruct (try_pass (Linda.scan_table st t)) as [o tr]. cbn [fst] in Hstep.
    specialize (IH (seen ++ [t]) _ Hstep).
    destruct (Linda.search_loop st tables (Linda.add_result t state o))
      as [res tr'].
    cbn [fst] in *. now rewrite <- app_assoc in IH.
Qed.

(** X13. When search_linda.py has gone through the catalog, the tables of
    its summary are exactly the tables that have details; every table with
    details is in the catalog and has at least one row to show; the summary
    has at most one entry per table; and when no name is listed twice the
    details are kept in the order of the summary. *)
Theorem linda_summary_matches_details (st : Store) (tables : list str) :
  get_table_names st = Some tables ->
  exists summary details,
    fst (Linda.search_linda st) = Some (summary, details)
    /\ (forall t, In t (map Linda.s_table summary)
                  <-> Linda.details_get t details <> None)
    /\ (forall t d, Linda.details_get t details = Some d ->
                    In t tables /\ Linda.d_rows d <> [])
    /\ (length summary <= length tables)%nat
    /\ (NoDup tables -> map fst details = map Linda.s_table summary).
Proof.
  intros Ht.
  assert (H0 : linda_inv [] ([], [])).
  { unfold linda_inv. cbn [fst snd map Linda.details_get length].
    split; [intros t; split; [intros []|intros H; now destruct H]|].
    split; [discriminate|]. split; [lia|reflexivity]. }
  pose proof (linda_loop_inv st tables [] _ H0) as H.
  unfold Linda.search_linda, bind, call. rewrite Ht.
  destruct (Linda.search_loop st tables ([], [])) as [[summary details] tr].
  exists summary, details. split; [reflexivity|exact H].
Qed.

(** The script on [linda_db]: the one table that holds a Linda is in the
    summary and in the details, the table without a text column and the
    table without a Linda are in neither. *)
Lemma linda_summary_matches_details_witness :
  fst (Linda.search_linda (mem_store linda_db))
  = Some ([ {| Linda.s_table := "Contacts";
               Linda.s_count := VInt 1;
               Linda.s_string_columns := "FirstName" |} ],
          [ ("Contacts" : str,
             {| Linda.d_columns := ["FirstName" : str; "Age" : str];
                Linda.d_rows := [ [("FirstName" : str, VStr "Linda");
                                   ("Age" : str, VInt 40)] ] |}) ])
  /\ get_table_names (mem_store linda_db)
     = Some ["Contacts" : str; "Readings" : str; "People" : str]
  /\ exists summary details,
       fst (Linda.search_linda (mem_store linda_db)) = Some (summary, details)
       /\ (forall t, In t (map Linda.s_table summary)
                     <-> Linda.details_get t details <> None)
       /\ (forall t d, Linda.details_get t details = Some d ->
                       In t (map mt_name linda_db) /\ Linda.d_rows d <> [])
       /\ (length summary <= length (map mt_name linda_db))%nat
       /\ (NoDup (map mt_name linda_db) ->
           map fst details = map Linda.s_table summary).
Proof.
  split; [vm_compute; reflexivity|]. split; [reflexivity|].
  apply (linda_summary_matches_details (mem_store linda_db)
           (map mt_name linda_db)).
  reflexivity.
Defined.

(** ** The search as containment *)

Lemma like_any_all (s : str) : like_elems [PAny] s = true.
Proof.
  induction s as [|c s IH]; [reflexivity|].
  rewrite like_any_unfold, IH. apply orb_true_r.
Qed.

Lemma like_prefix_literal (t s : str) :
  Py.startswith (Py.lower t) (Py.lower s) = true ->
  like_elems (map PChar t ++ [PAny]) s = true.
Proof.
  revert s. induction t as [|a t IH]; intros s H.
  - apply like_any_all.
  - destruct s as [|c s]; [discriminate|].
    cbn in H. apply andb_true_iff in H as [Hac H].
    cbn. unfold ci_eqb. rewrite Hac. now apply IH.
Qed.

Lemma like_contains_literal (t s : str) :
  Py.contains (Py.lower t) (Py.lower s) = true ->
  like_elems (PAny :: map PChar t ++ [PAny]) s = true.
Proof.
  induction s as [|c s IH]; rewrite like_any_unfold; intros H.
  - cbn in H. rewrite orb_false_r in H.
    now rewrite (like_prefix_literal t [] H).
  - change (Py.lower (c :: s)) with (Py.lower_char c :: Py.lower s) in H.
    cbn [Py.contains] in H. apply orb_true_iff in H as [H|H].
    + now rewrite (like_prefix_literal t (c :: s) H).
    + rewrite (IH H). apply orb_true_r.
Qed.

Lemma like_plain_term_eq (term s : str) :
  plain_term term = true ->
  like ("%" ++ term ++ "%") s = Py.contains (Py.lower term) (Py.lower s).
Proof.
  intros Hp.
  destruct (Py.contains (Py.lower term) (Py.lower s)) eqn:E.
  - unfold like. rewrite (plain_term_pattern _ Hp).
    now apply like_contains_literal.
  - destruct (like ("%" ++ term ++ "%") s) eqn:El; [|reflexivity].
    apply (like_plain_term _ _ Hp) in El. congruence.
Qed.

Lemma forallb_ext_in {A} (f g : A -> bool) (l : list A) :
  (forall x, In x l -> f x = g x) -> forallb f l = forallb g l.
Proof.
  induction l as [|a l IH]; intros H; [reflexivity|].
  simpl. rewrite (H a (or_introl eq_refl)), IH; [reflexivity|].
  intros x Hx. apply H. now right.
Qed.

Lemma forallb_over_map {A B} (f : B -> bool) (g : A -> B) (l : list A) :
  forallb f (map g l) = forallb (fun x => f (g x)) l.
Proof. induction l as [|a l IH]; simpl; [reflexivity|now rewrite IH]. Qed.

Lemma existsb_over_map {A B} (f : B -> bool) (g : A -> B) (l : list A) :
  existsb f (map g l) = existsb (fun x => f (g x)) l.
Proof. induction l as [|a l IH]; simpl; [reflexivity|now rewrite IH]. Qed.

Lemma existsb_pointwise {A} (f g : A -> bool) (l : list A) :
  (forall x, f x = g x) -> existsb f l = existsb g l.
Proof.
  intros H. induction l as [|a l IH]; simpl; [reflexivity|].
  now rewrite H, IH.
Qed.

Lemma row_matches_plain (names cols terms : list str) (row : list value) :
  forallb plain_term terms = true ->
  row_matches names (where_groups cols terms) row
  = row_has_terms names cols terms row.
Proof.
  intros Hp. unfold row_matches, where_groups, row_has_terms.
  rewrite forallb_over_map. apply forallb_ext_in. intros term Ht.
  rewrite forallb_forall in Hp. specialize (Hp _ Ht).
  rewrite existsb_over_map. apply existsb_pointwise. intros c.
  unfold atom_holds, atom_of, field_contains. cbn [fst snd].
  destruct (field names row c) as [[|s|]|]; try reflexivity.
  now apply like_plain_term_eq.
Qed.

Lemma columns_known_where (names cols terms : list str) :
  incl cols names -> columns_known names (where_groups cols terms) = true.
Proof.
  intros H. unfold columns_known, where_groups.
  apply forallb_forall. intros g Hg.
  apply in_map_iff in Hg as (term & <- & _).
  apply forallb_forall. intros a Ha.
  apply in_map_iff in Ha as (c & <- & Hc). cbn [atom_of fst].
  apply existsb_str_eqb. now apply H.
Qed.

Lemma string_columns_incl (cols : list column) :
  incl (string_columns cols) (map col_name cols).
Proof.
  unfold string_columns. intros c Hc.
  apply in_map_iff in Hc as (col & <- & Hcol).
  apply filter_In in Hcol as [Hcol _]. now apply in_map.
Qed.

Lemma run_sql_count (db : database) (t : str) (cols terms : list str) :
  plain_name t = true ->
  cols <> [] ->
  forallb plain_name cols = true ->
  forallb plain_term terms = true ->
  run_sql db (count_sql t (where_clause cols terms))
  = match terms with
    | [] => None
    | _ :: _ =>
        run_query db {| q_kind := Count; q_table := t;
                        q_where := where_groups cols terms |}
    end.
Proof.
  intros Ht Hne Hcols Hterms. unfold run_sql.
  rewrite lex_count_sql by exact Ht.
  destruct terms as [|term terms]; [reflexivity|].
  rewrite lex_where_clause; try assumption; try discriminate.
  - cbn [app parse]. rewrite parse_groups_tokens; [reflexivity|discriminate|].
    now apply where_groups_nonempty.
  - now apply plain_term_quote.
Qed.

Lemma mem_execute_count (db : database) (t : str) (cols terms : list str) :
  plain_name t = true ->
  cols <> [] ->
  forallb plain_name cols = true ->
  forallb plain_term terms = true ->
  mem_execute db (count_sql t (where_clause cols terms))
  = match terms with
    | [] => None
    | _ :: _ =>
        if has_bind_parameter t || where_binds cols terms then None
        else
          run_query db {| q_kind := Count; q_table := unescape t;
                          q_where := where_groups (map unescape cols)
                                       (map unescape terms) |}
    end.
Proof.
  intros Ht Hne Hcols Hterms. unfold mem_execute.
  rewrite text_count_sql, bind_where_clause, unescape_where_clause.
  destruct (has_bind_parameter t || where_binds cols terms);
    [now destruct terms|].
  rewrite run_sql_count.
  - now destruct terms.
  - now apply unescape_plain_name.
  - now destruct cols.
  - apply forallb_unescape; [apply unescape_plain_name|exact Hcols].
  - apply forallb_unescape; [apply unescape_plain_term|exact Hterms].
Qed.

Lemma firstn_nil_iff {A} (n : nat) (l : list A) :
  firstn (S n) l = [] <-> l = [].
Proof. destruct l; simpl; split; congruence. Qed.

Lemma colon_free_database_table (db : database) (t : str) (tb : mem_table) :
  colon_free_database db = true ->
  find_table t db = Some tb ->
  colon_free t = true
  /\ forallb colon_free (string_columns (mt_columns tb)) = true.
Proof.
  intros H Etb. destruct (find_table_In _ _ _ Etb) as [Hin Hname].
  unfold colon_free_database in H. rewrite forallb_forall in H.
  specialize (H _ Hin). cbn [names_of forallb] in H.
  apply andb_true_iff in H as [Ht Hc]. rewrite Hname in Ht.
  split; [exact Ht|now apply string_columns_forallb].
Qed.

(** What a table of a well-formed database leaves behind for plain terms,
    when neither a name nor a term holds a colon. *)
Lemma outcome_plain (db : database) (terms : list str) (t : str) :
  wf_database db = true ->
  colon_free_database db = true ->
  forallb plain_term terms = true ->
  forallb colon_free terms = true ->
  terms <> [] ->
  outcome (mem_store db) terms t = expected_for db terms t.
Proof.
  intros Hwf Hcf Hplain Hcolon Hne.
  unfold expected_for, outcome, scan_table, bind, call.
  cbn [get_columns mem_store].
  destruct (find_table t db) as [tb|] eqn:Etb; [|reflexivity].
  cbn [option_map].
  destruct (find_table_In _ _ _ Etb) as [Hin Hname].
  destruct (wf_database_table _ _ _ Hwf Etb) as (Ht & Hnames & Hdistinct).
  destruct (colon_free_database_table _ _ _ Hcf Etb) as [Hct Hcc].
  unfold expected_entry.
  pose proof (string_columns_plain _ Hnames) as Hsc.
  pose proof (string_columns_incl (mt_columns tb)) as Hincl.
  destruct (string_columns (mt_columns tb)) as [|c sc] eqn:Esc; [reflexivity|].
  unfold scan, bind, call. cbn [execute mem_store].
  rewrite mem_execute_select, mem_execute_count;
    try assumption; try discriminate.
  destruct terms as [|t0 terms]; [now destruct Hne|].
  assert (Hb : has_bind_parameter t = false)
    by (now apply colon_free_bind).
  rewrite Hb, (where_binds_colon_free _ _ Hcc Hcolon).
  cbn [orb].
  rewrite (verbatim_unescape _ (colon_free_verbatim _ Hct)),
    (map_unescape_verbatim _ (forallb_colon_free_verbatim _ Hcc)),
    (map_unescape_verbatim _ (forallb_colon_free_verbatim _ Hcolon)).
  unfold run_query. cbn [q_table q_kind q_where]. rewrite Etb.
  rewrite (columns_known_where _ _ _ Hincl).
  rewrite (filter_ext _ _
             (fun row => row_matches_plain _ (c :: sc) (t0 :: terms) row Hplain)).
  cbn [fetchall keys].
  destruct (filter (row_has_terms (map col_name (mt_columns tb)) (c :: sc)
                      (t0 :: terms)) (mt_rows tb)) as [|hit hits];
    [reflexivity|].
  cbn [firstn]. cbn [try_pass fst scalar fetchall]. now rewrite Hname.
Qed.

(** X14. Against a well-formed in-memory database and for a phrase of at
    least one term, all terms plain, with no colon in a name or in a term, the
    search is containment: a table gives an entry exactly when it has a text
    column and a row that holds every term in some text column, letter case
    aside; the entry counts all such rows and holds the first ten of them, in
    the order of the table; and the answer is the first [max_tables] such
    entries. *)
Theorem search_is_containment (db : database) (phrase : str) (b : Z) :
  wf_database db = true ->
  colon_free_database db = true ->
  forallb plain_term (Py.split phrase) = true ->
  forallb colon_free (Py.split phrase) = true ->
  Py.split phrase <> [] ->
  fst (search_all_tables (mem_store db) phrase b)
  = Some (firstn (Z.to_nat b)
            (entries (map (expected_for db (Py.split phrase))
                        (map mt_name db)))).
Proof.
  intros Hwf Hcf Hplain Hcolon Hne.
  rewrite (search_found (mem_store db) phrase b (map mt_name db) eq_refl).
  rewrite collect_firstn. do 3 f_equal. apply map_ext. intros t.
  now apply outcome_plain.
Qed.

Lemma search_is_containment_witness :
  fst (search_all_tables (mem_store people_db) "mark ELINSKI" 10)
  = Some (firstn (Z.to_nat 10)
            (entries (map (expected_for people_db (Py.split "mark ELINSKI"))
                        (map mt_name people_db)))).
Proof.
  apply (search_is_containment people_db "mark ELINSKI" 10);
    [reflexivity|reflexivity|reflexivity|reflexivity|discriminate].
Defined.

(** With a colon the search is no containment: the term [:Linda] is in a
    note and finds nothing, the term [a], backslash, colon, [b] is in no note
    and finds one. *)
Example colon_terms_are_not_contained :
  forallb plain_term [":Linda" : str; escaped_term] = true
  /\ fst (search_all_tables (mem_store notes_db) ":Linda" 10) = Some []
  /\ option_map count (expected_for notes_db [":Linda" : str] "Notes")
     = Some (VInt 1)
  /\ option_map (map count)
       (fst (search_all_tables (mem_store notes_db) escaped_term 10))
     = Some [VInt 1]
  /\ expected_for notes_db [escaped_term] "Notes" = None.
Proof. repeat split; vm_compute; reflexivity. Qed.

(** ** The words of a phrase *)

Lemma forallb_incl {A} (f : A -> bool) (l l' : list A) :
  incl l l' -> forallb f l' = true -> forallb f l = true.
Proof.
  intros Hi H. rewrite forallb_forall in *. intros x Hx. apply H. now apply Hi.
Qed.

Lemma forallb_same_set {A} (f : A -> bool) (l l' : list A) :
  (forall x, In x l <-> In x l') -> forallb f l = forallb f l'.
Proof.
  intros H. destruct (forallb f l') eqn:E.
  - apply (forallb_incl f l l'); [intros x; apply H|exact E].
  - destruct (forallb f l) eqn:E'; [|reflexivity].
    rewrite <- E. symmetry.
    apply (forallb_incl f l' l); [intros x; apply H|exact E'].
Qed.

Lemma existsb_incl {A} (f : A -> bool) (l l' : list A) :
  incl l l' -> existsb f l' = false -> existsb f l = false.
Proof.
  intros Hi H. destruct (existsb f l) eqn:E; [|reflexivity].
  apply existsb_exists in E as (x & Hx & Hf). rewrite <- H. symmetry.
  apply existsb_exists. exists x. split; [now apply Hi|exact Hf].
Qed.

Lemma existsb_same_set {A} (f : A -> bool) (l l' : list A) :
  (forall x, In x l <-> In x l') -> existsb f l = existsb f l'.
Proof.
  intros H. destruct (existsb f l') eqn:E.
  - destruct (existsb f l) eqn:E'; [reflexivity|].
    rewrite <- E. symmetry.
    apply (existsb_incl f l' l); [intros x; apply H|exact E'].
  - apply (existsb_incl f l l'); [intros x; apply H|exact E].
Qed.

Lemma map_same_set {A B} (f : A -> B) (l l' : list A) :
  (forall x, In x l <-> In x l') ->
  forall y, In y (map f l) <-> In y (map f l').
Proof.
  intros H y. rewrite !in_map_iff.
  split; intros (x & E & Hx); exists x; (split; [exact E|now apply H]).
Qed.

(** What an iteration leaves behind, by the answers to its two statements. *)
Lemma outcome_unfold (st : Store) (terms : list str) (t : str) :
  outcome st terms t
  = match get_columns st t with
    | None => None
    | Some cols =>
        match string_columns cols with
        | [] => None
        | _ :: _ =>
            fst (try_pass (scan st t (where_clause (string_columns cols) terms)))
        end
    end.
Proof.
  unfold outcome, scan_table, bind, call.
  destruct (get_columns st t) as [cols|]; [|reflexivity].
  destruct (string_columns cols) as [|c sc]; [reflexivity|].
  now destruct (scan st t (where_clause (c :: sc) terms)) as [[[m|]|] tr].
Qed.

Lemma scan_unfold (st : Store) (t w : str) :
  fst (try_pass (scan st t w))
  = match execute st (select_sql t w) with
    | None => None
    | Some res =>
        match fetchall res with
        | [] => None
        | _ :: _ =>
            match execute st (count_sql t w) with
            | None => None
            | Some cres =>
                Some {| table := t;
                        count := scalar cres;
                        columns := keys res;
                        records := map (dict_zip (keys res)) (fetchall res) |}
            end
        end
    end.
Proof.
  unfold scan, bind, call.
  destruct (execute st (select_sql t w)) as [res|]; [|reflexivity].
  destruct (fetchall res) as [|row rows]; [reflexivity|].
  now destruct (execute st (count_sql t w)).
Qed.

(** The rows a query answers with depend on the terms of its predicate only
    as a set. *)
Lemma run_query_same_terms (db : database) (k : query_kind) (t : str)
  (cols terms terms' : list str) :
  (forall x, In x terms <-> In x terms') ->
  run_query db {| q_kind := k; q_table := t;
                  q_where := where_groups cols terms |}
  = run_query db {| q_kind := k; q_table := t;
                    q_where := where_groups cols terms' |}.
Proof.
  intros H. unfold run_query. cbn [q_kind q_table q_where].
  destruct (find_table t db) as [tb|]; [|reflexivity].
  unfold columns_known, where_groups. rewrite !forallb_over_map.
  rewrite (forallb_same_set _ terms terms' H).
  rewrite (filter_ext (row_matches _ (map _ terms))
             (row_matches (map col_name (mt_columns tb))
                (map (fun term => map (atom_of term) cols) terms')));
    [reflexivity|].
  intros row. unfold row_matches. rewrite !forallb_over_map.
  now apply forallb_same_set.
Qed.

Lemma where_binds_same_set (cols terms terms' : list str) :
  (forall x, In x terms <-> In x terms') ->
  where_binds cols terms = where_binds cols terms'.
Proof. intros H. unfold where_binds. now apply existsb_same_set. Qed.

(** X15. Against a well-formed in-memory database, two phrases of plain
    terms that hold the same words, in whatever order and however often, get
    the same answer. *)
Theorem word_order_is_irrelevant (db : database) (phrase phrase' : str) (b : Z) :
  wf_database db = true ->
  forallb plain_term (Py.split phrase) = true ->
  Py.split phrase <> [] ->
  (forall t, In t (Py.split phrase) <-> In t (Py.split phrase')) ->
  fst (search_all_tables (mem_store db) phrase b)
  = fst (search_all_tables (mem_store db) phrase' b).
Proof.
  intros Hwf Hplain Hne Hsame.
  assert (Hplain' : forallb plain_term (Py.split phrase') = true)
    by (rewrite <- (forallb_same_set _ _ _ Hsame); exact Hplain).
  assert (Hne' : Py.split phrase' <> []).
  { destruct (Py.split phrase) as [|t ts]; [now destruct Hne|].
    intros E. rewrite E in Hsame.
    now destruct (proj1 (Hsame t) (or_introl eq_refl)). }
  rewrite !(search_found (mem_store db) _ b (map mt_name db) eq_refl).
  do 2 f_equal. apply map_ext. intros t.
  rewrite !outcome_unfold. cbn [get_columns mem_store].
  destruct (find_table t db) as [tb|] eqn:Etb; [|reflexivity].
  cbn [option_map].
  destruct (wf_database_table _ _ _ Hwf Etb) as (Ht & Hnames & _).
  pose proof (string_columns_plain _ Hnames) as Hsc.
  destruct (string_columns (mt_columns tb)) as [|c sc]; [reflexivity|].
  rewrite !scan_unfold. cbn [execute mem_store].
  rewrite !mem_execute_select, !mem_execute_count;
    try assumption; try discriminate.
  rewrite (where_binds_same_set (c :: sc) _ _ Hsame).
  pose proof (map_same_set unescape _ _ Hsame) as Hsame'.
  rewrite (run_query_same_terms db (Sample 10) (unescape t)
             (map unescape (c :: sc)) _ _ Hsame').
  rewrite (run_query_same_terms db Count (unescape t)
             (map unescape (c :: sc)) _ _ Hsame').
  destruct (Py.split phrase) as [|t0 ts]; [now destruct Hne|].
  destruct (Py.split phrase') as [|t0' ts']; [now destruct Hne'|].
  reflexivity.
Qed.

Lemma word_order_is_irrelevant_witness :
  fst (search_all_tables (mem_store people_db) "Mark Elinski" 10)
  = fst (search_all_tables (mem_store people_db) "Elinski Mark Mark" 10).
Proof.
  apply (word_order_is_irrelevant people_db "Mark Elinski" "Elinski Mark Mark" 10);
    [reflexivity|reflexivity|discriminate|].
  intros t. simpl. tauto.
Defined.

Lemma filter_implies {A} (f g : A -> bool) (l : list A) :
  (forall x, f x = true -> g x = true) ->
  (length (filter f l) <= length (filter g l))%nat
  /\ (filter f l <> [] -> filter g l <> []).
Proof.
  intros H. induction l as [|a l [IH1 IH2]]; [now split|].
  simpl. destruct (f a) eqn:Ef.
  - rewrite (H a Ef). simpl. split; [lia|discriminate].
  - destruct (g a); simpl; split; try lia; try discriminate; exact IH2.
Qed.

(** With fewer terms a query answers where it answered before, with at
    least as many rows. *)
Lemma run_query_narrows (db : database) (t : str) (cols terms terms' : list str)
  (res' : result) :
  incl terms terms' ->
  run_query db {| q_kind := Sample 10; q_table := t;
                  q_where := where_groups cols terms' |} = Some res' ->
  fetchall res' <> [] ->
  exists res n n',
    run_query db {| q_kind := Sample 10; q_table := t;
                    q_where := where_groups cols terms |} = Some res
    /\ fetchall res <> []
    /\ run_query db {| q_kind := Count; q_table := t;
                       q_where := where_groups cols terms |}
       = Some {| keys := [[] : str]; fetchall := [[VInt (Z.of_nat n)]] |}
    /\ run_query db {| q_kind := Count; q_table := t;
                       q_where := where_groups cols terms' |}
       = Some {| keys := [[] : str]; fetchall := [[VInt (Z.of_nat n')]] |}
    /\ (n' <= n)%nat.
Proof.
  intros Hi. unfold run_query. cbn [q_kind q_table q_where].
  destruct (find_table t db) as [tb|]; [|discriminate].
  set (names := map col_name (mt_columns tb)).
  destruct (columns_known names (where_groups cols terms')) eqn:Ek;
    [|discriminate].
  assert (Ek' : columns_known names (where_groups cols terms) = true).
  { unfold columns_known, where_groups in *. rewrite forallb_over_map in *.
    now apply (forallb_incl _ _ _ Hi). }
  rewrite Ek'.
  destruct (filter_implies (row_matches names (where_groups cols terms'))
              (row_matches names (where_groups cols terms)) (mt_rows tb))
    as [Hlen Hne].
  { intros row. unfold row_matches, where_groups. rewrite !forallb_over_map.
    now apply forallb_incl. }
  intros [= <-]. cbn [fetchall]. intros Hrows.
  eexists. eexists. eexists. split; [reflexivity|]. cbn [fetchall].
  split; [|split; [reflexivity|split; [reflexivity|exact Hlen]]].
  intros E. apply firstn_nil_iff in E. apply Hne; [|exact E].
  intros E'. rewrite E' in Hrows. now destruct Hrows.
Qed.

Lemma where_binds_incl (cols terms terms' : list str) :
  incl terms terms' ->
  where_binds cols terms' = false -> where_binds cols terms = false.
Proof. intros Hi. unfold where_binds. now apply existsb_incl. Qed.

(** X16. Against a well-formed in-memory database, words added to a phrase
    of plain terms only narrow what search_person.py finds: every table found
    for the longer phrase is found for the shorter one, with a count at least
    as large. *)
Theorem more_words_narrow (db : database) (phrase phrase' : str)
  (found found' : list table_result) (m' : table_result) :
  wf_database db = true ->
  forallb plain_term (Py.split phrase') = true ->
  Py.split phrase <> [] ->
  incl (Py.split phrase) (Py.split phrase') ->
  fst (search_person (mem_store db) phrase) = Some found ->
  fst (search_person (mem_store db) phrase') = Some found' ->
  In m' found' ->
  exists m,
    In m found /\ table m = table m' /\ count_of m' <= count_of m.
Proof.
  intros Hwf Hplain' Hne Hi Hf Hf' Hm'.
  assert (Hplain : forallb plain_term (Py.split phrase) = true)
    by (apply (forallb_incl _ _ _ Hi Hplain')).
  assert (Hne' : Py.split phrase' <> []).
  { destruct (Py.split phrase) as [|t ts]; [now destruct Hne|].
    intros E. rewrite E in Hi. now destruct (Hi t (or_introl eq_refl)). }
  rewrite (search_person_found (mem_store db) phrase (map mt_name db) eq_refl)
    in Hf.
  rewrite (search_person_found (mem_store db) phrase' (map mt_name db) eq_refl)
    in Hf'.
  injection Hf as <-. injection Hf' as <-.
  apply entries_In in Hm'. apply in_map_iff in Hm' as (t & Ho & Ht).
  assert (H : exists m,
             outcome (mem_store db) (Py.split phrase) t = Some m
             /\ table m = table m' /\ count_of m' <= count_of m).
  { rewrite outcome_unfold in *. cbn [get_columns mem_store] in *.
    destruct (find_table t db) as [tb|] eqn:Etb; [|discriminate].
    cbn [option_map] in *.
    destruct (wf_database_table _ _ _ Hwf Etb) as (Hpt & Hnames & _).
    pose proof (string_columns_plain _ Hnames) as Hsc.
    destruct (string_columns (mt_columns tb)) as [|c sc]; [discriminate|].
    rewrite scan_unfold in *. cbn [execute mem_store] in *.
    rewrite !mem_execute_select, !mem_execute_count in *;
      try assumption; try discriminate.
    destruct (Py.split phrase) as [|t0 ts]; [now destruct Hne|].
    destruct (Py.split phrase') as [|t0' ts']; [now destruct Hne'|].
    destruct (has_bind_parameter t) eqn:Eb; [discriminate|]. cbn [orb] in *.
    destruct (where_binds (c :: sc) (t0' :: ts')) eqn:Ew'; [discriminate|].
    rewrite (where_binds_incl _ _ _ Hi Ew').
    destruct (run_query db
                {| q_kind := Sample 10; q_table := unescape t;
                   q_where := where_groups (map unescape (c :: sc))
                                (map unescape (t0' :: ts')) |})
      as [res'|] eqn:Er'; [|discriminate].
    destruct (fetchall res') as [|row' rows'] eqn:Erows'; [discriminate|].
    destruct (run_query_narrows db (unescape t) (map unescape (c :: sc))
                (map unescape (t0 :: ts)) (map unescape (t0' :: ts')) res')
      as (res & n & n' & Er & Hrows & Ec & Ec' & Hle).
    - now apply incl_map.
    - exact Er'.
    - rewrite Erows'. discriminate.
    - rewrite Ec' in Ho. injection Ho as <-.
      rewrite Er, Ec. destruct (fetchall res) as [|row rows];
        [now destruct Hrows|].
      eexists. split; [reflexivity|]. split; [reflexivity|].
      unfold count_of. cbn [count scalar fetchall]. lia. }
  destruct H as (m & Hm & Htab & Hc).
  exists m. split; [|now split].
  apply entries_In. apply in_map_iff. exists t. split; [exact Hm|exact Ht].
Qed.

Lemma more_words_narrow_witness :
  exists m,
    In m [ {| table := "People";
              count := VInt 3;
              columns := ["FirstName" : str; "LastName" : str];
              records := [ [("FirstName" : str, VStr "Mark");
                            ("LastName" : str, VStr "Jones")];
                           [("FirstName" : str, VStr "Mark");
                            ("LastName" : str, VStr "Elinski")];
                           [("FirstName" : str, VStr "Ann");
                            ("LastName" : str, VStr "MARKHAM elinski")] ] |} ]
    /\ table m = "People"
    /\ 2 <= count_of m.
Proof.
  apply (more_words_narrow people_db "Mark" "Mark Elinski"
           [ {| table := "People";
                count := VInt 3;
                columns := ["FirstName" : str; "LastName" : str];
                records := [ [("FirstName" : str, VStr "Mark");
                              ("LastName" : str, VStr "Jones")];
                             [("FirstName" : str, VStr "Mark");
                              ("LastName" : str, VStr "Elinski")];
                             [("FirstName" : str, VStr "Ann");
                              ("LastName" : str, VStr "MARKHAM elinski")] ] |} ]
           [ {| table := "People";
                count := VInt 2;
                columns := ["FirstName" : str; "LastName" : str];
                records := [ [("FirstName" : str, VStr "Mark");
                              ("LastName" : str, VStr "Elinski")];
                             [("FirstName" : str, VStr "Ann");
                              ("LastName" : str, VStr "MARKHAM elinski")] ] |} ]
           {| table := "People";
              count := VInt 2;
              columns := ["FirstName" : str; "LastName" : str];
              records := [ [("FirstName" : str, VStr "Mark");
                            ("LastName" : str, VStr "Elinski")];
                           [("FirstName" : str, VStr "Ann");
                            ("LastName" : str, VStr "MARKHAM elinski")] ] |}).
  - reflexivity.
  - reflexivity.
  - discriminate.
  - intros t [<-|[]]. now left.
  - vm_compute. reflexivity.
  - vm_compute. reflexivity.
  - now left.
Defined.

(** ** The name across the scripts *)

Lemma name_of_first_record_chain (r : dict) :
  name_of_first_record r
  = if truthy (Siblings.name_chain r) then Siblings.name_chain r
    else VStr "Unknown".
Proof. reflexivity. Qed.

(** The text of a truthy value is not empty. *)
Lemma truthy_text (v : value) : truthy v = true -> str_of_value v <> [].
Proof.
  destruct v as [|s|z]; cbn [truthy str_of_value]; [discriminate| |].
  - now destruct s.
  - intros _. destruct z as [|p|p]; cbn; try discriminate.
    pose proof (DecimalPos.Unsigned.to_uint_nonnil p) as H.
    destruct (Pos.to_uint p); [now destruct H|discriminate..].
Qed.

Lemma find_first {A} (f : A -> bool) (before after : list A) (x : A) :
  existsb f before = false -> f x = true ->
  find f (before ++ x :: after) = Some x.
Proof.
  intros Hb Hx. induction before as [|a before IH]; cbn.
  - now rewrite Hx.
  - cbn in Hb. apply orb_false_iff in Hb as [Ha Hb]. rewrite Ha. now apply IH.
Qed.

Lemma find_none {A} (f : A -> bool) (l : list A) :
  existsb f l = false -> find f l = None.
Proof.
  induction l as [|a l IH]; cbn; [reflexivity|].
  intros H. apply orb_false_iff in H as [Ha H]. rewrite Ha. now apply IH.
Qed.

Lemma find_split {A} (f : A -> bool) (l : list A) :
  match find f l with
  | Some x =>
      exists before after,
        l = before ++ x :: after /\ existsb f before = false /\ f x = true
  | None => existsb f l = false
  end.
Proof.
  induction l as [|a l IH]; cbn; [reflexivity|].
  destruct (f a) eqn:Ea.
  - exists [], l. auto.
  - destruct (find f l) as [x|].
    + destruct IH as (before & after & -> & Hb & Hx).
      exists (a :: before), after. cbn. rewrite Ea. auto.
    + exact IH.
Qed.

(** X17. dash_query.py goes on where dash_multitable.py gives up.  Where
    the chain of candidate fields yields a name, the two scripts give the same
    one.  Where it does not, dash_multitable.py says "Unknown", while
    dash_query.py gives the text, never empty, of the value of the first
    field, in the order of the record, whose key holds "name", letter case
    aside, and whose value is truthy, be it a string or a number; it says
    "Unknown" when there is no such field, and only then or when that text
    is "Unknown" itself. *)
Theorem dash_query_recovers_name (r : dict) :
  (truthy (Siblings.name_chain r) = true ->
   Siblings.generate_introduction_name r = name_of_first_record r)
  /\ (truthy (Siblings.name_chain r) = false ->
      name_of_first_record r = VStr "Unknown"
      /\ (forall before k v after,
            r = before ++ (k, v) :: after ->
            existsb Siblings.names_something before = false ->
            Siblings.names_something (k, v) = true ->
            str_of_value v <> []
            /\ Siblings.generate_introduction_name r = VStr (str_of_value v))
      /\ (existsb Siblings.names_something r = false ->
          Siblings.generate_introduction_name r = VStr "Unknown")
      /\ (Siblings.generate_introduction_name r = VStr "Unknown" ->
          existsb Siblings.names_something r = false
          \/ exists before k v after,
               r = before ++ (k, v) :: after
               /\ existsb Siblings.names_something before = false
               /\ Siblings.names_something (k, v) = true
               /\ str_of_value v = "Unknown")).
Proof.
  rewrite name_of_first_record_chain.
  unfold Siblings.generate_introduction_name.
  destruct (truthy (Siblings.name_chain r)) eqn:E.
  - split; [|discriminate]. intros _. now rewrite E.
  - split; [discriminate|]. intros _. split; [reflexivity|].
    assert (Hfound : forall k v,
               Siblings.names_something (k, v) = true ->
               str_of_value v <> []
               /\ (if truthy (VStr (str_of_value v))
                   then VStr (str_of_value v) else VStr "Unknown")
                  = VStr (str_of_value v)).
    { intros k v Hkv. unfold Siblings.names_something in Hkv.
      apply andb_true_iff in Hkv as [_ Hv]. cbn [snd] in Hv.
      pose proof (truthy_text v Hv) as Hne. split; [exact Hne|].
      cbn [truthy]. now destruct (str_of_value v). }
    split; [|split].
    + intros before k v after -> Hb Hkv.
      rewrite (find_first _ _ _ _ Hb Hkv). cbn [snd].
      now apply (Hfound k).
    + intros Hnone. rewrite (find_none _ _ Hnone). now rewrite E.
    + pose proof (find_split Siblings.names_something r) as Hs.
      destruct (find Siblings.names_something r) as [[k v]|]; [|now left].
      destruct Hs as (before & after & Hr & Hb & Hkv).
      cbn [snd]. destruct (Hfound k v Hkv) as [_ ->].
      intros [= Hv]. right. now exists before, k, v, after.
Qed.

(** A record with an empty Contact and a customer name that is a number. *)
Lemma dash_query_recovers_name_witness :
  name_of_first_record
    [("Contact" : str, VStr ""); ("CustomerName" : str, VInt 42)]
  = VStr "Unknown"
  /\ Siblings.generate_introduction_name
       [("Contact" : str, VStr ""); ("CustomerName" : str, VInt 42)]
     = VStr "42".
Proof.
  destruct (proj2 (dash_query_recovers_name
                     [("Contact" : str, VStr "");
                      ("CustomerName" : str, VInt 42)]) eq_refl)
    as (H1 & H2 & _).
  split; [exact H1|].
  apply (H2 [("Contact" : str, VStr "")] ("CustomerName" : str) (VInt 42) []);
    reflexivity.
Defined.

(** The record with an empty Contact and a Name, in dash_query.py. *)
Example dash_query_finds_bob :
  Siblings.generate_introduction_name
    [("Contact" : str, VStr ""); ("Name" : str, VStr "Bob")]
  = VStr "Bob".
Proof. reflexivity. Qed.

(** X18. Where a record has both a FirstName and a LastName key and the
    two put together are not blank, the three scripts give the same name:
    the two, separated by a space, without blanks around. *)
Theorem scripts_agree_on_full_name (r : dict) :
  dict_has "FirstName" r = true ->
  dict_has "LastName" r = true ->
  let full :=
    Py.strip (str_of_value (dict_get_default "FirstName" (VStr "") r)
              ++ " "
              ++ str_of_value (dict_get_default "LastName" (VStr "") r)) in
  full <> [] ->
  name_of_first_record r = VStr full
  /\ Siblings.generate_introduction_name r = VStr full
  /\ Siblings.structured_name r = VStr full.
Proof.
  intros Hf Hl full Hne.
  assert (Hchain : Siblings.name_chain r = VStr full)
    by (unfold Siblings.name_chain; now rewrite Hf, Hl).
  assert (Ht : truthy (VStr full) = true) by now destruct full.
  split; [|split].
  - rewrite name_of_first_record_chain, Hchain. now rewrite Ht.
  - unfold Siblings.generate_introduction_name. rewrite Hchain.
    now rewrite Ht, Ht.
  - unfold Siblings.structured_name. fold full. now rewrite Ht.
Qed.

Lemma scripts_agree_on_full_name_witness :
  name_of_first_record
    [("FirstName" : str, VStr "Linda"); ("LastName" : str, VNone)]
  = VStr "Linda None"
  /\ Siblings.generate_introduction_name
       [("FirstName" : str, VStr "Linda"); ("LastName" : str, VNone)]
     = VStr "Linda None"
  /\ Siblings.structured_name
       [("FirstName" : str, VStr "Linda"); ("LastName" : str, VNone)]
     = VStr "Linda None".
Proof.
  apply (scripts_agree_on_full_name
           [("FirstName" : str, VStr "Linda"); ("LastName" : str, VNone)]);
    [reflexivity|reflexivity|discriminate].
Defined.

(** ** main.py: the statement taken from an answer *)

Lemma split_on_nonempty (sep : str) (s : str) (k : nat) (cur : str) :
  Api.split_on sep k cur s <> [].
Proof.
  revert k cur. induction s as [|c s IH]; intros k cur; simpl; [discriminate|].
  destruct k; [|apply IH].
  destruct (Py.startswith sep (c :: s)); [discriminate|apply IH].
Qed.

Lemma split_on_found (sep : str) (s cur : str) :
  sep <> [] ->
  Py.contains sep s = true ->
  (1 < length (Api.split_on sep 0 cur s))%nat.
Proof.
  intros Hsep. revert cur. induction s as [|c s IH]; intros cur H.
  - simpl in H. destruct sep; [now destruct Hsep|discriminate].
  - cbn [Py.contains] in H. cbn [Api.split_on].
    destruct (Py.startswith sep (c :: s)) eqn:E.
    + pose proof (split_on_nonempty sep s (length sep - 1) []) as Hne.
      destruct (Api.split_on sep (length sep - 1) [] s); [now destruct Hne|].
      simpl. lia.
    + apply IH. exact H.
Qed.

Lemma startswith_longer (p x y : str) :
  Py.startswith p x = true -> Py.startswith p (x ++ y) = true.
Proof.
  revert x. induction p as [|a p IH]; intros x H; [reflexivity|].
  destruct x as [|b x]; [discriminate|]. simpl in *.
  apply andb_true_iff in H as [Hab H]. now rewrite Hab, IH.
Qed.

(** The first part holds no separator. *)
Lemma split_on_first (sep : str) (s cur : str) :
  sep <> [] ->
  exists x y rest,
    Api.split_on sep 0 cur s = (cur ++ x) :: rest
    /\ s = x ++ y
    /\ Py.contains sep x = false.
Proof.
  intros Hsep. revert cur. induction s as [|c s IH]; intros cur.
  - exists [], [], []. rewrite app_nil_r. repeat split.
    destruct sep; [now destruct Hsep|reflexivity].
  - cbn [Api.split_on]. destruct (Py.startswith sep (c :: s)) eqn:E.
    + exists [], (c :: s), (Api.split_on sep (length sep - 1) [] s).
      rewrite app_nil_r. repeat split.
      destruct sep; [now destruct Hsep|reflexivity].
    + destruct (IH (cur ++ [c])) as (x & y & rest & Hs & -> & Hc).
      exists (c :: x), y, rest. rewrite Hs, <- app_assoc. repeat split.
      cbn [Py.contains]. rewrite Hc, orb_false_r.
      destruct (Py.startswith sep (c :: x)) eqn:E'; [|reflexivity].
      apply (startswith_longer _ _ y) in E'. simpl in E, E'. congruence.
Qed.

Lemma lstrip_suffix (s : str) : exists a, s = a ++ Py.lstrip s.
Proof.
  induction s as [|c s [a IH]]; [now exists []|].
  simpl. destruct (Py.isspace c); [|now exists []].
  exists (c :: a). simpl. now rewrite <- IH.
Qed.

Lemma strip_infix (s : str) : exists a b, s = a ++ Py.strip s ++ b.
Proof.
  unfold Py.strip. destruct (lstrip_suffix s) as [a Ha].
  destruct (lstrip_suffix (rev (Py.lstrip s))) as [b Hb].
  exists a, (rev b). rewrite <- rev_app_distr, <- Hb, rev_involutive.
  exact Ha.
Qed.

Lemma contains_infix (sep a mid b : str) :
  Py.contains sep mid = true -> Py.contains sep (a ++ mid ++ b) = true.
Proof.
  intros H. destruct (contains_inv _ _ H) as (p & q & ->).
  replace (a ++ (p ++ sep ++ q) ++ b) with ((a ++ p) ++ sep ++ (q ++ b))
    by now rewrite <- !app_assoc.
  apply contains_app.
Qed.

Lemma lstrip_idem (s : str) : Py.lstrip (Py.lstrip s) = Py.lstrip s.
Proof.
  induction s as [|c s IH]; [reflexivity|].
  simpl. destruct (Py.isspace c) eqn:E; [exact IH|]. simpl. now rewrite E.
Qed.

Lemma lstrip_head (s : str) :
  match Py.lstrip s with [] => True | c :: _ => Py.isspace c = false end.
Proof.
  induction s as [|c s IH]; [exact I|].
  simpl. destruct (Py.isspace c) eqn:E; [exact IH|exact E].
Qed.

(** Nothing is left to strip, on either side. *)
Lemma strip_stripped (s : str) :
  Py.lstrip (Py.strip s) = Py.strip s
  /\ Py.lstrip (rev (Py.strip s)) = rev (Py.strip s).
Proof.
  unfold Py.strip. split; [|now rewrite rev_involutive, lstrip_idem].
  pose proof (lstrip_head s) as Hh.
  destruct (lstrip_suffix (rev (Py.lstrip s))) as [b Hb].
  apply (f_equal (@rev ascii)) in Hb.
  rewrite rev_involutive, rev_app_distr in Hb.
  destruct (rev (Py.lstrip (rev (Py.lstrip s)))) as [|c w]; [reflexivity|].
  rewrite Hb in Hh. cbn [app] in Hh. simpl. now rewrite Hh.
Qed.

(** X19. The statement taken from an answer of the agent is [None]
    exactly when the answer holds no [```sql]; when there is one, the test on
    the number of parts cannot fail, and the statement holds no [```] and has
    no whitespace at either end. *)
Theorem extract_sql_is_clean (response_text : str) :
  (Api.extract_sql response_text = None
   <-> Py.contains Api.sql_fence response_text = false)
  /\ forall sql,
       Api.extract_sql response_text = Some sql ->
       Py.contains Api.fence sql = false
       /\ Py.lstrip sql = sql
       /\ Py.lstrip (rev sql) = rev sql.
Proof.
  unfold Api.extract_sql.
  destruct (Py.contains Api.sql_fence response_text) eqn:E.
  2:{ split; [now split|discriminate]. }
  pose proof (split_on_found Api.sql_fence response_text []
                ltac:(discriminate) E) as Hlen.
  fold (Api.split_sep Api.sql_fence response_text) in Hlen.
  apply Nat.ltb_lt in Hlen as Hlt. rewrite Hlt.
  destruct (Api.split_sep Api.sql_fence response_text) as [|p0 [|p1 parts]];
    simpl in Hlen; try lia.
  cbn [nth_error].
  destruct (split_on_first Api.fence p1 [] ltac:(discriminate))
    as (x & y & rest & Hs & _ & Hc).
  unfold Api.split_sep. rewrite Hs. cbn [app].
  split; [split; discriminate|]. intros sql [= <-].
  destruct (strip_stripped x) as [Hl Hr]. repeat split; try assumption.
  destruct (Py.contains Api.fence (Py.strip x)) eqn:Ec; [|reflexivity].
  destruct (strip_infix x) as (a & b & Hx).
  rewrite Hx in Hc. rewrite (contains_infix _ a _ b Ec) in Hc. discriminate.
Qed.

Lemma extract_sql_is_clean_witness :
  Api.extract_sql "Query: ```sql SELECT 1 ``` and ```sql SELECT 2 ```"
  = Some ("SELECT 1" : str)
  /\ Py.contains Api.fence "SELECT 1" = false
  /\ Py.lstrip "SELECT 1" = ("SELECT 1" : str)
  /\ Py.lstrip (rev ("SELECT 1" : str)) = rev ("SELECT 1" : str).
Proof.
  split; [reflexivity|].
  apply (proj2 (extract_sql_is_clean
                  "Query: ```sql SELECT 1 ``` and ```sql SELECT 2 ```")).
  reflexivity.
Defined.

Lemma split_on_plain (sep : str) (c0 : ascii) (sep' s t cur : str) :
  sep = c0 :: sep' ->
  existsb (Ascii.eqb c0) s = false ->
  Api.split_on sep 0 cur (s ++ t) = Api.split_on sep 0 (cur ++ s) t.
Proof.
  intros -> . revert cur. induction s as [|c s IH]; intros cur H.
  - now rewrite app_nil_r.
  - simpl in H. apply orb_false_iff in H as [Hc H].
    cbn [app Api.split_on Py.startswith]. rewrite Hc. cbn [andb].
    rewrite IH by exact H. now rewrite <- app_assoc.
Qed.

Lemma tickless_ticks (s : str) :
  Api.tickless s = true -> existsb (Ascii.eqb "`"%char) s = false.
Proof. unfold Api.tickless. apply negb_true_iff. Qed.

(** The parts of a text without a backtick before a block that is closed. *)
Lemma split_sql_fence (pre body rest : str) :
  Api.tickless pre = true ->
  Api.tickless body = true ->
  Api.tickless rest = true ->
  exists tail parts,
    Api.split_sep Api.sql_fence
      (pre ++ Api.sql_fence ++ body ++ Api.fence ++ rest)
    = pre :: (body ++ tail) :: parts
    /\ (tail = [] \/ tail = Api.fence ++ rest).
Proof.
  intros Hpre Hbody Hrest.
  apply tickless_ticks in Hpre. apply tickless_ticks in Hbody.
  pose proof (tickless_ticks _ Hrest) as Hrest'.
  unfold Api.split_sep.
  rewrite (split_on_plain Api.sql_fence "`"%char "``sql" pre _ [] eq_refl Hpre).
  cbn [app].
  remember (body ++ Api.fence ++ rest) as after eqn:Eafter.
  change (Api.sql_fence ++ after)
    with ("`"%char :: "`"%char :: "`"%char :: "s"%char :: "q"%char
          :: "l"%char :: after).
  cbn [Api.split_on]. 
  assert (Hstart : Py.startswith Api.sql_fence
                     ("`"%char :: "`"%char :: "`"%char :: "s"%char :: "q"%char
                      :: "l"%char :: after) = true) by reflexivity.
  rewrite Hstart. cbn [length Api.sql_fence lit list_ascii_of_string Nat.sub
                       Api.split_on].
  subst after.
  rewrite (split_on_plain Api.sql_fence "`"%char "``sql" body _ [] eq_refl Hbody).
  cbn [app].
  destruct (Py.startswith "sql" rest) eqn:Esql.
  - exists [], (Api.split_on Api.sql_fence 5 [] ("``" ++ rest)).
    rewrite app_nil_r. split; [|now left].
    change (Api.fence ++ rest) with ("`"%char :: "`"%char :: "`"%char :: rest).
    cbn [Api.split_on].
    replace (Py.startswith Api.sql_fence
               ("`"%char :: "`"%char :: "`"%char :: rest)) with true
      by (symmetry; exact Esql).
    reflexivity.
  - exists (Api.fence ++ rest), []. split; [|now right].
    change (Api.fence ++ rest) with ("`"%char :: "`"%char :: "`"%char :: rest).
    cbn [Api.split_on].
    replace (Py.startswith Api.sql_fence
               ("`"%char :: "`"%char :: "`"%char :: rest)) with false
      by (symmetry; exact Esql).
    assert (H2 : Py.startswith Api.sql_fence ("`"%char :: "`"%char :: rest)
                 = false).
    { destruct rest as [|r rest]; [reflexivity|].
      simpl in Hrest'. apply orb_false_iff in Hrest' as [Hr _].
      cbn. now rewrite Hr. }
    assert (H1 : Py.startswith Api.sql_fence ("`"%char :: rest) = false).
    { destruct rest as [|r rest]; [reflexivity|].
      simpl in Hrest'. apply orb_false_iff in Hrest' as [Hr _].
      cbn. now rewrite Hr. }
    rewrite H2, H1.
    rewrite <- (app_nil_r rest) at 1.
    rewrite (split_on_plain Api.sql_fence "`"%char "``sql" rest [] _ eq_refl
               Hrest').
    cbn [Api.split_on]. now rewrite <- !app_assoc.
Qed.

(** X20. A statement put into a fenced block comes back: when the text
    before the block, the statement and the text after the block hold no
    backtick, the statement taken from the answer is the body of the block
    without the whitespace around it. *)
Theorem extract_sql_round_trip (pre body rest : str) :
  Api.tickless pre = true ->
  Api.tickless body = true ->
  Api.tickless rest = true ->
  Api.extract_sql (pre ++ Api.sql_fence ++ body ++ Api.fence ++ rest)
  = Some (Py.strip body).
Proof.
  intros Hpre Hbody Hrest. unfold Api.extract_sql.
  rewrite contains_app.
  destruct (split_sql_fence pre body rest Hpre Hbody Hrest)
    as (tail & parts & -> & Htail).
  cbn [length Nat.ltb Nat.leb nth_error].
  apply tickless_ticks in Hbody. unfold Api.split_sep.
  destruct Htail as [->| ->].
  - rewrite app_nil_r. rewrite <- (app_nil_r body) at 1.
    rewrite (split_on_plain Api.fence "`"%char "``" body [] [] eq_refl Hbody).
    reflexivity.
  - rewrite (split_on_plain Api.fence "`"%char "``" body _ [] eq_refl Hbody).
    change (Api.fence ++ rest) with ("`"%char :: "`"%char :: "`"%char :: rest).
    cbn [Api.split_on app].
    replace (Py.startswith Api.fence ("`"%char :: "`"%char :: "`"%char :: rest))
      with true by reflexivity.
    reflexivity.
Qed.

Lemma extract_sql_round_trip_witness :
  Api.extract_sql
    ("Here is the query: " ++ Api.sql_fence
     ++ " SELECT TOP 10 * FROM [People] " ++ Api.fence ++ " Done.")
  = Some (Py.strip " SELECT TOP 10 * FROM [People] ").
Proof.
  apply (extract_sql_round_trip "Here is the query: "
           " SELECT TOP 10 * FROM [People] " " Done."); reflexivity.
Defined.

(** Four backticks after the block: the statement comes back with one of
    them. *)
Example extract_sql_four_ticks :
  Api.extract_sql ("```sql" ++ "SELECT 1" ++ "```" ++ "`sql")
  = Some ("SELECT 1`" : str).
Proof. reflexivity. Qed.
